(** * Decision rails, proof tokens and the shadow twin: a shallow embedding

    The development follows the Python sources file by file:

    - [Py]: the fragment of the Python runtime the sources rely on
      (exceptions, dynamically typed values, insertion-ordered
      dictionaries, binary64 floats and their comparison operators);
    - [ApophaticGuard]: [core/logic/apophatic_guard.py];
    - [ConsentChecker]: [core/logic/consent_checker.py];
    - [ProofCarryingAdvice]: the token part of
      [core/proofs/proof_carrying_advice.py];
    - [ShadowTwin]: [apps/contemplator/shadow_twin.py];
    - [DecisionCore]: [core/planner/decision_core.py].

    Definitions come first; the facts proved about them follow. *)

From Stdlib Require Import ZArith List String Ascii Lia Floats.
From Stdlib Require Import Permutation DecimalString.
From stdpp Require Import gmap strings.
Import ListNotations.

Set Warnings "-inexact-float".
Local Open Scope string_scope.
Local Open Scope list_scope.

(* ================================================================== *)
(** * The Python fragment *)
(* ================================================================== *)

Module Py.

(** Exceptions the modelled code can raise. *)
Inductive exn : Type :=
| AttributeError
| TypeError
| ValueError
| KeyError
| OverflowError
| ImportError.

(** A call either returns or raises. *)
Inductive result (A : Type) : Type :=
| Ok (a : A)
| Raise (e : exn).
Arguments Ok {A} a.
Arguments Raise {A} e.

#[global] Instance result_ret : MRet result := fun A a => Ok a.

#[global] Instance result_bind : MBind result := fun A B k m =>
  match m with
  | Ok a => k a
  | Raise e => Raise e
  end.

(** Dynamically typed values: what a [Dict[str, Any]] of the sources can
    hold.  A dictionary keeps its items in insertion order, as Python's
    [dict] does; its keys are strings. *)
#[local] Unset Elimination Schemes.
Inductive value : Type :=
| VNone
| VBool (b : bool)
| VInt (z : Z)
| VFloat (f : float)
| VStr (s : string)
| VList (l : list value)
| VDict (d : list (string * value)).
#[local] Set Elimination Schemes.

Definition dict : Type := list (string * value).

(** [k in d] *)
Fixpoint dict_contains (k : string) (d : dict) : bool :=
  match d with
  | [] => false
  | (k', _) :: rest => if String.eqb k k' then true else dict_contains k rest
  end.

(** [d.get(k)], [None] of Rocq standing for the missing key. *)
Fixpoint dict_get (k : string) (d : dict) : option value :=
  match d with
  | [] => None
  | (k', v) :: rest => if String.eqb k k' then Some v else dict_get k rest
  end.

(** [d.get(k, default)] *)
Definition dict_get_default (k : string) (default : value) (d : dict) : value :=
  match dict_get k d with
  | Some v => v
  | None => default
  end.

(** [d[k] = v]: an existing key keeps its place, a new one goes last. *)
Fixpoint dict_set (k : string) (v : value) (d : dict) : dict :=
  match d with
  | [] => [(k, v)]
  | (k', v') :: rest =>
      if String.eqb k k' then (k', v) :: rest else (k', v') :: dict_set k v rest
  end.

(** [d.setdefault(k, v)], as a statement. *)
Definition dict_setdefault (k : string) (v : value) (d : dict) : dict :=
  if dict_contains k d then d else dict_set k v d.

(** [{**d1, **d2}] *)
Definition dict_merge (d1 d2 : dict) : dict :=
  fold_left (fun acc kv => dict_set (fst kv) (snd kv) acc) d2 d1.

(** Truth value of an object, as [if x], [not x] and [x or y] test it. *)
Definition truthy (v : value) : bool :=
  match v with
  | VNone => false
  | VBool b => b
  | VInt z => negb (Z.eqb z 0)
  | VFloat f => negb (PrimFloat.eqb f 0%float)
  | VStr s => negb (String.eqb s "")
  | VList l => match l with [] => false | _ => true end
  | VDict d => match d with [] => false | _ => true end
  end.

(** ** Floats *)

(** Python's comparison operators on floats, by the operator the source
    writes. *)
Definition flt (a b : float) : bool := PrimFloat.ltb a b.  (* a < b *)
Definition fle (a b : float) : bool := PrimFloat.leb a b.  (* a <= b *)
Definition fgt (a b : float) : bool := PrimFloat.ltb b a.  (* a > b *)
Definition fge (a b : float) : bool := PrimFloat.leb b a.  (* a >= b *)
Definition feq (a b : float) : bool := PrimFloat.eqb a b.  (* a == b *)
#[global] Arguments flt : simpl never.
#[global] Arguments fle : simpl never.
#[global] Arguments fgt : simpl never.
#[global] Arguments fge : simpl never.
#[global] Arguments feq : simpl never.

(** [max(a, b)] and [min(a, b)]: the first argument is kept unless the
    second is strictly greater (smaller). *)
Definition py_max (a b : float) : float := if fgt b a then b else a.
Definition py_min (a b : float) : float := if flt b a then b else a.

(** [float(n)] for an [int]: round to nearest even, [OverflowError] when
    the result does not fit. *)
Definition float_of_int (z : Z) : result float :=
  let f := SF2Prim (binary_normalize prec emax z 0 false) in
  if is_infinity f then Raise OverflowError else Ok f.

(** ** Strings *)

(** [str.upper()] on the ASCII letters; characters outside ASCII are left as
    they are.  Python's method also maps letters outside ASCII (it sends
    the sharp s to [SS]), so the two agree on ASCII strings only; the
    operators of the inversion table are ASCII, and what is stated below
    about an inverted [will] is stated for upper-case forms found in that
    table. *)
Definition upper_ascii (c : ascii) : ascii :=
  let n := nat_of_ascii c in
  if (Nat.leb 97 n && Nat.leb n 122)%bool then ascii_of_nat (n - 32) else c.

Fixpoint upper (s : string) : string :=
  match s with
  | EmptyString => EmptyString
  | String c rest => String (upper_ascii c) (upper rest)
  end.

(** ** Equality of values

    [v1 == v2] between values of the same shape: scalars are equal when
    they are the same, lists item by item, and dictionaries when they have
    the same keys with equal values, in whatever order the items were
    inserted.  (Python also equates [1], [1.0] and [True]; this relation
    does not.) *)
#[local] Unset Elimination Schemes.
Inductive same : value -> value -> Prop :=
| same_none : same VNone VNone
| same_bool b : same (VBool b) (VBool b)
| same_int z : same (VInt z) (VInt z)
| same_float f : same (VFloat f) (VFloat f)
| same_str s : same (VStr s) (VStr s)
| same_list l1 l2 :
    Forall2 same l1 l2 -> same (VList l1) (VList l2)
| same_dict d1 d2 d1' :
    NoDup (List.map fst d1) ->
    Permutation d1 d1' ->
    Forall2 (fun kv1 kv2 => fst kv1 = fst kv2 /\ same (snd kv1) (snd kv2)) d1' d2 ->
    same (VDict d1) (VDict d2).
#[local] Set Elimination Schemes.

End Py.
Import Py.

(* ================================================================== *)
(** * core/logic/apophatic_guard.py *)
(* ================================================================== *)

Module ApophaticGuard.

(** Forbidden keys that should never be present. *)
Definition FORBIDDEN_KEYS : list string :=
  ["ground_is"; "ultimate_name"; "final_owner"; "sovereign_claim";
   "ground_truth"; "completion"].

(** Keys that must be constrained (boolean True or "enforced" only). *)
Definition CONSTRAINT_ONLY : list string :=
  ["no_image"; "no_totalization"; "no_equivalence"; "no_exchange";
   "no_possession"].

(** Warning markers (allowed but flagged). *)
Definition WARN_MARKERS : list string :=
  ["meta_closure"; "self_grounding"; "category_violation"].

(** [f"{prefix}.{k}" if prefix else k] *)
Definition join_key (prefix k : string) : string :=
  if String.eqb prefix "" then k else (prefix ++ "." ++ k)%string.

(** [_flatten_dict]: the loop body for one item [(k, v)] met under
    [prefix], with [key] already joined, and the loop over the items of a
    dictionary.  The accumulator [result] is only ever tested for
    membership and looked up, so it is a finite map. *)
Fixpoint flatten_item (v : value) (key : string) (result : gmap string value)
  : gmap string value :=
  match v with
  | VDict d =>
      (fix items (l : list (string * value)) (result : gmap string value) :=
         match l with
         | [] => result
         | (k, v') :: rest =>
             items rest (flatten_item v' (join_key key k) result)
         end) d result
  | _ => <[key := v]> result
  end.

Fixpoint flatten_items (l : dict) (prefix : string) (result : gmap string value)
  : gmap string value :=
  match l with
  | [] => result
  | (k, v) :: rest =>
      flatten_items rest prefix (flatten_item v (join_key prefix k) result)
  end.

Definition _flatten_dict (d : dict) : gmap string value :=
  flatten_items d "" ∅.

(** A value [_flatten_dict] stores rather than descends into. *)
Definition is_leaf (v : value) : Prop :=
  match v with VDict _ => False | _ => True end.

(** [x in (True, "enforced")]: membership in a tuple compares with [==],
    under which [1] and [1.0] equal [True]. *)
Definition affirmed (v : value) : bool :=
  match v with
  | VBool b => b
  | VInt z => Z.eqb z 1
  | VFloat f => feq f 1%float
  | VStr s => String.eqb s "enforced"
  | _ => false
  end.

Definition has_key (k : string) (m : gmap string value) : bool :=
  match m !! k with Some _ => true | None => false end.

Definition violates (m : gmap string value) (k : string) : bool :=
  match m !! k with
  | Some v => negb (affirmed v)
  | None => false
  end.

(** [admissible(context, params)] *)
Definition admissible (context params : dict) : bool :=
  let all_params := _flatten_dict params in
  let all_context := _flatten_dict context in
  (* {**all_context, **all_params}: the parameters win on a shared key *)
  let combined := all_params ∪ all_context in
  if existsb (fun k => has_key k combined) FORBIDDEN_KEYS then false
  else if existsb (violates combined) CONSTRAINT_ONLY then false
  else true.

(** The repository's own test inputs ([test_guard]). *)
Definition valid_params : dict :=
  [("no_totalization", VBool true); ("no_image", VStr "enforced");
   ("safe_key", VStr "value")].
Definition invalid_params1 : dict :=
  [("ground_is", VStr "being"); ("no_totalization", VBool true)].
Definition invalid_params2 : dict :=
  [("no_totalization", VBool false)].
Definition nested_params : dict :=
  [("deep", VDict [("deeper", VDict [("ground_is", VStr "hidden here")])])].

(** [check_detailed(context, params)]: the verdict and the messages, the
    reasons first and the warnings after them.  The three key sets are
    Python sets, whose iteration order the language leaves open; the order
    in which each is walked is an argument. *)
Definition check_detailed (forbidden_order constraint_order warn_order : list string)
    (context params : dict) : bool * list string :=
  let combined := _flatten_dict params ∪ _flatten_dict context in
  let reasons :=
    List.map (fun k => ("forbidden:" ++ k)%string)
      (List.filter (fun k => has_key k combined) forbidden_order)
    ++ List.map (fun k => ("constraint_violation:" ++ k)%string)
         (List.filter (violates combined) constraint_order) in
  let warnings :=
    List.map (fun k => ("warning:" ++ k)%string)
      (List.filter (fun k => has_key k combined) warn_order) in
  (match reasons with [] => true | _ => false end, reasons ++ warnings).

(** ** Vocabulary for the facts below *)

(** A dictionary none of whose values is a dictionary. *)
Definition flat (d : dict) : Prop := forall k v, In (k, v) d -> is_leaf v.

(** [{**context, **params}.get(k)] *)
Definition merged_get (context params : dict) (k : string) : option value :=
  match dict_get k params with
  | Some v => Some v
  | None => dict_get k context
  end.

(** Whether a key holds the separator of a flattened path. *)
Fixpoint has_dot (s : string) : bool :=
  match s with
  | EmptyString => false
  | String c rest => (Ascii.eqb c "." || has_dot rest)%bool
  end.

(** Every key of the map is a dotted path. *)
Definition dotted (m : gmap string value) : Prop :=
  forall k, is_Some (m !! k) -> has_dot k = true.

End ApophaticGuard.

(* ================================================================== *)
(** * core/logic/consent_checker.py *)
(* ================================================================== *)

Module ConsentChecker.

(** [ConsentScope]: the lattice, from the most constrained scope to the
    least, as the table [scope_levels] of [can_escalate] numbers it. *)
Definition scope_levels : list (string * Z) :=
  [("self", 0%Z); ("dyad", 1%Z); ("group", 2%Z); ("org", 3%Z); ("public", 4%Z)].

Fixpoint level_of (table : list (string * Z)) (s : string) : option Z :=
  match table with
  | [] => None
  | (k, n) :: rest => if String.eqb s k then Some n else level_of rest s
  end.

(** [ConsentScope.can_escalate(from_scope, to_scope)] *)
Definition can_escalate (from_scope to_scope : string) : bool :=
  match level_of scope_levels from_scope, level_of scope_levels to_scope with
  | Some from_level, Some to_level => Z.geb from_level to_level
  | _, _ => false
  end.

(** [ConsentTicket], with the fields typed as the dataclass annotates
    them. *)
Record ConsentTicket : Type := mkTicket {
  scope : string;
  issued_at : float;
  ttl_seconds : Z;
  max_invocations : Z;
  invocations : Z
}.

(** [ConsentTicket.is_valid()]; [now] is what [time.time()] returns.  The
    sum [issued_at + ttl_seconds] converts the integer to a float first. *)
Definition is_valid (now : float) (t : ConsentTicket) : result bool :=
  ttl ← float_of_int (ttl_seconds t);
  if fgt now (issued_at t + ttl)%float then Ok false
  else if Z.geb (invocations t) (max_invocations t) then Ok false
  else Ok true.

Definition bump (t : ConsentTicket) : ConsentTicket :=
  {| scope := scope t; issued_at := issued_at t; ttl_seconds := ttl_seconds t;
     max_invocations := max_invocations t;
     invocations := invocations t + 1 |}.

(** [ConsentTicket.use()]: what the call returns (or raises) and the ticket
    after it. *)
Definition use (now : float) (t : ConsentTicket) : result bool * ConsentTicket :=
  match is_valid now t with
  | Raise e => (Raise e, t)
  | Ok false => (Ok false, t)
  | Ok true => (Ok true, bump t)
  end.

(** A sequence of [use()] calls, one clock reading each. *)
Definition use_all (nows : list float) (t : ConsentTicket) : ConsentTicket :=
  fold_left (fun t now => snd (use now t)) nows t.

(** [ConsentChecker.validate_ticket], [validate_scope_escalation] *)
Definition validate_ticket (now : float) (t : ConsentTicket) : result bool :=
  is_valid now t.
Definition validate_scope_escalation (t : ConsentTicket) (target_scope : string)
  : bool :=
  can_escalate (scope t) target_scope.

(** [any(t.is_valid() and p(t) for t in tickets)]: the generator stops at
    the first ticket that passes. *)
Fixpoint any_valid (now : float) (p : ConsentTicket -> bool)
    (tickets : list ConsentTicket) : result bool :=
  match tickets with
  | [] => Ok false
  | t :: rest =>
      v ← is_valid now t;
      if (v && p t)%bool then Ok true else any_valid now p rest
  end.

(** [ConsentChecker.check_context] from the point where
    [extract_from_context] has produced [tickets]. *)
Definition check_context (now : float) (tickets : list ConsentTicket)
    (target_scope : option string) : result bool :=
  match tickets with
  | [] => Ok false
  | _ =>
      match target_scope with
      | None => any_valid now (fun _ => true) tickets
      | Some target => any_valid now (fun t => can_escalate (scope t) target) tickets
      end
  end.

(** The scopes the lattice knows, and whether a clock reading is within the
    lifetime of a ticket whose lifetime converts to [ttl]. *)
Definition SCOPES : list string := List.map fst scope_levels.

Definition within_lifetime (t : ConsentTicket) (ttl now : float) : Prop :=
  fgt now (issued_at t + ttl)%float = false.

(** ** Worked input *)

(** A ticket for two invocations, issued at time 1000 for ten seconds. *)
Definition ticket1 : ConsentTicket :=
  {| scope := "group"; issued_at := 1000%float; ttl_seconds := 10;
     max_invocations := 2; invocations := 0 |}.

End ConsentChecker.

(* ================================================================== *)
(** * core/proofs/proof_carrying_advice.py *)
(* ================================================================== *)

Module ProofCarryingAdvice.

(** [sorted(items)] on items with distinct string keys: a stable insertion
    sort on the key, strings compared code unit by code unit. *)
Fixpoint insert_item {A : Type} (x : string * A) (l : list (string * A))
  : list (string * A) :=
  match l with
  | [] => [x]
  | y :: rest =>
      if String.ltb (fst y) (fst x) then y :: insert_item x rest
      else x :: y :: rest
  end.

Fixpoint sort_items {A : Type} (l : list (string * A)) : list (string * A) :=
  match l with
  | [] => []
  | x :: rest => insert_item x (sort_items rest)
  end.

(** [", ".join(parts)] *)
Fixpoint join (sep : string) (parts : list string) : string :=
  match parts with
  | [] => ""
  | [x] => x
  | x :: rest => (x ++ sep ++ join sep rest)%string
  end.

Section Blake.

(** What the standard library provides: the text of a float and of a
    string in JSON, and the BLAKE2b digest (16 bytes, in hexadecimal) of a
    UTF-8 text. *)
Variable float_repr : float -> string.
Variable json_string : string -> string.
Variable blake2b_hex : string -> string.

Definition json_int (z : Z) : string := NilZero.string_of_int (Z.to_int z).

(** [json.dumps(obj, sort_keys=True, ensure_ascii=False)].  The values of
    a dictionary are written before its items are put in key order; the
    encoder has no effect, so the text is the same. *)
Fixpoint json_dumps (v : value) : string :=
  match v with
  | VNone => "null"
  | VBool true => "true"
  | VBool false => "false"
  | VInt z => json_int z
  | VFloat f => float_repr f
  | VStr s => json_string s
  | VList l => ("[" ++ join ", " (List.map json_dumps l) ++ "]")%string
  | VDict d =>
      let written := List.map (fun kv => (fst kv, json_dumps (snd kv))) d in
      let member kv := (json_string (fst kv) ++ ": " ++ snd kv)%string in
      ("{" ++ join ", " (List.map member (sort_items written)) ++ "}")%string
  end.

(** The items of a dictionary with their values written. *)
Definition written (d : dict) : list (string * string) :=
  List.map (fun kv => (fst kv, json_dumps (snd kv))) d.

(** [blake(obj)] *)
Definition blake (obj : value) : string := blake2b_hex (json_dumps obj).

Record Proof : Type := mkProof {
  name : string;
  ok : bool;
  details : dict;
  token : string
}.

(** [ProofCarryingAdvice._mk_proof(name, ok, details)]; the method does not
    read [self]. *)
Definition _mk_proof (name : string) (ok : bool) (details : dict) : Proof :=
  let tok := blake (VDict [("name", VStr name); ("ok", VBool ok);
                           ("details", VDict details)]) in
  {| name := name; ok := ok; details := details; token := tok |}.

End Blake.

Record AdviceDraft : Type := mkDraft {
  id : string;
  query : string;
  plan : dict;
  params : dict;
  context : dict
}.

Record AdviceWithProof : Type := mkAdvice {
  awp_id : string;
  answer : string;
  risk : float;
  proofs : list Proof;
  assessment : dict;
  decided_at : float
}.

(** ** The module's own gate checks *)

(** [FORBID_KEYS] and [CONSTRAINT_ONLY] of the local apophatic check, and
    the scopes the placeholder consent check accepts. *)
Definition FORBID_KEYS : list string :=
  ["ground_is"; "ultimate_name"; "final_owner"; "sovereign_claim"].
Definition CONSTRAINT_ONLY : list string :=
  ["no_image"; "no_totalization"; "no_equivalence"; "no_exchange"].
Definition CONSENT_SCOPES : list string :=
  ["self"; "dyad"; "group"; "org"; "public"].

(** [k in FORBID_KEYS] *)
Definition forbidden (k : string) : bool := existsb (String.eqb k) FORBID_KEYS.

(** [k in params and params[k] not in (True, "enforced")] *)
Definition unaffirmed (params : dict) (k : string) : bool :=
  match dict_get k params with
  | Some v => negb (ApophaticGuard.affirmed v)
  | None => false
  end.

(** [apophatic_ok(params)]: the verdict and the reasons.  The keys of
    [params] are walked in insertion order; [CONSTRAINT_ONLY] is a set and
    the order in which it is walked is an argument. *)
Definition apophatic_ok (constraint_order : list string) (params : dict)
  : bool * list string :=
  let reasons :=
    List.map (fun k => ("forbidden:" ++ k)%string)
      (List.filter forbidden (List.map fst params))
    ++ List.map (fun k => ("constraint_only_violation:" ++ k)%string)
         (List.filter (unaffirmed params) constraint_order) in
  (match reasons with [] => true | _ => false end, reasons).

(** [consent_ok(ctx)].  [c.get] needs a dictionary; [is True] holds of the
    Boolean alone; membership in the set of scopes hashes the value, which
    a list and a dictionary do not allow. *)
Definition consent_ok (ctx : dict) : result (bool * string) :=
  match dict_get_default "consent" (VDict []) ctx with
  | VDict c =>
      match dict_get "valid" c with
      | Some (VBool true) =>
          match dict_get_default "scope" VNone c with
          | VStr s =>
              if existsb (String.eqb s) CONSENT_SCOPES
              then Ok (true, "consent:validated")
              else Ok (false, "consent:missing_or_invalid")
          | VList _ | VDict _ => Raise TypeError
          | _ => Ok (false, "consent:missing_or_invalid")
          end
      | _ => Ok (false, "consent:missing_or_invalid")
      end
  | _ => Raise AttributeError
  end.

(** [draft.context.get("consent", {}).get("scope")] *)
Definition context_scope (ctx : dict) : result value :=
  match dict_get_default "consent" (VDict []) ctx with
  | VDict c => Ok (dict_get_default "scope" VNone c)
  | _ => Raise AttributeError
  end.

(** ** The collaborators' answers

    Modelled from the spec: the classes [Assessment] and [HarmIndex] and
    the methods [assess], [compute_index], [penalties] and [compute_rri]
    are not in the sources; the records follow the interface description
    (assess: coverage, rollback_ready, externals; compute_index: H,
    consent_debt, dignity_debt, reversibility_score; penalties:
    energy_penalty, grace_penalty).  An externality is kept as its
    [asdict] image and its [expected_cost()]. *)
Record Externality : Type := mkExternality {
  ext_dict : value;
  expected_cost : float
}.

Record Assessment : Type := mkAssessment {
  coverage : float;
  rollback_ready : bool;
  externals : list Externality
}.

Record HarmIndex : Type := mkHarmIndex {
  hidx_H : float;
  consent_debt : float;
  dignity_debt : float;
  reversibility_score : float
}.

Record Penalties : Type := mkPenalties {
  energy_penalty : float;
  grace_penalty : float
}.

Definition penalties_dict (p : Penalties) : value :=
  VDict [("energy_penalty", VFloat (energy_penalty p));
         ("grace_penalty", VFloat (grace_penalty p))].

Definition assessment_dict (a : Assessment) : value :=
  VDict [("coverage", VFloat (coverage a));
         ("rollback_ready", VBool (rollback_ready a));
         ("externals", VList (List.map ext_dict (externals a)))].

(** The plan [build] hands to the pricer:
    [{**plan, "id": draft.id, "rollback_recipe": plan.get("rollback_recipe")}]. *)
Definition assessed_plan (draft : AdviceDraft) : dict :=
  dict_set "rollback_recipe" (dict_get_default "rollback_recipe" VNone (plan draft))
    (dict_set "id" (VStr (id draft)) (plan draft)).

Section Build.

Variable float_repr : float -> string.
Variable json_string : string -> string.
Variable blake2b_hex : string -> string.

(** The order in which [CONSTRAINT_ONLY] is walked, the engine's coverage
    threshold, its collaborators, and the interpreter's [sum] over the
    expected costs. *)
Variable constraint_order : list string.
Variable coverage_threshold : float.
Variable assess : dict -> result Assessment.
Variable compute_index : result HarmIndex.
Variable penalties : HarmIndex -> result Penalties.
Variable compute_rri : result float.
Variable float_sum : list float -> float.

Local Abbreviation mk := (_mk_proof float_repr json_string blake2b_hex).

(** [ProofCarryingAdvice.build(draft, answer)]; [now] is what [time.time()]
    returns when the result is assembled. *)
Definition build (now : float) (draft : AdviceDraft) (answer : string)
  : result AdviceWithProof :=
  (* 1) Consent *)
  c ← consent_ok (context draft);
  scope ← context_scope (context draft);
  let p_consent :=
    mk "consent" (fst c) [("msg", VStr (snd c)); ("context_scope", scope)] in
  (* 2) Apophatic *)
  let a := apophatic_ok constraint_order (params draft) in
  let p_apophatic :=
    mk "apophatic" (fst a) [("reasons", VList (List.map VStr (snd a)))] in
  (* 3) Externalities (pricing + rollback) *)
  assess_ ← assess (assessed_plan draft);
  let ext_ok :=
    (fge (coverage assess_) coverage_threshold && rollback_ready assess_)%bool in
  let p_externalities :=
    mk "externalities" ext_ok
       [("coverage", VFloat (coverage assess_));
        ("rollback_ready", VBool (rollback_ready assess_));
        ("externals", VList (List.map ext_dict (externals assess_)))] in
  (* 4) Harms snapshot -> penalties *)
  hidx ← compute_index;
  pen ← penalties hidx;
  let hp := (energy_penalty pen + grace_penalty pen)%float in
  let harms_ok := fle hp 0.75%float in
  let p_harms :=
    mk "harms_ledger" harms_ok
       [("H", VFloat (hidx_H hidx));
        ("consent_debt", VFloat (consent_debt hidx));
        ("dignity_debt", VFloat (dignity_debt hidx));
        ("reversibility", VFloat (reversibility_score hidx));
        ("penalties", penalties_dict pen)] in
  (* 5) Remembrance (RRI) *)
  rri ← compute_rri;
  let rri_ok := fge rri 0.70%float in
  let p_remembrance := mk "remembrance" rri_ok [("RRI", VFloat rri)] in
  (* Summarize risk (lower is better) *)
  let ext_cost :=
    match externals assess_ with
    | [] => 0%float
    | es => float_sum (List.map expected_cost es)
    end in
  let risk := py_min 1%float (0.6 * ext_cost + 0.4 * hp)%float in
  Ok {| awp_id := id draft; answer := answer; risk := risk;
        proofs := [p_consent; p_apophatic; p_externalities; p_harms;
                   p_remembrance];
        assessment :=
          [("externalities", assessment_dict assess_);
           ("harms", VDict [("penalties", penalties_dict pen);
                            ("H", VFloat (hidx_H hidx))])];
        decided_at := now |}.

End Build.

(** ** Worked input *)

(** The details of a consent proof, written in two orders. *)
Definition details_a : dict :=
  [("msg", VStr "consent:validated"); ("context_scope", VStr "org")].
Definition details_b : dict :=
  [("context_scope", VStr "org"); ("msg", VStr "consent:validated")].

(** Stand-ins for the three library functions, to run the model. *)
Definition demo_repr (_ : float) : string := "0.0".
Definition demo_quote (s : string) : string :=
  String (ascii_of_nat 34) (s ++ String (ascii_of_nat 34) "")%string.
Definition demo_digest (s : string) : string := s.

(** Stand-ins for the collaborators, to run [build]: full coverage with a
    rollback and no externalities, no harm, remembrance at 0.9. *)
Definition demo_assess (_ : dict) : result Assessment :=
  Ok {| coverage := 1%float; rollback_ready := true; externals := [] |}.
Definition demo_index : result HarmIndex :=
  Ok {| hidx_H := 0%float; consent_debt := 0%float; dignity_debt := 0%float;
        reversibility_score := 1%float |}.
Definition demo_penalties (_ : HarmIndex) : result Penalties :=
  Ok {| energy_penalty := 0%float; grace_penalty := 0%float |}.
Definition demo_rri : result float := Ok 0.9%float.
Definition demo_sum (l : list float) : float :=
  fold_left (fun acc x => (acc + x)%float) l 0%float.
(** An advice with the five proofs, all ok, at risk 0.2. *)
Definition demo_advice : AdviceWithProof :=
  {| awp_id := "plan:001"; answer := "yes"; risk := 0.2%float;
     proofs := [mkProof "consent" true [] "c"; mkProof "apophatic" true [] "a";
                mkProof "externalities" true [] "e";
                mkProof "harms_ledger" true [] "h";
                mkProof "remembrance" true [] "r"];
     assessment := []; decided_at := 5%float |}.
Definition demo_pca : float -> AdviceDraft -> string -> result AdviceWithProof :=
  build demo_repr demo_quote demo_digest (rev CONSTRAINT_ONLY) 0.95%float
        demo_assess demo_index demo_penalties demo_rri demo_sum.

End ProofCarryingAdvice.

(* ================================================================== *)
(** * apps/contemplator/shadow_twin.py *)
(* ================================================================== *)

Module ShadowTwin.
Import ProofCarryingAdvice.

(** Will inversion map (forward <-> reverse traversal). *)
Definition WILL_INVERT : list (string * string) :=
  [("NEGATION", "POTENTIATION");
   ("POTENTIATION", "NEGATION");
   ("GENERATION", "ANNIHILATION");
   ("EXPANSION", "POSSESSION");
   ("POSSESSION", "EXPANSION");
   ("CONSUMMATION", "ASPIRATION");
   ("ASPIRATION", "CONSUMMATION");
   ("TRANSCENSION", "NEGATION");
   ("ANNIHILATION", "GENERATION")].

(** [WILL_INVERT[w]], [None] when [w not in WILL_INVERT]. *)
Fixpoint lookup_will (table : list (string * string)) (w : string)
  : option string :=
  match table with
  | [] => None
  | (k, v) :: rest => if String.eqb w k then Some v else lookup_will rest w
  end.

Definition invert_will (w : string) : option string :=
  lookup_will WILL_INVERT w.

(** The budget lines [_invert] hardens, and its floor and default recipe. *)
Definition BUDGET_KEYS : list string :=
  ["privacy"; "safety"; "environmental"; "reputation"; "technical_debt";
   "compute"].
Definition FLOOR : float := 0.9%float.
Definition DEFAULT_ROLLBACK : string :=
  "rollback: kill-switch + throttle + data quarantine".

Record TwinResult : Type := mkTwin {
  primary : AdviceWithProof;
  counter : AdviceWithProof;
  selection : string;
  rationale : dict
}.

Section Twin.

(** [float(s)] on a string is the interpreter's parser: [None] where it
    raises [ValueError]. *)
Variable float_of_str : string -> option float.

(** [self.pca.build]: the proof pipeline the twin was constructed with. *)
Variable build : AdviceDraft -> string -> result AdviceWithProof.

(** [float(x)] *)
Definition py_float (x : value) : result float :=
  match x with
  | VFloat f => Ok f
  | VInt z => float_of_int z
  | VBool b => Ok (if b then 1%float else 0%float)
  | VStr s =>
      match float_of_str s with
      | Some f => Ok f
      | None => Raise ValueError
      end
  | VNone | VList _ | VDict _ => Raise TypeError
  end.

(** [x.upper()]: only a string has the method. *)
Definition str_upper (x : value) : result string :=
  match x with
  | VStr s => Ok (upper s)
  | _ => Raise AttributeError
  end.

(** One round of the loop over [BUDGET_KEYS]:
    [lines[k] = max(0.9, float(lines.get(k, 0.0)))]. *)
Definition harden_line (lines : dict) (k : string) : result dict :=
  f ← py_float (dict_get_default k (VFloat 0%float) lines);
  Ok (dict_set k (VFloat (py_max FLOOR f)) lines).

Fixpoint harden_lines (keys : list string) (lines : dict) : result dict :=
  match keys with
  | [] => Ok lines
  | k :: rest => lines' ← harden_line lines k; harden_lines rest lines'
  end.

(** [ShadowTwin._invert(draft)].  [dict(draft.plan or {})] copies the top
    level only: the budget lines written below are the draft's own
    dictionary when it has one; the value returned is the counter-draft. *)
Definition _invert (draft : AdviceDraft) : result AdviceDraft :=
  let plan0 := plan draft in
  let params0 := params draft in
  (* invert will, if specified *)
  let will := dict_get_default "will" VNone params0 in
  w ← str_upper (if truthy will then will else VStr "");
  let params1 :=
    match invert_will w with
    | Some w' => dict_set "will" (VStr w') params0
    | None => params0
    end in
  (* harder externality stance *)
  let plan1 := dict_setdefault "budget_lines" (VDict []) plan0 in
  lines ←
    match dict_get "budget_lines" plan1 with
    | Some (VDict lines) => Ok lines
    | Some _ => Raise AttributeError
    | None => Raise KeyError
    end;
  lines' ← harden_lines BUDGET_KEYS lines;
  let plan2 := dict_set "budget_lines" (VDict lines') plan1 in
  let plan3 := dict_setdefault "rollback_recipe" (VStr DEFAULT_ROLLBACK) plan2 in
  (* consent scope cannot escalate; keep as is *)
  Ok {| id := (id draft ++ ":counter")%string; query := query draft;
        plan := plan3; params := params1; context := context draft |}.

(** [ShadowTwin._counter_answer] *)
Definition _counter_answer (answer : string) : string :=
  ("COUNTER-MOVE: " ++ answer)%string.

(** [{p.name: p.ok for p in awp.proofs}]: a later proof of the same name
    replaces an earlier one. *)
Definition by_name (ps : list Proof) : gmap string bool :=
  fold_left (fun by_ p => <[ name p := ok p ]> by_) ps ∅.

(** [ShadowTwin._hard_ok] *)
Definition _hard_ok (awp : AdviceWithProof) : bool :=
  let by_ := by_name (proofs awp) in
  (default false (by_ !! "consent")
   && default false (by_ !! "apophatic")
   && default false (by_ !! "externalities"))%bool.

(** The arbitration of [contemplate], from the two proof sets. *)
Definition pick (primary_awp counter_awp : AdviceWithProof) : string :=
  let prim_ok := _hard_ok primary_awp in
  let cnt_ok := _hard_ok counter_awp in
  if (prim_ok && negb cnt_ok)%bool then "primary"
  else if (cnt_ok && negb prim_ok)%bool then "counter"
  else if fle (risk primary_awp) (risk counter_awp) then "primary"
  else "counter".

(** [ShadowTwin.contemplate(draft, primary_answer)] *)
Definition contemplate (draft : AdviceDraft) (primary_answer : string)
  : result TwinResult :=
  primary_awp ← build draft primary_answer;
  counter_draft ← _invert draft;
  let counter_answer := _counter_answer primary_answer in
  counter_awp ← build counter_draft counter_answer;
  let rationale :=
    [("hard_ok", VDict [("primary", VBool (_hard_ok primary_awp));
                        ("counter", VBool (_hard_ok counter_awp))]);
     ("risk", VDict [("primary", VFloat (risk primary_awp));
                     ("counter", VFloat (risk counter_awp))]);
     ("note", VStr "selected lower-risk among gates-passing candidates")] in
  Ok {| primary := primary_awp; counter := counter_awp;
        selection := pick primary_awp counter_awp; rationale := rationale |}.

End Twin.

(** The draft of [apps/contemplator/examples.py]. *)
Definition example_draft : AdviceDraft :=
  {| id := "plan:001";
     query := "Should we enable autonomous inbox triage for the org?";
     plan := [("data_kind", VStr "personal");
              ("deployment_scope", VStr "org");
              ("automation_level", VStr "agentic");
              ("environmental", VStr "med");
              ("budget_lines", VDict [("privacy", VFloat 0.9%float);
                                      ("safety", VFloat 0.8%float);
                                      ("technical_debt", VFloat 0.6%float)])];
     params := [("will", VStr "Expansion"); ("no_image", VBool true)];
     context := [("consent", VDict [("valid", VBool true);
                                    ("scope", VStr "org")])] |}.

(** The budget lines a draft declares, none when it has no such entry. *)
Definition declared_lines (d : AdviceDraft) : dict :=
  match dict_get "budget_lines" (plan d) with
  | Some (VDict lines) => lines
  | _ => []
  end.

(** What [_invert] upper-cases: the draft's [will], the empty string when
    it is missing or falsy. *)
Definition will_word (d : AdviceDraft) : value :=
  let will := dict_get_default "will" VNone (params d) in
  if truthy will then will else VStr "".

(** The dictionary [_invert] hardens: the plan's budget lines, a fresh empty
    one when the plan has no such entry; updating anything else fails. *)
Definition lines_of (d : AdviceDraft) : result dict :=
  match dict_get "budget_lines" (plan d) with
  | None => Ok []
  | Some (VDict lines) => Ok lines
  | Some _ => Raise AttributeError
  end.

(** A [will] that has [upper()] whenever it is truthy, and budget lines that
    are a dictionary with float-convertible values under the hardened
    names. *)
Definition will_is_text (d : AdviceDraft) : Prop :=
  forall v, dict_get "will" (params d) = Some v -> truthy v = true ->
            exists s, v = VStr s.

Definition lines_are_numeric (float_of_str : string -> option float)
    (d : AdviceDraft) : Prop :=
  forall v, dict_get "budget_lines" (plan d) = Some v ->
    exists lines, v = VDict lines
      /\ forall k x, In k BUDGET_KEYS -> dict_get k lines = Some x ->
                     exists f, py_float float_of_str x = Ok f.

(** A draft with a budget line outside [BUDGET_KEYS]. *)
Definition unlisted_line_draft : AdviceDraft :=
  {| id := "plan:002"; query := "q";
     plan := [("budget_lines", VDict [("legal", VFloat 0.1%float)])];
     params := []; context := [] |}.

(** A pipeline for the example: the primary draft misses the externalities
    gate at low risk, the hardened counter-draft passes it at high risk. *)
Definition demo_proofs (covered : bool) : list Proof :=
  [mkProof "consent" true [] "c"; mkProof "apophatic" true [] "a";
   mkProof "externalities" covered [] "e"].

Definition demo_build (d : AdviceDraft) (ans : string) : result AdviceWithProof :=
  let hardened := String.eqb (id d) "plan:001:counter" in
  Ok {| awp_id := id d; answer := ans;
        risk := if hardened then 0.9%float else 0.1%float;
        proofs := demo_proofs hardened; assessment := [];
        decided_at := 0%float |}.

End ShadowTwin.

(* ================================================================== *)
(** * core/planner/decision_core.py *)
(* ================================================================== *)

Module DecisionCore.

Inductive Decision : Type := Answer | Refuse | Stand.
(** FDE: True, False, Both, Neither. *)
Inductive TruthVal : Type := T | F | B | N.

Definition decision_str (d : Decision) : string :=
  match d with Answer => "Answer" | Refuse => "Refuse" | Stand => "Stand" end.
Definition truth_str (t : TruthVal) : string :=
  match t with T => "T" | F => "F" | B => "B" | N => "N" end.

Record ConsentTicket : Type := mkTicket {
  holder : string;
  scope : string;
  ttl_seconds : Z;
  issued_at : float;
  terms : dict
}.

(** [ConsentTicket.is_valid()]; [now] is what [time.time()] returns. *)
Definition is_valid (now : float) (t : ConsentTicket) : result bool :=
  ttl ← float_of_int (ttl_seconds t);
  Ok (fle now (issued_at t + ttl)%float).

(** [t.__dict__] *)
Definition ticket_dict (t : ConsentTicket) : value :=
  VDict [("holder", VStr (holder t)); ("scope", VStr (scope t));
         ("ttl_seconds", VInt (ttl_seconds t));
         ("issued_at", VFloat (issued_at t)); ("terms", VDict (terms t))].

Record ProofBundle : Type := mkBundle {
  logic : dict;
  ethics : dict;
  consent : dict;
  phenomenology : dict;
  repair_horizon : option float
}.

Record Action : Type := mkAction {
  id : string;
  description : string;
  params : dict;
  reversible : bool;
  predicted_truth : TruthVal;
  proto_proofs : option ProofBundle
}.

Record State : Type := mkState {
  context : dict;
  stage : string;
  will_operator : string;
  consent_tickets : list ConsentTicket;
  paradox_nearby : bool
}.

Record DecisionResult : Type := mkResult {
  decision : Decision;
  chosen_action : option Action;
  delta_E : option float;
  grace : option float;
  truth : option TruthVal;
  proofs : ProofBundle;
  ledger_id : option string
}.

(** A candidate with its effective cost [EK], raw cost [E] and grace [G]. *)
Definition scored : Type := Action * float * float * float.
Definition s_action (t : scored) : Action := fst (fst (fst t)).
Definition s_EK (t : scored) : float := snd (fst (fst t)).
Definition s_E (t : scored) : float := snd (fst t).
Definition s_G (t : scored) : float := snd t.

(** The running best of the selection loop:
    [best, best_EK, best_E, best_G]. *)
Definition best_state : Type := option Action * float * float * float.
Definition b_action (b : best_state) : option Action := fst (fst (fst b)).
Definition b_EK (b : best_state) : float := snd (fst (fst b)).
Definition b_E (b : best_state) : float := snd (fst b).
Definition b_G (b : best_state) : float := snd b.

Definition init_best : best_state :=
  (None, infinity, infinity, neg_infinity).

(** The test of the selection loop:
    [EK < best_EK or (EK == best_EK and
       (G > best_G or (G == best_G and E < best_E)))]. *)
Definition improves (t : scored) (b : best_state) : bool :=
  (flt (s_EK t) (b_EK b)
   || (feq (s_EK t) (b_EK b)
       && (fgt (s_G t) (b_G b)
           || (feq (s_G t) (b_G b) && flt (s_E t) (b_E b)))))%bool.

Definition select_step (b : best_state) (t : scored) : best_state :=
  if improves t b then (Some (s_action t), s_EK t, s_E t, s_G t) else b.

(** [for a, EK, E, G in scored: ...] *)
Definition select_best (l : list scored) : best_state :=
  fold_left select_step l init_best.

(** The sort key [(-G, E)] and the order of two such tuples: the first
    components that differ decide. *)
Definition sort_key (t : scored) : float * float := (- s_G t, s_E t)%float.

Definition key_lt (k1 k2 : float * float) : bool :=
  if feq (fst k1) (fst k2) then
    if feq (snd k1) (snd k2) then false else flt (snd k1) (snd k2)
  else flt (fst k1) (fst k2).

(** [viable.sort(key=...)]: the sort is stable; on keys that [<] orders
    consistently every stable sort returns the list of this insertion
    sort. *)
Fixpoint insert_scored (x : scored) (l : list scored) : list scored :=
  match l with
  | [] => [x]
  | y :: rest =>
      if key_lt (sort_key y) (sort_key x) then y :: insert_scored x rest
      else x :: y :: rest
  end.

Fixpoint sort_scored (l : list scored) : list scored :=
  match l with
  | [] => []
  | x :: rest => insert_scored x (sort_scored rest)
  end.

(** [improves] compares the triples (effective cost, grace, raw cost). *)
Definition lex_lt (x y : float * float * float) : bool :=
  let '(xEK, xG, xE) := x in
  let '(yEK, yG, yE) := y in
  (flt xEK yEK
   || (feq xEK yEK && (fgt xG yG || (feq xG yG && flt xE yE))))%bool.

Definition key_of (t : scored) : float * float * float := (s_EK t, s_G t, s_E t).
Definition key_of_best (b : best_state) : float * float * float :=
  (b_EK b, b_G b, b_E b).
Definition best_of (t : scored) : best_state :=
  (Some (s_action t), s_EK t, s_E t, s_G t).

(** The order of the retry's sort: more grace, or as much grace and a
    lower raw cost; and an entry whose two sort fields are numbers. *)
Definition outranks (t1 t2 : scored) : bool :=
  (fgt (s_G t1) (s_G t2)
   || (feq (s_G t1) (s_G t2) && flt (s_E t1) (s_E t2)))%bool.

Definition numeric (t : scored) : Prop :=
  feq (s_G t) (s_G t) = true /\ feq (s_E t) (s_E t) = true.

Definition no_move : option Action * option float * option float :=
  (None, None, None).

Section Rails.

(** Thresholds and policy read from [docs/vows.yaml] when the module is
    loaded. *)
Variable _MIN_DELTA_E : float.
Variable _MIN_GRACE : float.
Variable repair_max_days : float.
Variable ledger_required : bool.

(** The external module seams. *)
Variable energy_E : State -> Action -> result float.
Variable grace_G : State -> Action -> result float.
Variable kernel_weight : State -> Action -> result float.
Variable price_externalities : State -> Action -> result dict.
Variable antimemory_countercontext : State -> Action -> result dict.
Variable attach_pca : string -> ProofBundle -> result string.

(** [all(t.is_valid() for t in tickets)]: the generator stops at the first
    ticket that is not valid. *)
Fixpoint all_valid (now : float) (tickets : list ConsentTicket) : result bool :=
  match tickets with
  | [] => Ok true
  | t :: rest =>
      v ← is_valid now t;
      if (v : bool) then all_valid now rest else Ok false
  end.

(** [check_consent(state, action)].  Every reading of the clock within one
    call is [now]. *)
Definition check_consent (now : float) (state : State) (action : option Action)
  : result (bool * dict) :=
  valid ← all_valid now (consent_tickets state);
  Ok (valid, [("tickets", VList (List.map ticket_dict (consent_tickets state)))]).

(** [check_apophatic(state, action)]: [action.params] is read from the
    argument, which [decide] passes as [None]. *)
Definition check_apophatic (state : State) (action : option Action)
  : result (bool * dict) :=
  match action with
  | None => Raise AttributeError
  | Some a =>
      let ok := ApophaticGuard.admissible (context state) (params a) in
      Ok (ok, [("apophatic_ok", VBool ok)])
  end.

(** Precompute EK, E, G for all candidates. *)
Fixpoint score_all (state : State) (candidates : list Action)
  : result (list scored) :=
  match candidates with
  | [] => Ok []
  | a :: rest =>
      E ← energy_E state a;
      K ← kernel_weight state a;
      let EK := (E * K)%float in
      G ← grace_G state a;
      tail ← score_all state rest;
      Ok ((a, EK, E, G) :: tail)
  end.

(** A scored entry is its candidate with the three seams' answers, the
    effective cost being raw cost times kernel weight. *)
Definition scores_of (state : State) (a : Action) (t : scored) : Prop :=
  s_action t = a
  /\ energy_E state a = Ok (s_E t)
  /\ grace_G state a = Ok (s_G t)
  /\ exists K, kernel_weight state a = Ok K /\ s_EK t = (s_E t * K)%float.

(** The threshold part of [minimal_clean_move], from the scored candidates
    and the loop's best. *)
Definition enforce_thresholds (scored_ : list scored) (b : best_state)
  : option Action * option float * option float :=
  match b_action b with
  | None => no_move
  | Some best =>
      let delta_E := b_E b in
      if fge delta_E _MIN_DELTA_E then no_move
      else if flt (b_G b) _MIN_GRACE then
        (* try to select next-best with higher G among viable candidates *)
        let viable := List.filter (fun t => flt (s_E t) _MIN_DELTA_E) scored_ in
        match sort_scored viable with
        | t2 :: _ =>
            if fge (s_G t2) _MIN_GRACE
            then (Some (s_action t2), Some (s_E t2), Some (s_G t2))
            else no_move
        | [] => no_move
        end
      else (Some best, Some delta_E, Some (b_G b))
  end.

(** [minimal_clean_move(state, candidates)] *)
Definition minimal_clean_move (state : State) (candidates : list Action)
  : result (option Action * option float * option float) :=
  scored_ ← score_all state candidates;
  Ok (enforce_thresholds scored_ (select_best scored_)).

(** [pgl_decide(state, action, proofs, truth)] *)
Definition pgl_decide (state : State) (action : option Action)
    (proofs : ProofBundle) (truth : TruthVal) : Decision :=
  match action with
  | None =>
      let consent_ok := dict_get_default "ok" (VBool true) (consent proofs) in
      let apoph_ok := dict_get_default "apophatic_ok" (VBool true) (logic proofs) in
      if (negb (truthy consent_ok) || negb (truthy apoph_ok))%bool
      then Refuse else Stand
  | Some _ =>
      match truth with
      | T | B => if negb (paradox_nearby state) then Answer else Answer
      | N => Stand
      | F => Refuse
      end
  end.

Definition noop : Action :=
  {| id := "noop"; description := "noop"; params := []; reversible := true;
     predicted_truth := T; proto_proofs := None |}.

(** [decide] after the two rails have returned; [now] is also the clock
    reading of step 6. *)
Definition decide_from_rails (now : float) (state : State)
    (candidates : list Action) (consent_ok : bool) (consent_info : dict)
    (apoph_ok : bool) (apoph_info : dict) : result DecisionResult :=
  if (negb consent_ok || negb apoph_ok)%bool then
    let proofs :=
      {| logic := [("apophatic_ok", VBool apoph_ok)];
         ethics := [];
         consent := dict_merge [("ok", VBool consent_ok)] consent_info;
         phenomenology := [];
         repair_horizon := None |} in
    Ok {| decision := Refuse; chosen_action := None; delta_E := None;
          grace := None; truth := None; proofs := proofs; ledger_id := None |}
  else
    (* 2) externality pricing *)
    ethics_info ←
      (if (String.eqb (will_operator state) "EXP"
           || String.eqb (stage state) "S11")%bool
       then price_externalities state (hd noop candidates)
       else Ok []);
    (* 3) anti-memory quorum; [except Exception: pass] *)
    let shadow_info :=
      match candidates with
      | [] => []
      | c :: _ =>
          match antimemory_countercontext state c with
          | Ok info => info
          | Raise _ => []
          end
      end in
    (* 4) minimal clean move *)
    move ← minimal_clean_move state candidates;
    let '(action, dE, G) := move in
    (* 5) truth estimation *)
    let truth := match action with Some a => predicted_truth a | None => N end in
    (* 6) repair horizon for paradox *)
    let horizon :=
      if paradox_nearby state
      then Some (now + repair_max_days * 86400)%float else None in
    (* 7) PGL decision *)
    let proofs :=
      {| logic := dict_merge [("truth", VStr (truth_str truth))] apoph_info;
         ethics := ethics_info;
         consent := dict_merge [("ok", VBool consent_ok)] consent_info;
         phenomenology := shadow_info;
         repair_horizon := horizon |} in
    let decision := pgl_decide state action proofs truth in
    (* 8) PCA attach and ledger *)
    let answer_text :=
      match decision, action with
      | Answer, Some a => description a
      | _, _ => decision_str decision
      end in
    ledger ←
      (if ledger_required
       then lid ← attach_pca answer_text proofs; Ok (Some lid)
       else Ok None);
    Ok {| decision := decision; chosen_action := action; delta_E := dE;
          grace := G; truth := Some truth; proofs := proofs;
          ledger_id := ledger |}.

(** [decide(state, candidates)]: both rails are evaluated, each with
    [None] for the action, before their results are tested. *)
Definition decide (now : float) (state : State) (candidates : list Action)
  : result DecisionResult :=
  consent_rail ← check_consent now state None;
  apoph_rail ← check_apophatic state None;
  decide_from_rails now state candidates (fst consent_rail) (snd consent_rail)
                    (fst apoph_rail) (snd apoph_rail).

End Rails.

(** ** Worked inputs *)

(** A ticket issued at time 1000 for an hour; at 2000 it is valid, at 9000
    it is not. *)
Definition hour_ticket : ConsentTicket :=
  {| holder := "user"; scope := "org"; ttl_seconds := 3600;
     issued_at := 1000%float; terms := [] |}.

Definition ticket_state : State :=
  {| context := [("topic", VStr "scaling_feature_X")]; stage := "S5";
     will_operator := "EXP"; consent_tickets := [hour_ticket];
     paradox_nearby := false |}.

(** Seams that read a candidate's scores off its parameters. *)
Definition param_float (k : string) (a : Action) : result float :=
  match dict_get k (params a) with
  | Some (VFloat f) => Ok f
  | _ => Raise KeyError
  end.
Definition demo_energy (_ : State) (a : Action) := param_float "E" a.
Definition demo_kernel (_ : State) (a : Action) := param_float "K" a.
Definition demo_grace (_ : State) (a : Action) := param_float "G" a.

Definition candidate (name : string) (E K G : float) : Action :=
  {| id := name; description := name;
     params := [("E", VFloat E); ("K", VFloat K); ("G", VFloat G)];
     reversible := true; predicted_truth := T; proto_proofs := None |}.

Definition demo_solver : State -> list Action ->
    result (option Action * option float * option float) :=
  minimal_clean_move (-0.05)%float 0.5%float demo_energy demo_grace demo_kernel.

(** Two candidates of equal effective cost: the one of higher grace. *)
Definition plain : Action := candidate "plain" (-1) 1 0.6.
Definition graceful : Action := candidate "graceful" (-1) 1 0.8.
(** A candidate of lower effective cost whose grace misses the floor. *)
Definition cheap : Action := candidate "cheap" (-1) 2 0.1.
(** A candidate that is no net improvement. *)
Definition idle : Action := candidate "idle" 0 1 0.9.

End DecisionCore.

(* ================================================================== *)
(** * core/metrics/energy.py *)
(* ================================================================== *)

Module Energy.
Import ProofCarryingAdvice.

Record EnergySnapshot : Type := mkEnergy {
  E : float;
  components : dict;
  notes : string
}.

(** [Energy._proof_ok(awp, name)]: the first proof of that name decides. *)
Fixpoint first_ok (ps : list Proof) (n : string) : bool :=
  match ps with
  | [] => false
  | p :: rest => if String.eqb (name p) n then ok p else first_ok rest n
  end.

Definition _proof_ok (awp : AdviceWithProof) (n : string) : bool :=
  first_ok (proofs awp) n.

Section FromProofs.

(** [round(x, 4)], and the ledger's two methods. *)
Variable round4 : float -> float.
Variable compute_index : result HarmIndex.
Variable penalties : HarmIndex -> result Penalties.

Definition flag (b : bool) : float := if b then 1%float else 0%float.

(** [Energy.from_proofs(awp, hidx)] *)
Definition from_proofs (awp : AdviceWithProof) (hidx : option HarmIndex)
  : result EnergySnapshot :=
  let consent_ok := _proof_ok awp "consent" in
  let apoph_ok := _proof_ok awp "apophatic" in
  let ext_ok := _proof_ok awp "externalities" in
  (* Harms penalties *)
  hidx ← match hidx with Some h => Ok h | None => compute_index end;
  pen ← penalties hidx;
  let harm_penalty := energy_penalty pen in
  (* Base: start clean, subtract penalties and failed rails *)
  let rail0 := 0%float in
  let rail1 := if consent_ok then rail0 else (rail0 + 0.35)%float in
  let rail2 := if apoph_ok then rail1 else (rail1 + 0.25)%float in
  let rail_penalty := if ext_ok then rail2 else (rail2 + 0.20)%float in
  let E :=
    (1 - py_min 1 (harm_penalty + rail_penalty + 0.15 * risk awp))%float in
  let comps :=
    [("rail_penalty", VFloat (round4 rail_penalty));
     ("harm_penalty", VFloat (round4 harm_penalty));
     ("risk_blend", VFloat (round4 (0.15 * risk awp)%float));
     ("consent_ok", VFloat (flag consent_ok));
     ("apoph_ok", VFloat (flag apoph_ok));
     ("externalities_ok", VFloat (flag ext_ok));
     ("H", VFloat (round4 (hidx_H hidx)));
     ("consent_debt", VFloat (round4 (consent_debt hidx)))] in
  Ok {| E := py_max 0 (py_min 1 E); components := comps;
        notes := "Energy derived from PCA proofs + harms penalties." |}.

End FromProofs.

End Energy.

(* ================================================================== *)
(** * core/metrics/grace.py *)
(* ================================================================== *)

Module Grace.
Import ProofCarryingAdvice.

Record GraceSnapshot : Type := mkGrace {
  G : float;
  components : dict;
  notes : string
}.

(** [p.name in ("consent", "apophatic", "externalities")] *)
Definition is_rail (p : Proof) : bool :=
  existsb (String.eqb (name p)) ["consent"; "apophatic"; "externalities"].

(** [all(p.ok for p in awp.proofs if p.name in (...))] *)
Definition rails_ok (awp : AdviceWithProof) : bool :=
  forallb ok (List.filter is_rail (proofs awp)).

Section FromAssessment.

Variable round4 : float -> float.
Variable compute_index : result HarmIndex.
Variable penalties : HarmIndex -> result Penalties.
Variable coverage_target : float.

(** [Grace.from_assessment(awp, assess, hidx)] *)
Definition from_assessment (awp : AdviceWithProof) (assess : Assessment)
    (hidx : option HarmIndex) : result GraceSnapshot :=
  hidx ← match hidx with Some h => Ok h | None => compute_index end;
  pen ← penalties hidx;
  let dignity_pen := grace_penalty pen in
  (* Externality coverage smoothness *)
  let cov := if truthy (VFloat (coverage assess)) then coverage assess else 0%float in
  let cov_term :=
    if fgt coverage_target 0.5%float
    then py_min 1 (py_max 0 ((cov - 0.5) / (coverage_target - 0.5))%float)
    else cov in
  let rb_bonus := if rollback_ready assess then 0.1%float else (-0.15)%float in
  (* Aesthetic coherence proxy *)
  let coherence :=
    py_max 0 (py_min 1 (1 - risk awp
                        + (if rails_ok awp then 0.1 else -0.1))%float) in
  let G :=
    py_max 0 (py_min 1 (0.55 * cov_term + 0.25 * coherence + rb_bonus
                        - 0.25 * dignity_pen)%float) in
  let comps :=
    [("coverage_term", VFloat (round4 cov_term));
     ("rollback_bonus", VFloat (round4 rb_bonus));
     ("coherence", VFloat (round4 coherence));
     ("dignity_penalty", VFloat (round4 dignity_pen));
     ("H", VFloat (round4 (hidx_H hidx)));
     ("dignity_debt", VFloat (round4 (dignity_debt hidx)))] in
  Ok {| G := G; components := comps;
        notes := "Grace from coverage/coherence/rollback minus dignity pressure." |}.

End FromAssessment.

End Grace.

(* ================================================================== *)
(** * core/metrics/trackers.py *)
(* ================================================================== *)

Module Trackers.
Import ProofCarryingAdvice.

(** [KenosisSnapshot] of [core/metrics/kenosis.py]. *)
Record KenosisSnapshot : Type := mkKenosis {
  K : float;
  components : dict;
  notes : string
}.

(** [Trackers._stand(E, G, RRI, awp)] *)
Definition _stand (E : Energy.EnergySnapshot) (G : Grace.GraceSnapshot)
    (RRI : float) (awp : AdviceWithProof) : bool :=
  let by_ := ShadowTwin.by_name (proofs awp) in
  let hard_fail :=
    negb (default false (by_ !! "consent")
          && default false (by_ !! "apophatic")
          && default false (by_ !! "externalities")) in
  let low_E := flt (Energy.E E) 0.55%float in
  let low_G := flt (Grace.G G) 0.55%float in
  let low_RRI := flt RRI 0.70%float in
  (hard_fail || (low_E && low_G) || low_RRI)%bool.

(** [Trackers._throne_fiber(E, G, K, RRI, awp)] *)
Definition _throne_fiber (E : Energy.EnergySnapshot) (G : Grace.GraceSnapshot)
    (K : KenosisSnapshot) (RRI : float) (awp : AdviceWithProof) : bool :=
  let rails_ok := Grace.rails_ok awp in
  (rails_ok && fge (Energy.E E) 0.70%float && fge (Grace.G G) 0.70%float
   && fge (Trackers.K K) 0.70%float && fge RRI 0.70%float)%bool.

End Trackers.

(* ================================================================== *)
(** * core/will/kernels.py *)
(* ================================================================== *)

Module Kernels.
Import DecisionCore.

(** What [weight_for] is handed as [action_obj]: an [Action] of the
    planner, a dictionary, or something else. *)
Inductive action_obj : Type :=
| ObjAction (a : Action)
| ObjDict (d : dict)
| ObjOther.

Section Kernel.

(** The clamp bounds read from [will_engine.yaml] when the module is
    loaded, and that file's [operators] table; [float(s)] on a string. *)
Variable _K_MIN : float.
Variable _K_MAX : float.
Variable operators : dict.
Variable float_of_str : string -> option float.

Definition _clamp (x : float) : float := py_max _K_MIN (py_min _K_MAX x).

(** [float(action.get(k, default))] and [action.get(k, False)] as a
    condition. *)
Definition get_float (k : string) (default : float) (action : dict)
  : result float :=
  ShadowTwin.py_float float_of_str (dict_get_default k (VFloat default) action).

Definition get_flag (k : string) (default : bool) (action : dict) : bool :=
  truthy (dict_get_default k (VBool default) action).

Definition _reversibility_bonus (action : dict) : float :=
  if get_flag "reversible" true action then 0.90%float else 1.05%float.

Definition _externality_penalty (action : dict) : result float :=
  if get_flag "externality_priced" false action then
    cov ← get_float "coverage" 1 action;
    Ok (1 - 0.25 * py_min 1 cov)%float
  else Ok 1.20%float.

Definition _scale_penalty (action : dict) : result float :=
  s ← get_float "scale" 1 action;
  if fle s 1 then Ok 1%float
  else Ok (py_min (1 + 0.10 * (s - 1))%float 1.50%float).

Definition _repair_bonus (action : dict) : float :=
  if get_flag "repair_plan" false action then 0.90%float else 1%float.

Definition _aesthetic_bonus (action : dict) : result float :=
  aest ← get_float "aesthetic_coherence" 0 action;
  Ok (1 - 0.10 * py_max 0 (py_min 1 aest))%float.

(** NEG *)
Definition inverted_tetrahedron (state : State) (action : dict) : result float :=
  let coercion := if get_flag "coercion_risk" false action then 1%float else 0%float in
  humiliation ← get_float "humiliation_risk" 0 action;
  let base := (1.10 + 0.40 * coercion + 0.30 * humiliation)%float in
  let base := (base * _repair_bonus action)%float in
  Ok (_clamp base).

(** [x * 0.5] on whatever the action holds under [scale]. *)
Definition halved (x : value) : result float :=
  match x with
  | VFloat f => Ok (f * 0.5)%float
  | VInt z => f ← float_of_int z; Ok (f * 0.5)%float
  | VBool b => Ok ((if b then 1 else 0) * 0.5)%float
  | VNone | VStr _ | VList _ | VDict _ => Raise TypeError
  end.

(** POT *)
Definition spiral_sphere (state : State) (action : dict) : result float :=
  let base := 1%float in
  let base := (base * _reversibility_bonus action)%float in
  softer ← halved (dict_get_default "scale" (VFloat 1) action);
  penalty ← _scale_penalty [("scale", VFloat softer)];
  let base := (base * penalty)%float in
  Ok (_clamp base).

(** GEN *)
Definition dual_torus (state : State) (action : dict) : result float :=
  let loops := if get_flag "feedback_loops" false action then 1%float else 0%float in
  cadence ← get_float "cadence_fit" 0.5 action;
  let base := (1.05 - 0.15 * loops - 0.10 * cadence)%float in
  Ok (_clamp base).

(** EXP *)
Definition golden_gnomon (state : State) (action : dict) : result float :=
  let base := 1%float in
  scale ← _scale_penalty action;
  let base := (base * scale)%float in
  ext ← _externality_penalty action;
  let base := (base * ext)%float in
  let base :=
    if get_flag "rollback_recipe" false action then base
    else (base * 1.20)%float in
  Ok (_clamp base).

(** POS *)
Definition nested_dodecahedron (state : State) (action : dict) : result float :=
  clutch ← get_float "clutching_index" 0 action;
  custody ← get_float "custody_clarity" 0.5 action;
  let base := (1.05 + 0.30 * clutch - 0.20 * custody)%float in
  Ok (_clamp base).

(** CON *)
Definition mobius_intersect (state : State) (action : dict) : result float :=
  direction ← get_float "direction_coherence" 0.5 action;
  diffusion ← get_float "diffusion_risk" 0 action;
  let base := (1.05 + 0.25 * diffusion - 0.20 * direction)%float in
  Ok (_clamp base).

(** ASP *)
Definition spiral_pyramid (state : State) (action : dict) : result float :=
  aest ← get_float "aesthetic_coherence" 0 action;
  let priced := get_flag "aesthetic_priced" false action in
  let base := (1.05 - 0.15 * aest)%float in
  let base := if priced then base else (base * 1.15)%float in
  Ok (_clamp base).

(** TRN *)
Definition vanishing_ellipse (state : State) (action : dict) : result float :=
  let apophatic_near := get_flag "apophatic_nearby" (paradox_nearby state) action in
  let base := if apophatic_near then 1.10%float else 1%float in
  let base := (base * _reversibility_bonus action)%float in
  bonus ← _aesthetic_bonus action;
  let base := (base * bonus)%float in
  Ok (_clamp base).

(** ANN *)
Definition folded_voidstar (state : State) (action : dict) : result float :=
  let repair := get_flag "repair_plan" false action in
  theater ← get_float "identity_theater" 0 action;
  kenosis ← get_float "kenosis_signal" 0 action;
  let base := (1.10 + 0.30 * theater - 0.20 * kenosis)%float in
  let base := if repair then (base * 0.90)%float else base in
  Ok (_clamp base).

(** Dispatcher *)
Definition _FUNCS : list (string * (State -> dict -> result float)) :=
  [("inverted_tetrahedron", inverted_tetrahedron);
   ("spiral_sphere", spiral_sphere);
   ("dual_torus", dual_torus);
   ("golden_gnomon", golden_gnomon);
   ("nested_dodecahedron", nested_dodecahedron);
   ("mobius_intersect", mobius_intersect);
   ("spiral_pyramid", spiral_pyramid);
   ("vanishing_ellipse", vanishing_ellipse);
   ("folded_voidstar", folded_voidstar)].

Fixpoint lookup_kernel (table : list (string * (State -> dict -> result float)))
    (k : string) : option (State -> dict -> result float) :=
  match table with
  | [] => None
  | (k', fn) :: rest => if String.eqb k k' then Some fn else lookup_kernel rest k
  end.

(** [_WILL["operators"][will_operator]["kernel"]], then [_FUNCS[...]]: a
    missing key raises KeyError, an operator entry that cannot be indexed
    by a string and a kernel name that cannot be hashed raise TypeError. *)
Definition kernel_of (will_operator : string)
  : result (State -> dict -> result float) :=
  match dict_get will_operator operators with
  | None => Raise KeyError
  | Some (VDict op) =>
      match dict_get "kernel" op with
      | None => Raise KeyError
      | Some (VStr kernel_name) =>
          match lookup_kernel _FUNCS kernel_name with
          | Some fn => Ok fn
          | None => Raise KeyError
          end
      | Some (VList _) | Some (VDict _) => Raise TypeError
      | Some _ => Raise KeyError
      end
  | Some _ => Raise TypeError
  end.

(** [Action.predicted_truth] as the string the dataclass holds. *)
Definition stitched (a : Action) : dict :=
  dict_setdefault "predicted_truth" (VStr (truth_str (predicted_truth a)))
    (dict_set "reversible" (VBool (reversible a)) (params a)).

(** [weight_for(will_operator, state, action_obj)] *)
Definition weight_for (will_operator : string) (state : State)
    (obj : action_obj) : result float :=
  fn ← kernel_of will_operator;
  (* Extract action params (Action.dataclass-compatible) *)
  let params :=
    match obj with
    | ObjAction a => stitched a
    | ObjDict d => d
    | ObjOther => []
    end in
  k ← fn state params;
  Ok (_clamp k).

End Kernel.

(** What [weight_for] passes to the kernel. *)
Definition params_of (obj : action_obj) : dict :=
  match obj with
  | ObjAction a => stitched a
  | ObjDict d => d
  | ObjOther => []
  end.

(** An operator table as [will_engine.yaml] shapes it, with two of its
    operators. *)
Definition demo_operators : dict :=
  [("NEG", VDict [("kernel", VStr "inverted_tetrahedron")]);
   ("EXP", VDict [("kernel", VStr "golden_gnomon")])].

End Kernels.

(* ================================================================== *)
(** * core/metrics/candidate_scorer.py *)
(* ================================================================== *)

Module CandidateScorer.
Import ProofCarryingAdvice.

(** [_consent_check(state, action)], from [state.context]. *)
Definition _consent_check (context : dict) : result bool :=
  match dict_get_default "consent" (VDict []) context with
  | VDict c =>
      match dict_get "valid" c with
      | Some (VBool true) =>
          match dict_get_default "scope" VNone c with
          | VStr s => Ok (existsb (String.eqb s) CONSENT_SCOPES)
          | VList _ | VDict _ => Raise TypeError
          | _ => Ok false
          end
      | _ => Ok false
      end
  | _ => Raise AttributeError
  end.

(** [_apophatic_check(state, action)], from [action.params]: the first
    offending key ends the check.  The function's two key sets hold the
    keys of [proof_carrying_advice]; the constrained ones are walked in the
    order given. *)
Definition _apophatic_check (constraint_order : list string) (params : dict)
  : bool :=
  if existsb forbidden (List.map fst params) then false
  else if existsb (unaffirmed params) constraint_order then false
  else true.

End CandidateScorer.

(* ================================================================== *)
(** * core/proofs/pca_store.py *)
(* ================================================================== *)

Module PcaStore.
Import ProofCarryingAdvice.

Section Store.

(** The engine behind [get_pca()], by its collaborators (as in [build]);
    its [commit]; and the text of [int(time.time() * 1000)]. *)
Variable float_repr : float -> string.
Variable json_string : string -> string.
Variable blake2b_hex : string -> string.
Variable constraint_order : list string.
Variable coverage_threshold : float.
Variable assess : dict -> result Assessment.
Variable compute_index : result HarmIndex.
Variable penalties : HarmIndex -> result Penalties.
Variable compute_rri : result float.
Variable float_sum : list float -> float.
Variable commit : AdviceWithProof -> result Z.
Variable millis : float -> string.

Local Abbreviation build :=
  (build float_repr json_string blake2b_hex constraint_order coverage_threshold
         assess compute_index penalties compute_rri float_sum).

(** The draft [store] makes of a proof bundle whose [ethics] gives the
    dictionary [plan] (an empty one when it gives none).  The context holds
    the consent proof and nothing else, so the query is the default one. *)
Definition draft_of (now : float) (proofs : DecisionCore.ProofBundle)
    (plan : dict) : AdviceDraft :=
  let context := [("consent", VDict (DecisionCore.consent proofs))] in
  let params :=
    [("apophatic_check",
      dict_get_default "apophatic_ok" (VBool true) (DecisionCore.logic proofs));
     ("externality_priced",
      dict_get_default "externality_priced" (VBool false)
        (DecisionCore.ethics proofs));
     ("coverage",
      dict_get_default "coverage" (VFloat 0) (DecisionCore.ethics proofs));
     ("shadow_signals",
      dict_get_default "signals" (VDict [])
        (DecisionCore.phenomenology proofs))] in
  {| id := ("decision:" ++ millis now)%string;
     query := "Decision query";
     plan := plan; params := params; context := context |}.

(** [store(answer, proofs)] on a [ProofBundle]; [now] is the clock when the
    identifier is made and [later] when [build] stamps its result.  A plan
    that is not a dictionary makes [build] fail at its third step, after
    the consent check: a truthy one cannot be unpacked, a falsy one has no
    [get]. *)
Definition store (now later : float) (answer : string)
    (proofs : DecisionCore.ProofBundle) : result string :=
  match dict_get_default "plan" (VDict []) (DecisionCore.ethics proofs) with
  | VDict plan =>
      advice_with_proof ← build later (draft_of now proofs plan) answer;
      ledger_id ← commit advice_with_proof;
      Ok (json_int ledger_id)
  | other =>
      let context := [("consent", VDict (DecisionCore.consent proofs))] in
      _ ← consent_ok context;
      _ ← context_scope context;
      Raise (if truthy other then TypeError else AttributeError)
  end.

End Store.

End PcaStore.

(* ================================================================== *)
(** * Facts about the Python fragment *)
(* ================================================================== *)

Module PyFacts.

(** ** The order of binary64 floats

    The comparison operators are specified through [SFcompare]; its
    clauses are lexicographic in sign, exponent and mantissa, so the facts
    below hold for every float, NaN and the infinities included. *)

Ltac cmp_cases :=
  repeat match goal with
  | |- context [Z.compare ?a ?b] => destruct (Z.compare_spec a b); subst
  | |- context [Pos.compare ?a ?b] => destruct (Pos.compare_spec a b); subst
  | H : context [Z.compare ?a ?b] |- _ => destruct (Z.compare_spec a b); subst
  | H : context [Pos.compare ?a ?b] |- _ => destruct (Pos.compare_spec a b); subst
  end.

Ltac sf_order :=
  repeat match goal with x : spec_float |- _ => destruct x end;
  repeat match goal with s : bool |- _ => destruct s end;
  cbn [SFcompare CompOpp];
  change (PosDef.Pos.compare_cont Eq) with Pos.compare;
  try discriminate; try reflexivity; try congruence;
  intros; cmp_cases; cbn [CompOpp] in *;
  try discriminate; try reflexivity; try congruence; try lia.

Lemma SFcompare_lt_trans x y z :
  SFcompare x y = Some Lt -> SFcompare y z = Some Lt -> SFcompare x z = Some Lt.
Proof. sf_order. Qed.

Lemma SFcompare_eq_l x y z c :
  SFcompare x y = Some Eq -> SFcompare y z = Some c -> SFcompare x z = Some c.
Proof. sf_order. Qed.

Lemma SFcompare_eq_r x y z c :
  SFcompare x y = Some c -> SFcompare y z = Some Eq -> SFcompare x z = Some c.
Proof. sf_order. Qed.

Lemma SFcompare_eq_sym x y :
  SFcompare x y = Some Eq -> SFcompare y x = Some Eq.
Proof. sf_order. Qed.

Lemma SFcompare_lt_gt x y :
  SFcompare x y = Some Lt -> SFcompare y x = Some Gt.
Proof. sf_order. Qed.

Lemma SFcompare_gt_lt x y :
  SFcompare x y = Some Gt -> SFcompare y x = Some Lt.
Proof. sf_order. Qed.

Lemma SFcompare_refl_not_lt x : SFcompare x x <> Some Lt.
Proof. sf_order. Qed.

(** The operators, read through the specification. *)
Lemma flt_compare a b :
  flt a b = true <-> SFcompare (Prim2SF a) (Prim2SF b) = Some Lt.
Proof.
  unfold flt. rewrite FloatAxioms.ltb_spec. unfold SFltb.
  destruct (SFcompare (Prim2SF a) (Prim2SF b)) as [[| |]|]; split; congruence.
Qed.

Lemma feq_compare a b :
  feq a b = true <-> SFcompare (Prim2SF a) (Prim2SF b) = Some Eq.
Proof.
  unfold feq. rewrite FloatAxioms.eqb_spec. unfold SFeqb.
  destruct (SFcompare (Prim2SF a) (Prim2SF b)) as [[| |]|]; split; congruence.
Qed.

Lemma fle_compare a b :
  fle a b = true <->
  SFcompare (Prim2SF a) (Prim2SF b) = Some Lt
  \/ SFcompare (Prim2SF a) (Prim2SF b) = Some Eq.
Proof.
  unfold fle. rewrite FloatAxioms.leb_spec. unfold SFleb.
  destruct (SFcompare (Prim2SF a) (Prim2SF b)) as [[| |]|];
    split; intros; try tauto; try congruence; destruct H; congruence.
Qed.

Lemma fgt_flt a b : fgt a b = flt b a.
Proof. reflexivity. Qed.

Lemma fge_fle a b : fge a b = fle b a.
Proof. reflexivity. Qed.

Lemma flt_irrefl a : flt a a = false.
Proof.
  destruct (flt a a) eqn:E; [|reflexivity].
  apply flt_compare in E. now apply SFcompare_refl_not_lt in E.
Qed.

Lemma flt_trans a b c : flt a b = true -> flt b c = true -> flt a c = true.
Proof. rewrite !flt_compare. apply SFcompare_lt_trans. Qed.

Lemma feq_sym a b : feq a b = true -> feq b a = true.
Proof. rewrite !feq_compare. apply SFcompare_eq_sym. Qed.

Lemma feq_trans a b c : feq a b = true -> feq b c = true -> feq a c = true.
Proof. rewrite !feq_compare. apply SFcompare_eq_l. Qed.

Lemma feq_flt_trans a b c : feq a b = true -> flt b c = true -> flt a c = true.
Proof. rewrite feq_compare, !flt_compare. apply SFcompare_eq_l. Qed.

Lemma flt_feq_trans a b c : flt a b = true -> feq b c = true -> flt a c = true.
Proof. rewrite feq_compare, !flt_compare. apply SFcompare_eq_r. Qed.

Lemma flt_fle a b : flt a b = true -> fle a b = true.
Proof. rewrite flt_compare, fle_compare. tauto. Qed.

Lemma feq_fle a b : feq a b = true -> fle a b = true.
Proof. rewrite feq_compare, fle_compare. tauto. Qed.

Lemma flt_not_fle a b : flt a b = true -> fle b a = false.
Proof.
  intros H. destruct (fle b a) eqn:E; [|reflexivity].
  apply flt_compare in H. apply SFcompare_lt_gt in H.
  apply fle_compare in E. destruct E; congruence.
Qed.

Lemma fle_not_flt a b : fle a b = true -> flt b a = false.
Proof.
  intros H. destruct (flt b a) eqn:E; [|reflexivity].
  apply flt_not_fle in E. congruence.
Qed.

Lemma flt_not_feq a b : flt a b = true -> feq a b = false.
Proof.
  intros H. destruct (feq a b) eqn:E; [|reflexivity].
  apply flt_compare in H. apply feq_compare in E. congruence.
Qed.

(** [max(a, b)] is never below its first argument, unless that is NaN. *)
Lemma py_max_lower a b : feq a a = true -> fle a (py_max a b) = true.
Proof.
  intros Ha. unfold py_max. rewrite fgt_flt.
  destruct (flt a b) eqn:E.
  - now apply flt_fle.
  - now apply feq_fle.
Qed.

(** Induction on values, through the lists and dictionaries they nest. *)
Lemma value_ind' (P : value -> Prop) :
  P VNone ->
  (forall b, P (VBool b)) ->
  (forall z, P (VInt z)) ->
  (forall f, P (VFloat f)) ->
  (forall s, P (VStr s)) ->
  (forall l, Forall P l -> P (VList l)) ->
  (forall d, Forall (fun kv => P (snd kv)) d -> P (VDict d)) ->
  forall v, P v.
Proof.
  intros HN HB HI HF HS HL HD.
  fix IH 1. intros [| b | z | f | s | l | d].
  - exact HN.
  - apply HB.
  - apply HI.
  - apply HF.
  - apply HS.
  - apply HL. induction l as [|v l IHl]; constructor; [apply IH|exact IHl].
  - apply HD. induction d as [|[k v] d IHd]; constructor; [apply IH|exact IHd].
Qed.

(** ** Dictionaries *)

Lemma dict_contains_get k d :
  dict_contains k d = match dict_get k d with Some _ => true | None => false end.
Proof.
  induction d as [|[k' v] d IH]; simpl; [reflexivity|].
  destruct (String.eqb k k'); [reflexivity|exact IH].
Qed.

Lemma dict_get_set_same k v d : dict_get k (dict_set k v d) = Some v.
Proof.
  induction d as [|[k' v'] d IH]; simpl.
  - now rewrite String.eqb_refl.
  - destruct (String.eqb k k') eqn:E; simpl; rewrite E; [reflexivity|exact IH].
Qed.

Lemma dict_get_set_other k k' v d :
  k' <> k -> dict_get k' (dict_set k v d) = dict_get k' d.
Proof.
  intros Hne. induction d as [|[k0 v0] d IH]; simpl.
  - destruct (String.eqb_spec k' k); [contradiction|reflexivity].
  - destruct (String.eqb_spec k k0) as [->|Hk]; simpl.
    + destruct (String.eqb_spec k' k0); [contradiction|reflexivity].
    + destruct (String.eqb k' k0); [reflexivity|exact IH].
Qed.

Lemma dict_get_setdefault_same k v d :
  dict_get k (dict_setdefault k v d) =
  Some (match dict_get k d with Some v0 => v0 | None => v end).
Proof.
  unfold dict_setdefault. rewrite dict_contains_get.
  destruct (dict_get k d) eqn:E; [exact E|apply dict_get_set_same].
Qed.

Lemma dict_get_setdefault_other k k' v d :
  k' <> k -> dict_get k' (dict_setdefault k v d) = dict_get k' d.
Proof.
  intros Hne. unfold dict_setdefault.
  destruct (dict_contains k d); [reflexivity|now apply dict_get_set_other].
Qed.

(** ** More on the order of floats *)

Lemma SFcompare_lt_le_trans x y z c :
  SFcompare x y = Some Lt -> SFcompare y z = Some c -> c <> Gt ->
  SFcompare x z = Some Lt.
Proof.
  intros Hxy Hyz Hc. destruct c; [|now apply (SFcompare_lt_trans x y z)|contradiction].
  now apply (SFcompare_eq_r x y z Lt).
Qed.

Lemma SFcompare_total x y :
  SFcompare x x = Some Eq -> SFcompare y y = Some Eq ->
  exists c, SFcompare x y = Some c.
Proof. destruct x, y; cbn; intros; try discriminate; eexists; reflexivity. Qed.

Lemma flt_fle_trans a b c : flt a b = true -> fle b c = true -> flt a c = true.
Proof.
  rewrite !flt_compare, fle_compare. intros Hab [Hbc|Hbc].
  - now apply (SFcompare_lt_trans _ _ _ Hab).
  - now apply (SFcompare_eq_r _ _ _ Lt Hab).
Qed.

Lemma fle_flt_trans a b c : fle a b = true -> flt b c = true -> flt a c = true.
Proof.
  rewrite !flt_compare, fle_compare. intros [Hab|Hab] Hbc.
  - now apply (SFcompare_lt_trans _ _ _ Hab).
  - now apply (SFcompare_eq_l _ _ _ Lt Hab).
Qed.

Lemma fle_trans a b c : fle a b = true -> fle b c = true -> fle a c = true.
Proof.
  intros Hab Hbc. apply fle_compare in Hab. destruct Hab as [Hab|Hab].
  - apply flt_fle, (flt_fle_trans a b c); [now apply flt_compare|exact Hbc].
  - apply fle_compare in Hbc. apply fle_compare. destruct Hbc as [Hbc|Hbc].
    + left. now apply (SFcompare_eq_l _ _ _ Lt Hab).
    + right. now apply (SFcompare_eq_l _ _ _ Eq Hab).
Qed.

(** Two floats neither of which is NaN are comparable. *)
Lemma flt_total a b :
  feq a a = true -> feq b b = true ->
  flt a b = true \/ feq a b = true \/ flt b a = true.
Proof.
  rewrite !feq_compare, !flt_compare. intros Ha Hb.
  destruct (SFcompare_total _ _ Ha Hb) as [[| |] Hc]; auto.
  right. right. now apply SFcompare_gt_lt.
Qed.

Lemma not_flt_fle a b :
  feq a a = true -> feq b b = true -> flt a b = false -> fle b a = true.
Proof.
  intros Ha Hb Hlt. destruct (flt_total a b Ha Hb) as [H|[H|H]].
  - congruence.
  - now apply feq_fle, feq_sym.
  - now apply flt_fle.
Qed.

Lemma fle_number a b : fle a b = true -> feq a a = true /\ feq b b = true.
Proof.
  rewrite fle_compare, !feq_compare.
  destruct (Prim2SF a), (Prim2SF b); cbn; intros [H|H]; try discriminate;
    split; try reflexivity;
    now rewrite ?Z.compare_refl, ?Pos.compare_cont_refl;
    repeat match goal with s : bool |- _ => destruct s end.
Qed.

(** [min(a, b)] is never above its first argument, [max(lo, min(hi, x))]
    lies between the bounds. *)
Lemma py_min_upper a b : feq a a = true -> fle (py_min a b) a = true.
Proof.
  intros Ha. unfold py_min. destruct (flt b a) eqn:E.
  - now apply flt_fle.
  - now apply feq_fle.
Qed.

Lemma py_max_py_min_bounds lo hi x :
  fle lo hi = true ->
  fle lo (py_max lo (py_min hi x)) = true
  /\ fle (py_max lo (py_min hi x)) hi = true.
Proof.
  intros Hb. destruct (fle_number lo hi Hb) as [Hlo Hhi]. split.
  - now apply py_max_lower.
  - unfold py_max. rewrite fgt_flt.
    destruct (flt lo (py_min hi x)); [now apply py_min_upper|exact Hb].
Qed.

Lemma flt_asym a b : flt a b = true -> flt b a = false.
Proof. intros H. now apply fle_not_flt, flt_fle. Qed.

Lemma flt_not_feq_false a b : feq a b = true -> flt a b = false.
Proof.
  intros H. destruct (flt a b) eqn:E; [|reflexivity].
  apply flt_not_feq in E. congruence.
Qed.

End PyFacts.
Import PyFacts.

(* ================================================================== *)
(** * The apophatic guard *)
(* ================================================================== *)

Module ApophaticFacts.
Import ApophaticGuard.

(** C2: the guard is claimed to reject a forbidden key at any nesting
    depth.  On the guard's own nested test input, which [test_guard]
    labels "should be invalid", the flattened key is the dotted path
    [deep.deeper.ground_is]; the forbidden names are looked up as they
    stand, none is found, and the input is admitted. *)
Theorem nested_forbidden_key_is_admitted :
  _flatten_dict nested_params !! "deep.deeper.ground_is" = Some (VStr "hidden here")
  /\ _flatten_dict nested_params !! "ground_is" = None
  /\ admissible [] nested_params = true.
Proof. vm_compute. repeat split; reflexivity. Qed.

(** The same key at the top level is rejected, as is the guard's flat
    test input. *)
Lemma flat_forbidden_key_is_rejected :
  admissible [] invalid_params1 = false
  /\ admissible [] invalid_params2 = false
  /\ admissible [] valid_params = true.
Proof. vm_compute. repeat split; reflexivity. Qed.

(** A forbidden key whose value is itself a dictionary is hidden too, also
    at the top level. *)
Lemma forbidden_key_with_dict_value_is_admitted :
  admissible [] [("ground_is", VDict [("is", VStr "being")])] = true.
Proof. vm_compute. reflexivity. Qed.

(** Whatever is keyed under a sub-dictionary is invisible to the guard:
    the forbidden names and the constrained ones alike. *)
Lemma keys_under_a_prefix_are_invisible (k s : string) :
  admissible [] [("deep", VDict [(k, VStr s)])] = true.
Proof.
  unfold admissible, _flatten_dict. cbn [flatten_items flatten_item join_key].
  change (String.eqb "deep" "") with false. cbn iota.
  change (String.eqb "" "") with true. cbn iota.
  assert (Hnone : forall k', String.get 0 k' <> Some "d"%char ->
            (<[("deep." ++ k)%string := VStr s]> (∅ : gmap string value) ∪ ∅) !! k'
            = None).
  { intros k' Hk'. rewrite lookup_union_None, lookup_empty. split; [|reflexivity].
    apply lookup_insert_None. split; [apply lookup_empty|].
    intros <-. apply Hk'. reflexivity. }
  unfold has_key, violates, FORBIDDEN_KEYS, CONSTRAINT_ONLY. cbn [existsb].
  rewrite !Hnone by (cbn; discriminate). reflexivity.
Qed.

(** Flattening only ever adds keys. *)
Lemma flatten_item_mono v : forall key (m : gmap string value) k,
  is_Some (m !! k) -> is_Some (flatten_item v key m !! k).
Proof.
  induction v as [| b | z | f | s | l _ | d IH] using value_ind';
    intros key m k Hk; cbn;
    try (destruct (decide (key = k)) as [->|Hne];
         [rewrite lookup_insert_eq; eauto
         |rewrite lookup_insert_ne by exact Hne; exact Hk]).
  revert m Hk. induction d as [|[k0 v0] d IHd]; intros m Hk; [exact Hk|].
  apply Forall_cons in IH. destruct IH as [IH0 IHrest].
  apply (IHd IHrest). now apply IH0.
Qed.

Lemma flatten_items_mono l prefix : forall (m : gmap string value) k,
  is_Some (m !! k) -> is_Some (flatten_items l prefix m !! k).
Proof.
  induction l as [|[k0 v0] l IH]; intros m k Hk; cbn; [exact Hk|].
  apply IH. now apply flatten_item_mono.
Qed.

Lemma flatten_items_leaf l prefix k v : forall (m : gmap string value),
  In (k, v) l -> is_leaf v ->
  is_Some (flatten_items l prefix m !! join_key prefix k).
Proof.
  induction l as [|[k0 v0] l IH]; intros m Hin Hleaf; [destruct Hin|].
  destruct Hin as [[= -> ->]|Hin]; cbn.
  - apply flatten_items_mono.
    destruct v; cbn in *; try contradiction; rewrite lookup_insert_eq; eauto.
  - now apply IH.
Qed.

(** X3: At the top level the guard does what it says: a forbidden key with a
    value that is not a dictionary, in the parameters or in the context,
    is rejected. *)
Lemma top_level_forbidden_key_is_rejected context params k v :
  In k FORBIDDEN_KEYS -> is_leaf v ->
  In (k, v) params \/ In (k, v) context ->
  admissible context params = false.
Proof.
  intros Hk Hleaf Hin. unfold admissible.
  assert (Hhas : has_key k (_flatten_dict params ∪ _flatten_dict context) = true).
  { unfold has_key.
    assert (Hsome : is_Some ((_flatten_dict params ∪ _flatten_dict context) !! k)).
    { apply lookup_union_is_Some. unfold _flatten_dict.
      destruct Hin as [Hin|Hin]; [left|right];
        apply (flatten_items_leaf _ "" k v ∅ Hin Hleaf). }
    destruct Hsome as [x ->]. reflexivity. }
  assert (Hex : existsb (fun k => has_key k (_flatten_dict params ∪ _flatten_dict context))
                  FORBIDDEN_KEYS = true).
  { apply existsb_exists. exists k. auto. }
  now rewrite Hex.
Qed.

End ApophaticFacts.

(* ================================================================== *)
(** * Consent tickets *)
(* ================================================================== *)

Module ConsentFacts.
Import ConsentChecker.


(** What [is_valid] tests, once the lifetime converts to a float. *)
Lemma is_valid_spec now t ttl :
  float_of_int (ttl_seconds t) = Ok ttl ->
  is_valid now t =
  Ok (negb (fgt now (issued_at t + ttl)%float)
      && negb (Z.geb (invocations t) (max_invocations t)))%bool.
Proof.
  intros H. unfold is_valid. rewrite H. cbn.
  destruct (fgt _ _); cbn; [reflexivity|].
  destruct (Z.geb _ _); reflexivity.
Qed.

Lemma is_valid_true_room now t :
  is_valid now t = Ok true -> (invocations t < max_invocations t)%Z.
Proof.
  unfold is_valid. destruct (float_of_int (ttl_seconds t)) as [ttl|e]; cbn;
    [|discriminate].
  destruct (fgt _ _); [discriminate|].
  destruct (Z.geb_spec (invocations t) (max_invocations t)); [discriminate|].
  intros _. lia.
Qed.



Lemma is_valid_false_iff now t ttl :
  float_of_int (ttl_seconds t) = Ok ttl ->
  is_valid now t = Ok false <->
  fgt now (issued_at t + ttl)%float = true
  \/ (max_invocations t <= invocations t)%Z.
Proof.
  intros Httl. rewrite (is_valid_spec now t ttl Httl).
  destruct (fgt now (issued_at t + ttl)); cbn.
  - split; [now left|reflexivity].
  - destruct (Z.geb_spec (invocations t) (max_invocations t)); cbn; split;
      try reflexivity; try discriminate.
    + intros _. right. lia.
    + intros [Hexp|Hfull]; [discriminate|lia].
Qed.



(** The scope lattice: a ticket covers its own level and the levels below. *)
Lemma can_escalate_spec from_scope to_scope :
  can_escalate from_scope to_scope = true <->
  exists a b, level_of scope_levels from_scope = Some a
              /\ level_of scope_levels to_scope = Some b /\ (b <= a)%Z.
Proof.
  unfold can_escalate.
  destruct (level_of scope_levels from_scope) as [a|];
    destruct (level_of scope_levels to_scope) as [b|]; split;
    try discriminate; try (intros (a' & b' & H1 & H2 & _); discriminate).
  - intros H. exists a, b. repeat split. destruct (Z.geb_spec a b); [lia|discriminate].
  - intros (a' & b' & H1 & H2 & H3). injection H1 as <-. injection H2 as <-.
    destruct (Z.geb_spec a b); [reflexivity|lia].
Qed.

Lemma any_valid_sound now p tickets :
  any_valid now p tickets = Ok true ->
  exists t, In t tickets /\ is_valid now t = Ok true /\ p t = true.
Proof.
  induction tickets as [|t rest IH]; cbn; [discriminate|].
  destruct (is_valid now t) as [v|e] eqn:E; cbn; [|discriminate].
  destruct v; cbn.
  - destruct (p t) eqn:Ep.
    + intros _. exists t. auto.
    + intros H. destruct (IH H) as (t' & Hin & Hv & Hp). exists t'. auto.
  - intros H. destruct (IH H) as (t' & Hin & Hv & Hp). exists t'. auto.
Qed.

(** [check_context] passes only on a ticket that is valid (lifetime and
    invocation count) and whose scope covers the target; without tickets
    it fails. *)
Lemma check_context_sound now tickets target :
  check_context now tickets (Some target) = Ok true ->
  exists t, In t tickets /\ is_valid now t = Ok true
            /\ (invocations t < max_invocations t)%Z
            /\ can_escalate (scope t) target = true.
Proof.
  unfold check_context. destruct tickets as [|t0 rest]; [discriminate|].
  intros H. apply any_valid_sound in H. destruct H as (t & Hin & Hv & Hp).
  exists t. repeat split; auto. now apply is_valid_true_room in Hv.
Qed.

Lemma check_context_no_tickets now target :
  check_context now [] target = Ok false.
Proof. reflexivity. Qed.

End ConsentFacts.

(* ================================================================== *)
(** * The shadow twin *)
(* ================================================================== *)

Module ShadowTwinFacts.
Import ProofCarryingAdvice ShadowTwin.

(** ** The inversion table *)

(** C7, as stated, fails: the table is not an involution.  TRANSCENSION is
    sent to NEGATION, and NEGATION is sent to POTENTIATION. *)
Lemma transcension_is_not_inverted_back :
  ~ (forall w w', invert_will w = Some w' -> invert_will w' = Some w).
Proof.
  intros H. specialize (H "TRANSCENSION" "NEGATION" eq_refl).
  vm_compute in H. discriminate.
Qed.

(** C7, amended: every operator of the table has exactly one counter, which
    is again an operator of the table, and inverting twice returns the
    operator for every operator other than TRANSCENSION; TRANSCENSION goes
    to NEGATION and from there to POTENTIATION. *)
Theorem will_invert_involution_but_transcension (w w' : string) :
  invert_will w = Some w' ->
  (exists w'', invert_will w' = Some w'')
  /\ (w <> "TRANSCENSION" -> invert_will w' = Some w)
  /\ (w = "TRANSCENSION" ->
      w' = "NEGATION" /\ invert_will w' = Some "POTENTIATION").
Proof.
  unfold invert_will, WILL_INVERT. cbn [lookup_will].
  repeat match goal with
  | |- context [String.eqb w ?k] =>
      destruct (String.eqb_spec w k) as [->|?];
      [intros [= <-]; split; [eexists; reflexivity|]; split;
       [first [intros _; reflexivity
              |intros H; exfalso; apply H; reflexivity]
       |first [intros H; discriminate H
              |intros _; split; reflexivity]]|]
  end.
  discriminate.
Qed.

Lemma will_invert_involution_but_transcension_witness :
  invert_will "EXPANSION" = Some "POSSESSION"
  /\ invert_will "POSSESSION" = Some "EXPANSION".
Proof.
  assert (H : invert_will "EXPANSION" = Some "POSSESSION") by reflexivity.
  split; [exact H|].
  apply (will_invert_involution_but_transcension "EXPANSION" "POSSESSION" H).
  discriminate.
Defined.

(** ** Arbitration *)

(** What the dictionary comprehension of [_hard_ok] holds for a name. *)
Lemma by_name_snoc ps p :
  by_name (ps ++ [p]) = <[ name p := ok p ]> (by_name ps).
Proof. unfold by_name. now rewrite fold_left_app. Qed.

Lemma by_name_lookup ps n b :
  NoDup (List.map name ps) ->
  by_name ps !! n = Some b <-> exists p, In p ps /\ name p = n /\ ok p = b.
Proof.
  induction ps as [|p ps IH] using rev_ind; intros Hnd.
  - unfold by_name; cbn. rewrite lookup_empty. split; [discriminate|].
    intros (p & [] & _).
  - rewrite by_name_snoc. rewrite List.map_app in Hnd. cbn in Hnd.
    apply NoDup_app in Hnd. destruct Hnd as (Hps & Hdisj & _).
    destruct (decide (name p = n)) as [Heq|Hne].
    + subst n. rewrite lookup_insert_eq. split.
      * intros [= <-]. exists p. split; [apply in_or_app; right; now left|auto].
      * intros (q & Hin & Hn & Hb). apply in_app_or in Hin.
        destruct Hin as [Hin|[->|[]]]; [|now subst].
        exfalso. apply (Hdisj (name q)).
        -- apply list_elem_of_In, in_map_iff. eauto.
        -- rewrite Hn. apply list_elem_of_In. now left.
    + rewrite lookup_insert_ne by exact Hne. rewrite (IH Hps). split.
      * intros (q & Hin & Hq). exists q. split; [apply in_or_app; now left|exact Hq].
      * intros (q & Hin & Hn & Hb). apply in_app_or in Hin.
        destruct Hin as [Hin|[->|[]]]; [eauto|contradiction].
Qed.

(** With one proof per name, as [build] produces them, the hard gates
    pass exactly when the consent, apophatic and externalities proofs are
    all there and ok. *)
Lemma hard_ok_iff awp :
  NoDup (List.map name (proofs awp)) ->
  _hard_ok awp = true <->
  forall n, In n ["consent"; "apophatic"; "externalities"] ->
            exists p, In p (proofs awp) /\ name p = n /\ ok p = true.
Proof.
  intros Hnd. unfold _hard_ok. rewrite !andb_true_iff. split.
  - intros [[H1 H2] H3] n Hn.
    apply (by_name_lookup _ n true Hnd).
    destruct Hn as [<-|[<-|[<-|[]]]];
      match goal with
      | |- ?m !! ?k = _ => destruct (m !! k) as [[|]|]; cbn in *; congruence
      end.
  - intros H.
    assert (Hl : forall n, In n ["consent"; "apophatic"; "externalities"] ->
                           by_name (proofs awp) !! n = Some true).
    { intros n Hn. apply (by_name_lookup _ n true Hnd). auto. }
    rewrite !Hl by (cbn; auto). auto.
Qed.

(** Without that assumption the dictionary built from the proofs keeps,
    for each name, the last proof of that name. *)
Lemma by_name_lookup_last ps n b :
  by_name ps !! n = Some b <->
  exists before p after,
    ps = before ++ p :: after
    /\ name p = n /\ ok p = b
    /\ forall q, In q after -> name q <> n.
Proof.
  induction ps as [|x ps IH] using rev_ind.
  - unfold by_name; cbn. rewrite lookup_empty. split; [discriminate|].
    intros (l1 & p & l2 & H & _). now destruct l1.
  - rewrite by_name_snoc. destruct (decide (name x = n)) as [Heq|Hne].
    + subst n. rewrite lookup_insert_eq. split.
      * intros [= <-]. exists ps, x, []. repeat split. intros q [].
      * intros (l1 & p & l2 & Hsplit & Hn & Hb & Hlater).
        destruct l2 as [|y l2 _] using rev_ind.
        -- apply app_inj_tail in Hsplit. destruct Hsplit as [_ ->]. now rewrite Hb.
        -- change (ps ++ [x] = l1 ++ (p :: l2) ++ [y]) in Hsplit.
           rewrite app_assoc in Hsplit.
           apply app_inj_tail in Hsplit. destruct Hsplit as [_ ->].
           exfalso. apply (Hlater y); [apply in_or_app; right; now left|reflexivity].
    + rewrite lookup_insert_ne by exact Hne. rewrite IH. split.
      * intros (l1 & p & l2 & -> & Hn & Hb & Hlater).
        exists l1, p, (l2 ++ [x]). split; [now rewrite <- app_assoc|].
        split; [exact Hn|]. split; [exact Hb|].
        intros q Hq. apply in_app_or in Hq.
        destruct Hq as [Hq|[<-|[]]]; [now apply Hlater|exact Hne].
      * intros (l1 & p & l2 & Hsplit & Hn & Hb & Hlater).
        destruct l2 as [|y l2 _] using rev_ind.
        -- apply app_inj_tail in Hsplit. destruct Hsplit as [_ ->]. contradiction.
        -- change (ps ++ [x] = l1 ++ (p :: l2) ++ [y]) in Hsplit.
           rewrite app_assoc in Hsplit.
           apply app_inj_tail in Hsplit. destruct Hsplit as [-> _].
           exists l1, p, l2. split; [reflexivity|]. split; [exact Hn|].
           split; [exact Hb|].
           intros q Hq. apply Hlater, in_or_app. now left.
Qed.

Lemma hard_ok_last awp :
  _hard_ok awp = true <->
  forall n, In n ["consent"; "apophatic"; "externalities"] ->
    exists before p after,
      proofs awp = before ++ p :: after
      /\ name p = n /\ ok p = true
      /\ forall q, In q after -> name q <> n.
Proof.
  unfold _hard_ok. rewrite !andb_true_iff. split.
  - intros [[H1 H2] H3] n Hn.
    apply (by_name_lookup_last _ n true).
    destruct Hn as [<-|[<-|[<-|[]]]];
      match goal with
      | |- ?m !! ?k = _ => destruct (m !! k) as [[|]|]; cbn in *; congruence
      end.
  - intros H.
    assert (Hl : forall n, In n ["consent"; "apophatic"; "externalities"] ->
                           by_name (proofs awp) !! n = Some true).
    { intros n Hn. apply (by_name_lookup_last _ n true). auto. }
    rewrite !Hl by (cbn; auto). auto.
Qed.

Lemma pick_spec (p c : AdviceWithProof) :
  (_hard_ok p = true -> _hard_ok c = false -> pick p c = "primary")
  /\ (_hard_ok p = false -> _hard_ok c = true -> pick p c = "counter")
  /\ (_hard_ok p = _hard_ok c ->
      (flt (risk p) (risk c) = true -> pick p c = "primary")
      /\ (feq (risk p) (risk c) = true -> pick p c = "primary")
      /\ (flt (risk c) (risk p) = true -> pick p c = "counter")
      /\ pick p c = (if fle (risk p) (risk c) then "primary" else "counter")).
Proof.
  unfold pick. split; [|split].
  - intros -> ->. reflexivity.
  - intros -> ->. reflexivity.
  - intros <-. split; [|split; [|split]].
    + intros Hlt. apply flt_fle in Hlt. rewrite Hlt.
      destruct (_hard_ok p); reflexivity.
    + intros Heq. apply feq_fle in Heq. rewrite Heq.
      destruct (_hard_ok p); reflexivity.
    + intros Hlt. apply flt_not_fle in Hlt. rewrite Hlt.
      destruct (_hard_ok p); reflexivity.
    + destruct (_hard_ok p); reflexivity.
Qed.

Section Contemplate.

Variable float_of_str : string -> option float.
Variable build : AdviceDraft -> string -> result AdviceWithProof.

Lemma contemplate_selection draft answer r :
  contemplate float_of_str build draft answer = Ok r ->
  build draft answer = Ok (primary r)
  /\ (exists counter_draft,
        _invert float_of_str draft = Ok counter_draft
        /\ build counter_draft (_counter_answer answer) = Ok (counter r))
  /\ selection r = pick (primary r) (counter r).
Proof.
  unfold contemplate.
  destruct (build draft answer) as [p|e]; cbn; [|discriminate].
  destruct (_invert float_of_str draft) as [cd|e]; cbn; [|discriminate].
  destruct (build cd (_counter_answer answer)) as [c|e] eqn:Ec; cbn; [|discriminate].
  intros [= <-]. cbn. split; [reflexivity|]. split; [|reflexivity].
  exists cd. auto.
Qed.

(** C8: [contemplate] arbitrates between the advice [build] returns for the
    draft and the advice it returns for the inverted draft, and surviving
    the hard gates takes precedence over risk.  The hard gates of an advice
    pass exactly when, for each of the names consent, apophatic and
    externalities, the last proof of that name in its list is ok (with one
    proof per name: when such a proof is there and ok).  [contemplate]
    returns as soon as the two builds and the inversion return, with
    exactly those two advices as primary and counter.  If exactly one of
    them passes the hard gates, that side is selected whatever the two
    risks are; if both or neither do, the side of lower risk is selected,
    and equal risks select the primary. *)
Theorem twin_hard_gates_before_risk (draft : AdviceDraft) (answer : string) :
  (forall awp,
     _hard_ok awp = true <->
     forall n, In n ["consent"; "apophatic"; "externalities"] ->
       exists before p after,
         proofs awp = before ++ p :: after
         /\ name p = n /\ ok p = true
         /\ forall q, In q after -> name q <> n)
  /\ (forall awp,
        NoDup (List.map name (proofs awp)) ->
        (_hard_ok awp = true <->
         forall n, In n ["consent"; "apophatic"; "externalities"] ->
           exists p, In p (proofs awp) /\ name p = n /\ ok p = true))
  /\ (forall p counter_draft c,
        build draft answer = Ok p ->
        _invert float_of_str draft = Ok counter_draft ->
        build counter_draft (_counter_answer answer) = Ok c ->
        exists r,
          contemplate float_of_str build draft answer = Ok r
          /\ primary r = p /\ counter r = c)
  /\ (forall r,
        contemplate float_of_str build draft answer = Ok r ->
        (exists counter_draft,
           build draft answer = Ok (primary r)
           /\ _invert float_of_str draft = Ok counter_draft
           /\ build counter_draft (_counter_answer answer) = Ok (counter r))
        /\ (_hard_ok (primary r) = true -> _hard_ok (counter r) = false ->
            selection r = "primary")
        /\ (_hard_ok (primary r) = false -> _hard_ok (counter r) = true ->
            selection r = "counter")
        /\ (_hard_ok (primary r) = _hard_ok (counter r) ->
            (flt (risk (primary r)) (risk (counter r)) = true ->
             selection r = "primary")
            /\ (feq (risk (primary r)) (risk (counter r)) = true ->
                selection r = "primary")
            /\ (flt (risk (counter r)) (risk (primary r)) = true ->
                selection r = "counter")
            /\ selection r
               = (if fle (risk (primary r)) (risk (counter r))
                  then "primary" else "counter"))).
Proof.
  split; [exact hard_ok_last|]. split; [exact hard_ok_iff|]. split.
  - intros p cd c Hp Hcd Hc. unfold contemplate.
    rewrite Hp. cbn [mbind result_bind]. rewrite Hcd. cbn [mbind result_bind].
    rewrite Hc. cbn [mbind result_bind].
    eexists. split; [reflexivity|]. split; reflexivity.
  - intros r H. apply contemplate_selection in H.
    destruct H as (Hp & (cd & Hcd & Hc) & ->).
    split; [exists cd; auto|].
    destruct (pick_spec (primary r) (counter r)) as (H1 & H2 & H3).
    split; [exact H1|]. split; [exact H2|]. exact H3.
Qed.

End Contemplate.

(** The example draft with a pipeline under which only the hardened
    counter-draft passes the externalities gate, at the higher risk: the
    counter is selected. *)
Lemma twin_hard_gates_before_risk_witness :
  exists p cd c r,
    demo_build example_draft "Enable." = Ok p
    /\ _invert (fun _ => None) example_draft = Ok cd
    /\ demo_build cd (_counter_answer "Enable.") = Ok c
    /\ contemplate (fun _ => None) demo_build example_draft "Enable." = Ok r
    /\ primary r = p /\ counter r = c
    /\ _hard_ok p = false
    /\ _hard_ok c = true
    /\ flt (risk p) (risk c) = true
    /\ selection r = "counter".
Proof.
  destruct (twin_hard_gates_before_risk (fun _ => None) demo_build
              example_draft "Enable.") as (_ & _ & Hreturns & Hrules).
  destruct (demo_build example_draft "Enable.") as [p|e] eqn:Hp;
    [|discriminate Hp].
  destruct (_invert (fun _ => None) example_draft) as [cd|e] eqn:Hcd;
    [|vm_compute in Hcd; discriminate Hcd].
  destruct (demo_build cd (_counter_answer "Enable.")) as [c|e] eqn:Hc;
    [|discriminate Hc].
  destruct (Hreturns p cd c eq_refl eq_refl Hc) as (r & Hr & Hpr & Hcr).
  assert (Hfail : _hard_ok p = false)
    by (vm_compute in Hp; injection Hp as <-; vm_compute; reflexivity).
  assert (Hpass : _hard_ok c = true).
  { vm_compute in Hcd. injection Hcd as <-.
    vm_compute in Hc. injection Hc as <-. vm_compute. reflexivity. }
  assert (Hrisk : flt (risk p) (risk c) = true).
  { vm_compute in Hp. injection Hp as <-.
    vm_compute in Hcd. injection Hcd as <-.
    vm_compute in Hc. injection Hc as <-. vm_compute. reflexivity. }
  exists p, cd, c, r.
  repeat (split; [reflexivity || assumption|]).
  destruct (Hrules r Hr) as (_ & _ & Hcounter & _).
  apply Hcounter; [now rewrite Hpr|now rewrite Hcr].
Defined.

(** ** The counter-draft *)

Section Invert.

Variable float_of_str : string -> option float.

Local Abbreviation py_float := (py_float float_of_str).
Local Abbreviation harden_line := (harden_line float_of_str).
Local Abbreviation harden_lines := (harden_lines float_of_str).
Local Abbreviation _invert := (_invert float_of_str).

Lemma floor_is_a_number : feq FLOOR FLOOR = true.
Proof. vm_compute. reflexivity. Qed.

Lemma harden_line_spec lines k :
  (forall x, dict_get k lines = Some x -> exists f, py_float x = Ok f) ->
  exists f, harden_line lines k = Ok (dict_set k (VFloat f) lines)
            /\ fle FLOOR f = true.
Proof.
  intros Hk. unfold harden_line, dict_get_default.
  destruct (dict_get k lines) as [x|] eqn:E.
  - destruct (Hk x eq_refl) as [f Hf]. rewrite Hf. cbn.
    exists (py_max FLOOR f). split; [reflexivity|].
    apply py_max_lower, floor_is_a_number.
  - cbn. exists (py_max FLOOR 0%float). split; [reflexivity|].
    apply py_max_lower, floor_is_a_number.
Qed.

Lemma harden_lines_spec keys : forall lines,
  (forall k x, In k keys -> dict_get k lines = Some x ->
               exists f, py_float x = Ok f) ->
  exists lines',
    harden_lines keys lines = Ok lines'
    /\ (forall k, In k keys ->
          exists f, dict_get k lines' = Some (VFloat f) /\ fle FLOOR f = true)
    /\ (forall k, ~ In k keys -> dict_get k lines' = dict_get k lines).
Proof.
  induction keys as [|k0 keys IH]; intros lines Hnum.
  - exists lines. cbn. split; [reflexivity|]. split; [intros k []|reflexivity].
  - destruct (harden_line_spec lines k0) as (f0 & Hline & Hf0).
    { intros x Hx. apply (Hnum k0 x); [now left|exact Hx]. }
    destruct (IH (dict_set k0 (VFloat f0) lines)) as (lines' & Hrun & Hin & Hout).
    { intros k x Hk Hx. destruct (String.eqb_spec k k0) as [->|Hne].
      - rewrite dict_get_set_same in Hx. injection Hx as <-. now exists f0.
      - rewrite dict_get_set_other in Hx by exact Hne.
        apply (Hnum k x); [now right|exact Hx]. }
    exists lines'. cbn [ShadowTwin.harden_lines]. rewrite Hline. cbn.
    split; [exact Hrun|]. split.
    + intros k [<-|Hk]; [|now apply Hin].
      destruct (in_dec string_dec k0 keys) as [Hk|Hk]; [now apply Hin|].
      rewrite (Hout k0 Hk), dict_get_set_same. now exists f0.
    + intros k Hk. rewrite Hout by (intros H; apply Hk; now right).
      apply dict_get_set_other. intros ->. apply Hk. now left.
Qed.

(** C9, amended: for a draft whose [will] is a string, [None] or missing
    and whose budget lines (if any) are a dictionary with numeric values
    for the six hardened lines, [_invert] returns a counter-draft in which
    each of the six lines privacy, safety, environmental, reputation,
    technical_debt and compute is a float at or above the floor 0.9, every
    other budget line is as the draft declares it, a rollback recipe is
    present (the draft's own entry, the default one when the plan has no
    such key), the rest of the plan, the query, the context with its
    consent scope and all parameters other than [will] are unchanged, and
    [will] is replaced by the table's counter when its upper-case form is
    an operator of the table. *)
Theorem invert_hardens_listed_budget_lines (draft : AdviceDraft) :
  (forall v, dict_get "will" (params draft) = Some v -> truthy v = true ->
             exists s, v = VStr s) ->
  (forall v, dict_get "budget_lines" (plan draft) = Some v ->
             exists lines, v = VDict lines
               /\ forall k x, In k BUDGET_KEYS -> dict_get k lines = Some x ->
                              exists f, py_float x = Ok f) ->
  exists cd lines',
    _invert draft = Ok cd
    /\ dict_get "budget_lines" (plan cd) = Some (VDict lines')
    /\ (forall k, In k BUDGET_KEYS ->
          exists f, dict_get k lines' = Some (VFloat f) /\ fle FLOOR f = true)
    /\ (forall k, ~ In k BUDGET_KEYS ->
          dict_get k lines' = dict_get k (declared_lines draft))
    /\ dict_get "rollback_recipe" (plan cd) =
       Some (match dict_get "rollback_recipe" (plan draft) with
             | Some recipe => recipe
             | None => VStr DEFAULT_ROLLBACK
             end)
    /\ (forall k, k <> "budget_lines" -> k <> "rollback_recipe" ->
          dict_get k (plan cd) = dict_get k (plan draft))
    /\ context cd = context draft
    /\ query cd = query draft
    /\ (forall k, k <> "will" -> dict_get k (params cd) = dict_get k (params draft))
    /\ (forall s w', dict_get "will" (params draft) = Some (VStr s) ->
          invert_will (upper s) = Some w' ->
          dict_get "will" (params cd) = Some (VStr w')).
Proof.
  intros Hwill Hlines.
  pose (lines := declared_lines draft).
  assert (Hget : dict_get "budget_lines"
                   (dict_setdefault "budget_lines" (VDict []) (plan draft))
                 = Some (VDict lines)).
  { rewrite dict_get_setdefault_same. unfold lines, declared_lines.
    destruct (dict_get "budget_lines" (plan draft)) as [v|] eqn:E; [|reflexivity].
    destruct (Hlines v eq_refl) as (l & -> & _). reflexivity. }
  destruct (harden_lines_spec BUDGET_KEYS lines) as (lines' & Hrun & Hin & Hout).
  { intros k x Hk Hx. unfold lines, declared_lines in Hx.
    destruct (dict_get "budget_lines" (plan draft)) as [v|] eqn:E; [|discriminate].
    destruct (Hlines v eq_refl) as (l & -> & Hnum). eauto. }
  assert (Hupper : exists w,
            str_upper (if truthy (dict_get_default "will" VNone (params draft))
                       then dict_get_default "will" VNone (params draft)
                       else VStr "") = Ok w
            /\ forall s, dict_get "will" (params draft) = Some (VStr s) ->
                         w = upper s).
  { unfold dict_get_default.
    destruct (dict_get "will" (params draft)) as [v|] eqn:E.
    - destruct (truthy v) eqn:Ev.
      + destruct (Hwill v eq_refl Ev) as [s ->]. exists (upper s).
        split; [reflexivity|]. now intros s' [= <-].
      + exists "". split; [reflexivity|]. intros s [= ->].
        cbn in Ev. destruct (String.eqb_spec s ""); [now subst|discriminate].
    - exists "". split; [reflexivity|]. discriminate. }
  destruct Hupper as (w & Hw & Hws).
  exists {| id := (id draft ++ ":counter")%string; query := query draft;
            plan := dict_setdefault "rollback_recipe" (VStr DEFAULT_ROLLBACK)
                      (dict_set "budget_lines" (VDict lines')
                         (dict_setdefault "budget_lines" (VDict []) (plan draft)));
            params := match invert_will w with
                      | Some w' => dict_set "will" (VStr w') (params draft)
                      | None => params draft
                      end;
            context := context draft |}, lines'.
  split.
  { unfold ShadowTwin._invert. rewrite Hw.
    cbn -[ShadowTwin.harden_lines BUDGET_KEYS dict_setdefault dict_set dict_get
          invert_will].
    rewrite Hget.
    cbn -[ShadowTwin.harden_lines BUDGET_KEYS dict_setdefault dict_set dict_get
          invert_will].
    rewrite Hrun. reflexivity. }
  cbn [plan params context query].
  split; [rewrite dict_get_setdefault_other by discriminate;
          apply dict_get_set_same|].
  split; [exact Hin|]. split; [exact Hout|]. split.
  { rewrite dict_get_setdefault_same.
    rewrite dict_get_set_other by discriminate.
    rewrite dict_get_setdefault_other by discriminate. reflexivity. }
  split.
  { intros k Hb Hr. rewrite dict_get_setdefault_other by exact Hr.
    rewrite dict_get_set_other by exact Hb.
    now rewrite dict_get_setdefault_other by exact Hb. }
  split; [reflexivity|]. split; [reflexivity|]. split.
  - intros k Hk. destruct (invert_will w); [|reflexivity].
    now apply dict_get_set_other.
  - intros s w' Hs Hinv. rewrite (Hws s Hs), Hinv. apply dict_get_set_same.
Qed.

End Invert.

(** The draft of [examples.py]: will Expansion and the budget lines
    privacy 0.9, safety 0.8, technical_debt 0.6. *)
Lemma invert_hardens_listed_budget_lines_witness :
  exists cd lines',
    ShadowTwin._invert (fun _ => None) example_draft = Ok cd
    /\ dict_get "will" (params cd) = Some (VStr "POSSESSION")
    /\ dict_get "budget_lines" (plan cd) = Some (VDict lines')
    /\ (forall k, In k BUDGET_KEYS ->
          exists f, dict_get k lines' = Some (VFloat f) /\ fle FLOOR f = true)
    /\ context cd = context example_draft
    /\ query cd = query example_draft.
Proof.
  destruct (invert_hardens_listed_budget_lines (fun _ => None) example_draft)
    as (cd & lines' & Hcd & Hl & Hin & _ & _ & _ & Hctx & Hq & _ & Hw).
  - intros v [= <-] _. now exists "Expansion".
  - intros v [= <-]. eexists. split; [reflexivity|].
    intros k x Hk. cbn in Hk.
    destruct Hk as [<-|[<-|[<-|[<-|[<-|[<-|[]]]]]]]; intros [= <-];
      eexists; reflexivity.
  - exists cd, lines'. split; [exact Hcd|].
    split; [apply (Hw "Expansion"); reflexivity|].
    split; [exact Hl|]. split; [exact Hin|]. split; [exact Hctx|exact Hq].
Defined.

(** C9, as stated, fails: a budget line outside the six names keeps its
    value, here 0.1, below the floor. *)
Lemma unlisted_budget_line_stays_below_floor :
  exists cd lines',
    ShadowTwin._invert (fun _ => None) unlisted_line_draft = Ok cd
    /\ dict_get "budget_lines" (plan cd) = Some (VDict lines')
    /\ dict_get "legal" lines' = Some (VFloat 0.1%float)
    /\ fle FLOOR 0.1%float = false.
Proof.
  eexists. eexists. split; [vm_compute; reflexivity|].
  split; [vm_compute; reflexivity|]. split; vm_compute; reflexivity.
Qed.

End ShadowTwinFacts.

(* ================================================================== *)
(** * The decision rails *)
(* ================================================================== *)

Module DecisionFacts.
Import DecisionCore.

(** ** The lexicographic order of the selection loop *)

Lemma improves_lex t b : improves t b = lex_lt (key_of t) (key_of_best b).
Proof. reflexivity. Qed.

Lemma key_of_best_of t : key_of_best (best_of t) = key_of t.
Proof. reflexivity. Qed.

Lemma lex_lt_irrefl x : lex_lt x x = false.
Proof.
  destruct x as [[xEK xG] xE]. unfold lex_lt.
  rewrite fgt_flt, !flt_irrefl. cbn.
  destruct (feq xEK xEK); cbn; [|reflexivity].
  destruct (feq xG xG); reflexivity.
Qed.

Lemma lex_lt_trans x y z :
  lex_lt x y = true -> lex_lt y z = true -> lex_lt x z = true.
Proof.
  destruct x as [[xEK xG] xE], y as [[yEK yG] yE], z as [[zEK zG] zE].
  unfold lex_lt. rewrite !fgt_flt.
  rewrite !orb_true_iff, !andb_true_iff, !orb_true_iff, !andb_true_iff.
  intros [Hxy|(Hxy & Hxy')] [Hyz|(Hyz & Hyz')].
  - left. eapply flt_trans; eassumption.
  - left. eapply flt_feq_trans; eassumption.
  - left. eapply feq_flt_trans; eassumption.
  - right. split; [eapply feq_trans; eassumption|].
    destruct Hxy' as [Hg|(Hg & He)], Hyz' as [Hg'|(Hg' & He')].
    + left. eapply flt_trans; eassumption.
    + left. eapply feq_flt_trans; [apply feq_sym|]; eassumption.
    + left. eapply flt_feq_trans; [|apply feq_sym]; eassumption.
    + right. split; [eapply feq_trans|eapply flt_trans]; eassumption.
Qed.

(** The loop's best is the initial one or one of the candidates seen, and
    no candidate seen improves on it. *)
Lemma select_fold_invariant (l : list scored) : forall (b : best_state) seen,
  (b = init_best \/ exists t, In t seen /\ b = best_of t) ->
  (forall t, In t seen -> improves t b = false) ->
  let b' := fold_left select_step l b in
  (b' = init_best \/ exists t, In t (seen ++ l) /\ b' = best_of t)
  /\ (forall t, In t (seen ++ l) -> improves t b' = false).
Proof.
  induction l as [|t0 l IH]; intros b seen Hb Hseen; cbn.
  - rewrite app_nil_r. auto.
  - replace (seen ++ t0 :: l) with ((seen ++ [t0]) ++ l)
      by (now rewrite <- app_assoc).
    apply IH.
    + unfold select_step. destruct (improves t0 b).
      * right. exists t0. split; [apply in_or_app; right; now left|reflexivity].
      * destruct Hb as [Hb|(t & Hin & Hb)]; [now left|].
        right. exists t. split; [apply in_or_app; now left|exact Hb].
    + intros t Hin. unfold select_step.
      destruct (improves t0 b) eqn:E0.
      * change (improves t (best_of t0) = false).
        rewrite improves_lex, key_of_best_of.
        apply in_app_or in Hin. destruct Hin as [Hin|[<-|[]]].
        -- destruct (lex_lt (key_of t) (key_of t0)) eqn:E; [|reflexivity].
           rewrite <- (Hseen t Hin), improves_lex.
           rewrite improves_lex in E0. symmetry.
           eapply lex_lt_trans; eassumption.
        -- apply lex_lt_irrefl.
      * apply in_app_or in Hin. destruct Hin as [Hin|[<-|[]]];
          [now apply Hseen|exact E0].
Qed.

Lemma select_best_spec (l : list scored) :
  (select_best l = init_best \/ exists t, In t l /\ select_best l = best_of t)
  /\ (forall t, In t l -> improves t (select_best l) = false).
Proof.
  apply (select_fold_invariant l init_best []); [now left|intros t []].
Qed.

Lemma select_best_pick (l : list scored) a :
  b_action (select_best l) = Some a ->
  exists t, In t l /\ select_best l = best_of t /\ a = s_action t.
Proof.
  intros Ha. destruct (select_best_spec l) as [[Hinit|(t & Hin & Ht)] _].
  - rewrite Hinit in Ha. discriminate.
  - exists t. split; [exact Hin|]. split; [exact Ht|].
    rewrite Ht in Ha. now injection Ha as <-.
Qed.

(** Read clause by clause: nobody is cheaper in effective cost; among
    those of equal effective cost nobody has more grace; among those equal
    in both nobody has a lower raw cost. *)
Lemma improves_false_iff t b :
  improves t b = false <->
  flt (s_EK t) (b_EK b) = false
  /\ (feq (s_EK t) (b_EK b) = true -> fgt (s_G t) (b_G b) = false)
  /\ (feq (s_EK t) (b_EK b) = true -> feq (s_G t) (b_G b) = true ->
      flt (s_E t) (b_E b) = false).
Proof.
  unfold improves.
  destruct (flt (s_EK t) (b_EK b)), (feq (s_EK t) (b_EK b)),
    (fgt (s_G t) (b_G b)), (feq (s_G t) (b_G b)), (flt (s_E t) (b_E b));
    cbn; (split; [intros H; try discriminate H;
                  (split; [reflexivity|split; intros; congruence])
                 |intros H; destruct H as (H1 & H2 & H3);
                  try reflexivity; try discriminate H1;
                  try (specialize (H2 eq_refl); discriminate H2);
                  try (specialize (H3 eq_refl eq_refl); discriminate H3)]).
Qed.

Lemma Forall2_In_right {A B : Type} (R : A -> B -> Prop) xs ys :
  Forall2 R xs ys -> forall y, In y ys -> exists x, In x xs /\ R x y.
Proof.
  induction 1 as [|x y xs ys HR _ IH]; intros y' Hin; [destruct Hin|].
  destruct Hin as [<-|Hin].
  - exists x. split; [now left|exact HR].
  - destruct (IH y' Hin) as (x' & Hx & HR'). exists x'. split; [now right|exact HR'].
Qed.

(** ** The sort of the retry *)

Lemma insert_scored_In x y l : In x (insert_scored y l) <-> x = y \/ In x l.
Proof.
  induction l as [|z l IH]; cbn.
  - intuition.
  - destruct (key_lt (sort_key z) (sort_key y)); cbn; rewrite ?IH; intuition.
Qed.

Lemma sort_scored_In x l : In x (sort_scored l) <-> In x l.
Proof.
  induction l as [|y l IH]; cbn; [tauto|].
  rewrite insert_scored_In, IH. intuition.
Qed.

Section RailsFacts.

Variable _MIN_DELTA_E : float.
Variable _MIN_GRACE : float.
Variable repair_max_days : float.
Variable ledger_required : bool.
Variable energy_E : State -> Action -> result float.
Variable grace_G : State -> Action -> result float.
Variable kernel_weight : State -> Action -> result float.
Variable price_externalities : State -> Action -> result dict.
Variable antimemory_countercontext : State -> Action -> result dict.
Variable attach_pca : string -> ProofBundle -> result string.

Local Abbreviation score_all := (score_all energy_E grace_G kernel_weight).
Local Abbreviation scores_of := (scores_of energy_E grace_G kernel_weight).
Local Abbreviation enforce_thresholds :=
  (enforce_thresholds _MIN_DELTA_E _MIN_GRACE).
Local Abbreviation minimal_clean_move :=
  (minimal_clean_move _MIN_DELTA_E _MIN_GRACE energy_E grace_G kernel_weight).
Local Abbreviation decide_from_rails :=
  (decide_from_rails _MIN_DELTA_E _MIN_GRACE repair_max_days ledger_required
     energy_E grace_G kernel_weight price_externalities
     antimemory_countercontext attach_pca).
Local Abbreviation decide :=
  (decide _MIN_DELTA_E _MIN_GRACE repair_max_days ledger_required
     energy_E grace_G kernel_weight price_externalities
     antimemory_countercontext attach_pca).

Lemma score_all_spec state cands : forall l,
  score_all state cands = Ok l -> Forall2 (scores_of state) cands l.
Proof.
  induction cands as [|a cands IH]; intros l; cbn.
  - intros [= <-]. constructor.
  - destruct (energy_E state a) as [E|e] eqn:HE; cbn; [|discriminate].
    destruct (kernel_weight state a) as [K|e] eqn:HK; cbn; [|discriminate].
    destruct (grace_G state a) as [G|e] eqn:HG; cbn; [|discriminate].
    destruct (DecisionCore.score_all energy_E grace_G kernel_weight state cands)
      as [tail|e]; cbn; [|discriminate].
    intros [= <-]. constructor; [|now apply IH].
    unfold scores_of. cbn. repeat split; auto. now exists K.
Qed.

(** The seams answering for every candidate is all the solver needs to
    return. *)
Lemma minimal_clean_move_returns state cands :
  (forall a, In a cands ->
     (exists E, energy_E state a = Ok E)
     /\ (exists K, kernel_weight state a = Ok K)
     /\ (exists G, grace_G state a = Ok G)) ->
  exists r, minimal_clean_move state cands = Ok r.
Proof.
  intros Hseams. unfold DecisionCore.minimal_clean_move.
  assert (H : exists l, score_all state cands = Ok l).
  { induction cands as [|a cands IH]; cbn; [now eexists|].
    destruct (Hseams a (or_introl eq_refl)) as ([E ->] & [K ->] & [G ->]). cbn.
    destruct IH as [l ->]; [intros a' Ha'; apply Hseams; now right|].
    cbn. now eexists. }
  destruct H as [l ->]. cbn. now eexists.
Qed.

Lemma enforce_cases (l : list scored) :
  let b := select_best l in
  let r := enforce_thresholds l b in
  (b_action b = None -> r = no_move)
  /\ (forall a, b_action b = Some a ->
        (fge (b_E b) _MIN_DELTA_E = true -> r = no_move)
        /\ (fge (b_E b) _MIN_DELTA_E = false -> flt (b_G b) _MIN_GRACE = false ->
            r = (Some a, Some (b_E b), Some (b_G b)))
        /\ (fge (b_E b) _MIN_DELTA_E = false -> flt (b_G b) _MIN_GRACE = true ->
            r = no_move
            \/ exists t, In t l
                 /\ flt (s_E t) _MIN_DELTA_E = true
                 /\ fge (s_G t) _MIN_GRACE = true
                 /\ r = (Some (s_action t), Some (s_E t), Some (s_G t)))).
Proof.
  intros b r. subst r. unfold DecisionCore.enforce_thresholds. split.
  - intros ->. reflexivity.
  - intros a ->. split; [|split].
    + intros ->. reflexivity.
    + intros -> ->. reflexivity.
    + intros -> ->.
      destruct (sort_scored _) as [|t2 rest] eqn:Es; [now left|].
      destruct (fge (s_G t2) _MIN_GRACE) eqn:Eg; [|now left].
      right. exists t2.
      assert (Hin : In t2 (List.filter (fun t => flt (s_E t) _MIN_DELTA_E) l)).
      { apply sort_scored_In. rewrite Es. now left. }
      apply filter_In in Hin. destruct Hin as [Hin Hv]. auto.
Qed.

Lemma solver_spec (state : State) (cands : list Action)
    (r : option Action * option float * option float) :
  minimal_clean_move state cands = Ok r ->
  exists l,
    score_all state cands = Ok l
    /\ Forall2 (scores_of state) cands l
    /\ r = enforce_thresholds l (select_best l).
Proof.
  unfold DecisionCore.minimal_clean_move.
  destruct (score_all state cands) as [l|e] eqn:El; cbn; [|discriminate].
  intros [= <-]. exists l. split; [reflexivity|].
  split; [now apply score_all_spec|reflexivity].
Qed.

(** C5, amended: when the three seams answer for every candidate, the
    solver returns, and its top pick, the candidate its selection loop
    ends with before the acceptance thresholds, is lexicographic.  No
    candidate has a lower effective cost (raw cost times kernel weight);
    none of equal effective cost has strictly higher coherence; none equal
    in both has a lower raw cost.  The solver returns this pick when its
    raw cost is below the move threshold and its coherence is not below
    the floor; it returns no action when there is no pick or the pick's raw
    cost is not below the threshold; and when only the coherence floor is
    missed it returns no action or a candidate of the retry, whose raw
    cost is below the threshold and whose coherence meets the floor. *)
Theorem solver_top_pick_is_lexicographic (state : State) (cands : list Action) :
  (forall a, In a cands ->
     (exists E, energy_E state a = Ok E)
     /\ (exists K, kernel_weight state a = Ok K)
     /\ (exists G, grace_G state a = Ok G)) ->
  exists l r,
    score_all state cands = Ok l
    /\ Forall2 (scores_of state) cands l
    /\ minimal_clean_move state cands = Ok r
    /\ (forall t, In t l ->
          flt (s_EK t) (b_EK (select_best l)) = false
          /\ (feq (s_EK t) (b_EK (select_best l)) = true ->
              fgt (s_G t) (b_G (select_best l)) = false)
          /\ (feq (s_EK t) (b_EK (select_best l)) = true ->
              feq (s_G t) (b_G (select_best l)) = true ->
              flt (s_E t) (b_E (select_best l)) = false))
    /\ (b_action (select_best l) = None -> r = no_move)
    /\ (forall a, b_action (select_best l) = Some a ->
          (exists t, In t l /\ select_best l = best_of t /\ a = s_action t)
          /\ (fge (b_E (select_best l)) _MIN_DELTA_E = true -> r = no_move)
          /\ (fge (b_E (select_best l)) _MIN_DELTA_E = false ->
              flt (b_G (select_best l)) _MIN_GRACE = false ->
              r = (Some a, Some (b_E (select_best l)), Some (b_G (select_best l))))
          /\ (fge (b_E (select_best l)) _MIN_DELTA_E = false ->
              flt (b_G (select_best l)) _MIN_GRACE = true ->
              r = no_move
              \/ exists t, In t l
                   /\ flt (s_E t) _MIN_DELTA_E = true
                   /\ fge (s_G t) _MIN_GRACE = true
                   /\ r = (Some (s_action t), Some (s_E t), Some (s_G t)))).
Proof.
  intros Hseams.
  destruct (minimal_clean_move_returns state cands Hseams) as [r Hr].
  destruct (solver_spec state cands r Hr) as (l & Hl & Hscores & ->).
  exists l, (enforce_thresholds l (select_best l)).
  split; [exact Hl|]. split; [exact Hscores|]. split; [exact Hr|].
  destruct (select_best_spec l) as [_ Hbest].
  destruct (enforce_cases l) as [Hnone Hsome].
  split; [intros t Hin; apply improves_false_iff, Hbest, Hin|].
  split; [exact Hnone|].
  intros a Ha. split; [now apply select_best_pick|]. now apply Hsome.
Qed.

(** ** The rails of [decide] *)

(** What [decide] was written to do once both rails have answered: a
    failed rail gives Refuse with no action, whatever the candidates. *)
Lemma decide_from_rails_refuses now state cands consent_ok consent_info
    apoph_ok apoph_info :
  consent_ok = false \/ apoph_ok = false ->
  exists r,
    decide_from_rails now state cands consent_ok consent_info apoph_ok apoph_info
    = Ok r
    /\ decision r = Refuse /\ chosen_action r = None.
Proof.
  intros H. unfold DecisionCore.decide_from_rails.
  assert (Hgate : (negb consent_ok || negb apoph_ok)%bool = true)
    by (destruct H as [-> | ->]; [reflexivity|apply orb_true_r]).
  rewrite Hgate. eexists. split; [reflexivity|]. split; reflexivity.
Qed.

(** [decide] itself never gets that far: the apophatic rail is called with
    [None] for the action and reads [action.params]. *)
Lemma decide_never_returns now state cands :
  exists e, decide now state cands = Raise e.
Proof.
  unfold DecisionCore.decide.
  destruct (check_consent now state None) as [rail|e]; cbn; now eexists.
Qed.

(** C1: the claim promises Refuse when a rail fails.  At a state whose only
    ticket has expired the consent rail does fail, and the code after the
    rails would refuse; but [decide] raises [AttributeError] at the
    apophatic rail, for every candidate list, before it tests either
    result. *)
Theorem gate_failure_raises_before_refuse (cands : list Action) :
  check_consent 9000%float ticket_state None
  = Ok (false, [("tickets", VList [ticket_dict hour_ticket])])
  /\ check_apophatic ticket_state None = Raise AttributeError
  /\ decide 9000%float ticket_state cands = Raise AttributeError.
Proof.
  assert (H : check_consent 9000%float ticket_state None
              = Ok (false, [("tickets", VList [ticket_dict hour_ticket])]))
    by (vm_compute; reflexivity).
  split; [exact H|]. split; [reflexivity|].
  unfold DecisionCore.decide. rewrite H. reflexivity.
Qed.

(** C3: the claim has no state or context without tickets pass the consent
    check.  [ConsentChecker.check_context] does fail without tickets, for
    every target scope; [check_consent] asks that all tickets of the state
    be valid, which an empty list satisfies, and passes. *)
Theorem consent_rail_passes_without_tickets (now : float) (context : dict)
    (stage will_operator : string) (paradox_nearby : bool)
    (action : option Action) (target_scope : option string) :
  ConsentChecker.check_context now [] target_scope = Ok false
  /\ all_valid now [] = Ok true
  /\ check_consent now
       {| context := context; stage := stage; will_operator := will_operator;
          consent_tickets := []; paradox_nearby := paradox_nearby |} action
     = Ok (true, [("tickets", VList [])]).
Proof.
  split; [apply ConsentFacts.check_context_no_tickets|].
  split; [reflexivity|].
  unfold check_consent. cbn [consent_tickets all_valid]. reflexivity.
Qed.

(** The rail of [decision_core] tests the lifetime of every ticket and
    nothing else. *)
Lemma all_valid_spec now tickets :
  all_valid now tickets = Ok true ->
  forall t, In t tickets -> is_valid now t = Ok true.
Proof.
  induction tickets as [|t0 rest IH]; cbn; [intros _ t []|].
  destruct (is_valid now t0) as [[|]|e] eqn:E; cbn; try discriminate.
  intros H t [<-|Hin]; [exact E|now apply IH].
Qed.

(** ** No viable candidate *)

Lemma no_viable_no_move (l : list scored) :
  (forall t, In t l -> fge (s_E t) _MIN_DELTA_E = true) ->
  enforce_thresholds l (select_best l) = no_move.
Proof.
  intros Hall. destruct (b_action (select_best l)) as [a|] eqn:Ea.
  - destruct (select_best_pick l a Ea) as (t & Hin & Ht & _).
    destruct (enforce_cases l) as [_ Hsome].
    apply (Hsome a Ea). rewrite Ht. apply (Hall t Hin).
  - destruct (enforce_cases l) as [Hnone _]. now apply Hnone.
Qed.

(** The solver on candidates none of which is a net improvement. *)
Lemma no_viable_candidate_no_move state cands l :
  score_all state cands = Ok l ->
  (forall a E, In a cands -> energy_E state a = Ok E ->
               fge E _MIN_DELTA_E = true) ->
  minimal_clean_move state cands = Ok no_move.
Proof.
  intros Hl Hall. unfold DecisionCore.minimal_clean_move. rewrite Hl. cbn.
  f_equal. apply no_viable_no_move. intros t Hin.
  apply score_all_spec in Hl.
  destruct (Forall2_In_right _ _ _ Hl t Hin) as (a & Ha & _ & HE & _).
  now apply (Hall a).
Qed.

(** After rails that passed, no move means Stand with no action. *)
Lemma no_move_stands now state cands tickets r :
  minimal_clean_move state cands = Ok no_move ->
  decide_from_rails now state cands true [("tickets", tickets)]
                    true [("apophatic_ok", VBool true)] = Ok r ->
  decision r = Stand /\ chosen_action r = None.
Proof.
  intros Hmove. unfold DecisionCore.decide_from_rails. cbn [negb orb].
  destruct (if (_ || _)%bool then _ else _) as [ethics_info|e]; cbn; [|discriminate].
  rewrite Hmove. cbn.
  destruct ledger_required; cbn.
  - destruct (attach_pca _ _) as [lid|e]; cbn; [|discriminate].
    intros [= <-]. split; reflexivity.
  - intros [= <-]. split; reflexivity.
Qed.

End RailsFacts.

(** ** Worked inputs *)

Lemma solver_top_pick_is_lexicographic_witness :
  exists l,
    score_all demo_energy demo_grace demo_kernel ticket_state [plain; graceful]
    = Ok l
    /\ demo_solver ticket_state [plain; graceful]
       = Ok (Some graceful, Some (-1)%float, Some 0.8%float)
    /\ forall t, In t l ->
         flt (s_EK t) (b_EK (select_best l)) = false
         /\ (feq (s_EK t) (b_EK (select_best l)) = true ->
             fgt (s_G t) (b_G (select_best l)) = false).
Proof.
  destruct (solver_top_pick_is_lexicographic (-0.05)%float 0.5%float
              demo_energy demo_grace demo_kernel ticket_state [plain; graceful])
    as (l & r & Hl & _ & Hr & Hlex & _).
  - intros a [<-|[<-|[]]]; repeat split; eexists; reflexivity.
  - exists l. split; [exact Hl|]. split.
    + vm_compute. reflexivity.
    + intros t Hin. destruct (Hlex t Hin) as (H1 & H2 & _). auto.
Defined.

(** C5, as stated, fails: the action the solver returns need not minimise
    effective cost.  [cheap] has effective cost -2 and [graceful] -1; the
    top pick [cheap] misses the coherence floor 0.5 and the retry returns
    [graceful]. *)
Lemma solver_retry_returns_costlier_candidate :
  score_all demo_energy demo_grace demo_kernel ticket_state [cheap; graceful]
  = Ok [(cheap, (-2)%float, (-1)%float, 0.1%float);
        (graceful, (-1)%float, (-1)%float, 0.8%float)]
  /\ flt (-2)%float (-1)%float = true
  /\ demo_solver ticket_state [cheap; graceful]
     = Ok (Some graceful, Some (-1)%float, Some 0.8%float).
Proof. vm_compute. repeat split; reflexivity. Qed.

(** C6: the claim promises Stand when no candidate's raw cost is below the
    threshold.  With a valid ticket, a clean context and the one candidate
    [idle] (raw cost 0, threshold -0.05) the solver returns no move and
    the paradox gate would answer Stand; [decide] raises [AttributeError]
    at the apophatic rail instead. *)
Theorem no_viable_candidate_raises_before_stand
    (repair_max_days : float) (ledger_required : bool)
    (price_externalities antimemory_countercontext : State -> Action -> result dict)
    (attach_pca : string -> ProofBundle -> result string) :
  check_consent 2000%float ticket_state None
  = Ok (true, [("tickets", VList [ticket_dict hour_ticket])])
  /\ ApophaticGuard.admissible (context ticket_state) (params idle) = true
  /\ demo_energy ticket_state idle = Ok 0%float
  /\ fge 0%float (-0.05)%float = true
  /\ demo_solver ticket_state [idle] = Ok no_move
  /\ pgl_decide ticket_state None
       {| logic := [("truth", VStr "N"); ("apophatic_ok", VBool true)];
          ethics := [];
          consent := [("ok", VBool true);
                      ("tickets", VList [ticket_dict hour_ticket])];
          phenomenology := []; repair_horizon := None |} N = Stand
  /\ decide (-0.05)%float 0.5%float repair_max_days ledger_required
       demo_energy demo_grace demo_kernel price_externalities
       antimemory_countercontext attach_pca 2000%float ticket_state [idle]
     = Raise AttributeError.
Proof.
  assert (H : check_consent 2000%float ticket_state None
              = Ok (true, [("tickets", VList [ticket_dict hour_ticket])]))
    by (vm_compute; reflexivity).
  split; [exact H|].
  split; [vm_compute; reflexivity|]. split; [reflexivity|].
  split; [vm_compute; reflexivity|]. split; [vm_compute; reflexivity|].
  split; [reflexivity|].
  unfold decide. rewrite H. reflexivity.
Qed.

End DecisionFacts.

(* ================================================================== *)
(** * Proof tokens *)
(* ================================================================== *)

Module TokenFacts.
Import ProofCarryingAdvice.

(** Distinct literal keys. *)
Ltac nodup_keys :=
  cbn;
  repeat first
    [ apply NoDup_nil_2
    | apply NoDup_cons_2;
      [ rewrite ?elem_of_cons, elem_of_nil; intuition discriminate | ] ].

(** ** The order of keys *)

Lemma string_compare_lt_trans (s1 s2 s3 : string) :
  String.compare s1 s2 = Lt -> String.compare s2 s3 = Lt ->
  String.compare s1 s3 = Lt.
Proof.
  revert s2 s3. induction s1 as [|c1 s1 IH]; intros [|c2 s2] [|c3 s3]; cbn;
    try congruence.
  unfold Ascii.compare.
  destruct (N.compare_spec (N_of_ascii c1) (N_of_ascii c2)) as [E12|L12|G12];
    destruct (N.compare_spec (N_of_ascii c2) (N_of_ascii c3)) as [E23|L23|G23];
    try congruence; intros H12 H23.
  - rewrite E12, E23, N.compare_refl. eapply IH; eassumption.
  - rewrite E12. now apply N.compare_lt_iff in L23 as ->.
  - rewrite <- E23. now apply N.compare_lt_iff in L12 as ->.
  - assert (L : (N_of_ascii c1 < N_of_ascii c3)%N) by lia.
    now apply N.compare_lt_iff in L as ->.
Qed.

Lemma ltb_trans a b c :
  String.ltb a b = true -> String.ltb b c = true -> String.ltb a c = true.
Proof.
  unfold String.ltb.
  destruct (String.compare a b) eqn:Eab; try discriminate.
  destruct (String.compare b c) eqn:Ebc; try discriminate.
  now rewrite (string_compare_lt_trans a b c Eab Ebc).
Qed.

Lemma ltb_asym a b : String.ltb a b = true -> String.ltb b a = false.
Proof.
  unfold String.ltb. rewrite (String.compare_antisym b a).
  destruct (String.compare a b); cbn; congruence.
Qed.

Lemma ltb_total a b :
  a <> b -> String.ltb a b = true \/ String.ltb b a = true.
Proof.
  intros Hne. unfold String.ltb. rewrite (String.compare_antisym b a).
  destruct (String.compare a b) eqn:E; cbn; auto.
  apply String.compare_eq_iff in E. contradiction.
Qed.

(** ** Sorting the items *)

Section Sorting.

Context {A : Type}.
Implicit Types (x y : string * A) (l : list (string * A)).

Lemma insert_item_comm x y l :
  fst x <> fst y ->
  insert_item x (insert_item y l) = insert_item y (insert_item x l).
Proof.
  intros Hne.
  assert (Hswap : forall x y, String.ltb (fst x) (fst y) = true ->
            forall l, insert_item x (insert_item y l)
                      = insert_item y (insert_item x l)).
  { clear. intros x y Hxy. induction l as [|z l IH]; cbn.
    - rewrite Hxy, (ltb_asym _ _ Hxy). reflexivity.
    - destruct (String.ltb (fst z) (fst x)) eqn:Ezx.
      + rewrite (ltb_trans _ _ _ Ezx Hxy). cbn.
        rewrite Ezx, (ltb_trans _ _ _ Ezx Hxy), IH. reflexivity.
      + cbn. rewrite Hxy. cbn.
        destruct (String.ltb (fst z) (fst y)) eqn:Ezy; cbn.
        * rewrite Ezx. reflexivity.
        * rewrite (ltb_asym _ _ Hxy). reflexivity. }
  destruct (ltb_total _ _ Hne) as [H|H]; [now apply Hswap|].
  symmetry. now apply Hswap.
Qed.

Lemma sort_items_perm l1 l2 :
  NoDup (List.map fst l1) -> Permutation l1 l2 ->
  sort_items l1 = sort_items l2.
Proof.
  intros Hnd Hperm. induction Hperm as [|x l l' _ IH|x y l|l l' l'' H1 IH1 H2 IH2].
  - reflexivity.
  - cbn. rewrite IH; [reflexivity|]. cbn in Hnd. now apply NoDup_cons in Hnd.
  - cbn. apply insert_item_comm. cbn in Hnd.
    apply NoDup_cons in Hnd. destruct Hnd as [Hnotin _].
    intros Heq. apply Hnotin. rewrite Heq. now left.
  - rewrite IH1 by exact Hnd. apply IH2.
    pose proof (Permutation_map fst H1) as Hkeys. now rewrite <- Hkeys.
Qed.

End Sorting.

Section Tokens.

Variable float_repr : float -> string.
Variable json_string : string -> string.
Variable blake2b_hex : string -> string.

Local Abbreviation json_dumps := (json_dumps float_repr json_string).
Local Abbreviation written := (written float_repr json_string).
Local Abbreviation blake := (blake float_repr json_string blake2b_hex).
Local Abbreviation _mk_proof := (_mk_proof float_repr json_string blake2b_hex).

Lemma json_dumps_dict d :
  json_dumps (VDict d) =
  ("{" ++ join ", " (List.map (fun kv => json_string (fst kv) ++ ": " ++ snd kv)
                       (sort_items (written d))) ++ "}")%string.
Proof. reflexivity. Qed.

(** The text does not depend on the order in which a dictionary holds its
    items. *)
Lemma json_dumps_same : forall v1 v2, same v1 v2 -> json_dumps v1 = json_dumps v2.
Proof.
  induction v1 as [| b | z | f | s | l IH | d IH] using value_ind';
    intros v2 Hsame; inversion Hsame; subst; try reflexivity.
  - (* lists *)
    cbn. do 3 f_equal.
    clear Hsame.
    match goal with H : Forall2 same _ _ |- _ => induction H as [|v v' l l' Hv _ IHl] end;
      [reflexivity|].
    cbn. apply Forall_cons in IH. destruct IH as [IHv IHrest].
    rewrite (IHv _ Hv), (IHl IHrest). reflexivity.
  - (* dictionaries *)
    rewrite !json_dumps_dict. do 4 f_equal.
    match goal with
    | Hnd : NoDup (List.map fst d), Hp : Permutation d ?d',
      H2 : Forall2 _ ?d' _ |- _ =>
        rename d' into d1'; rename Hnd into Hnodup; rename Hp into Hperm;
        rename H2 into Hitems
    end.
    transitivity (sort_items (written d1')).
    + apply sort_items_perm.
      * unfold written. rewrite List.map_map. exact Hnodup.
      * now apply Permutation_map.
    + f_equal. unfold written.
      assert (IH' : Forall (fun kv => forall v2, same (snd kv) v2 ->
                        json_dumps (snd kv) = json_dumps v2) d1').
      { rewrite Forall_forall in *. intros kv Hin. apply IH.
        now rewrite Hperm. }
      clear Hperm Hnodup IH Hsame.
      induction Hitems as [|kv kv' l l' [Hk Hv] _ IHl]; [reflexivity|].
      cbn. apply Forall_cons in IH'. destruct IH' as [IHkv IHrest].
      rewrite Hk, (IHkv _ Hv), (IHl IHrest). reflexivity.
Qed.

(** C4: the token of a proof is a function of its name, outcome and
    details alone.  Building the proof again from the same name, the same
    outcome and details that are the same dictionary (the same keys with
    the same values, nested dictionaries included, in whatever order the
    items were inserted) yields the same token. *)
Theorem proof_token_is_deterministic (name : string) (ok : bool)
    (details1 details2 : dict) :
  same (VDict details1) (VDict details2) ->
  token (_mk_proof name ok details1) = token (_mk_proof name ok details2).
Proof.
  intros Hsame. unfold ProofCarryingAdvice._mk_proof, ProofCarryingAdvice.blake.
  cbn [token]. f_equal. apply json_dumps_same.
  apply (same_dict _ _ [("name", VStr name); ("ok", VBool ok);
                        ("details", VDict details1)]).
  - nodup_keys.
  - reflexivity.
  - repeat constructor; cbn; try exact Hsame; auto using same.
Qed.

End Tokens.

Lemma proof_token_is_deterministic_witness :
  same (VDict details_a) (VDict details_b)
  /\ token (_mk_proof demo_repr demo_quote demo_digest "consent" true details_a)
     = token (_mk_proof demo_repr demo_quote demo_digest "consent" true details_b).
Proof.
  assert (H : same (VDict details_a) (VDict details_b)).
  { apply (same_dict _ _ details_b).
    - nodup_keys.
    - apply perm_swap.
    - repeat constructor. }
  split; [exact H|].
  exact (proof_token_is_deterministic demo_repr demo_quote demo_digest
           "consent" true details_a details_b H).
Defined.

End TokenFacts.

(* ================================================================== *)
(** * More on the apophatic guard *)
(* ================================================================== *)

Module GuardExtra.
Import ApophaticGuard ApophaticFacts.

Lemma has_dot_app a b : has_dot (a ++ b)%string = (has_dot a || has_dot b)%bool.
Proof.
  induction a as [|c a IH]; [reflexivity|].
  change (has_dot (String c a ++ b)%string)
    with (Ascii.eqb c "." || has_dot (a ++ b)%string)%bool.
  rewrite IH. cbn. now rewrite orb_assoc.
Qed.

Lemma has_dot_join prefix k : prefix <> "" -> has_dot (join_key prefix k) = true.
Proof.
  intros Hp. unfold join_key.
  destruct (String.eqb_spec prefix ""); [contradiction|].
  rewrite has_dot_app. cbn. apply orb_true_r.
Qed.

Lemma has_dot_nonempty s : has_dot s = true -> s <> "".
Proof. intros H ->. discriminate. Qed.

Lemma dotted_insert k v m : has_dot k = true -> dotted m -> dotted (<[k := v]> m).
Proof.
  intros Hk Hm k' Hsome. destruct (decide (k = k')) as [<-|Hne]; [exact Hk|].
  rewrite lookup_insert_ne in Hsome by exact Hne. now apply Hm.
Qed.

Lemma flatten_item_dotted v : forall key m,
  has_dot key = true -> dotted m -> dotted (flatten_item v key m).
Proof.
  induction v as [| b | z | f | s | l _ | d IH] using value_ind';
    intros key m Hkey Hm; cbn; try (now apply dotted_insert).
  revert m Hm. induction d as [|[k0 v0] d IHd]; intros m Hm; [exact Hm|].
  apply Forall_cons in IH. destruct IH as [IH0 IHrest].
  apply (IHd IHrest). apply IH0; [|exact Hm].
  apply has_dot_join. now apply has_dot_nonempty.
Qed.

Lemma flatten_dict_under_key_dotted d : forall key m,
  key <> "" -> dotted m -> dotted (flatten_item (VDict d) key m).
Proof.
  intros key. cbn. induction d as [|[k0 v0] d IHd]; intros m Hkey Hm; [exact Hm|].
  apply IHd; [exact Hkey|]. apply flatten_item_dotted; [|exact Hm].
  now apply has_dot_join.
Qed.

Lemma flatten_nested_dotted l : forall m,
  (forall k v, In (k, v) l -> k <> "" /\ exists d, v = VDict d) ->
  dotted m -> dotted (flatten_items l "" m).
Proof.
  induction l as [|[k0 v0] l IH]; intros m Hl Hm; [exact Hm|].
  cbn [flatten_items]. apply IH; [intros k v Hin; apply Hl; now right|].
  destruct (Hl k0 v0 (or_introl eq_refl)) as [Hk [d ->]].
  change (join_key "" k0) with k0. now apply flatten_dict_under_key_dotted.
Qed.

Lemma guarded_keys_have_no_dot k :
  In k FORBIDDEN_KEYS \/ In k CONSTRAINT_ONLY -> has_dot k = false.
Proof.
  intros [H|H]; cbn in H;
    repeat (destruct H as [<-|H]; [reflexivity|]); destruct H.
Qed.

(** X1: The guard sees nothing of what lies inside sub-dictionaries: when
    every top-level value of the context and of the parameters is a
    dictionary under a key that is not empty, the request is admitted,
    whatever those dictionaries hold at whatever depth. *)
Theorem nested_content_is_always_admitted (context params : dict) :
  (forall k v, In (k, v) context \/ In (k, v) params ->
               k <> "" /\ exists d, v = VDict d) ->
  admissible context params = true.
Proof.
  intros Hnested.
  assert (Hdot : dotted (_flatten_dict params ∪ _flatten_dict context)).
  { intros k Hsome. apply lookup_union_is_Some in Hsome. unfold _flatten_dict in Hsome.
    destruct Hsome as [Hsome|Hsome];
      (eapply flatten_nested_dotted; [|intros k' Hk'|exact Hsome]).
    - intros k' v Hin. apply Hnested. now right.
    - rewrite lookup_empty in Hk'. now destruct Hk'.
    - intros k' v Hin. apply Hnested. now left.
    - rewrite lookup_empty in Hk'. now destruct Hk'. }
  assert (Hnone : forall k, In k FORBIDDEN_KEYS \/ In k CONSTRAINT_ONLY ->
            (_flatten_dict params ∪ _flatten_dict context) !! k = None).
  { intros k Hk.
    destruct ((_flatten_dict params ∪ _flatten_dict context) !! k) as [v|] eqn:E;
      [|reflexivity].
    assert (Hd : has_dot k = true) by (apply Hdot; rewrite E; eauto).
    rewrite (guarded_keys_have_no_dot k Hk) in Hd. discriminate. }
  unfold admissible.
  destruct (existsb _ FORBIDDEN_KEYS) eqn:Ef.
  { apply existsb_exists in Ef. destruct Ef as (k & Hk & Hhas).
    unfold has_key in Hhas. rewrite (Hnone k (or_introl Hk)) in Hhas. discriminate. }
  destruct (existsb _ CONSTRAINT_ONLY) eqn:Ec; [|reflexivity].
  apply existsb_exists in Ec. destruct Ec as (k & Hk & Hv).
  unfold violates in Hv. rewrite (Hnone k (or_intror Hk)) in Hv. discriminate.
Qed.

Lemma nested_content_is_always_admitted_witness :
  admissible [("session", VDict [("sovereign_claim", VStr "mine")])]
             [("deep", VDict [("deeper", VDict [("ground_is", VStr "hidden here")])]);
              ("hints", VDict [("no_image", VBool false)])] = true.
Proof.
  apply nested_content_is_always_admitted.
  intros k v [[[= <- <-]|[]]|[[= <- <-]|[[= <- <-]|[]]]];
    (split; [discriminate|eexists; reflexivity]).
Defined.

(** ** Flat dictionaries *)

Lemma dict_get_not_in k (d : dict) : ~ In k (List.map fst d) -> dict_get k d = None.
Proof.
  induction d as [|[k0 v0] d IH]; intros Hk; cbn; [reflexivity|].
  destruct (String.eqb_spec k k0) as [->|Hne]; [exfalso; apply Hk; now left|].
  apply IH. intros Hin. apply Hk. now right.
Qed.

Lemma flatten_flat_lookup d : forall (m : gmap string value) k,
  NoDup (List.map fst d) -> flat d ->
  flatten_items d "" m !! k =
  match dict_get k d with Some v => Some v | None => m !! k end.
Proof.
  induction d as [|[k0 v0] d IH]; intros m k Hnd Hflat; [reflexivity|].
  cbn [flatten_items dict_get List.map fst] in *.
  apply NoDup_cons in Hnd. destruct Hnd as [Hnotin Hnd].
  rewrite IH; [|exact Hnd|intros k' v' Hin; apply (Hflat k' v'); now right].
  change (join_key "" k0) with k0.
  assert (Hleaf : flatten_item v0 k0 m = <[k0 := v0]> m).
  { specialize (Hflat k0 v0 (or_introl eq_refl)). destruct v0; cbn in *;
      try reflexivity; contradiction. }
  rewrite Hleaf. destruct (String.eqb_spec k k0) as [->|Hne].
  - rewrite dict_get_not_in, lookup_insert_eq; [reflexivity|].
    intros Hin. apply Hnotin. now apply list_elem_of_In.
  - destruct (dict_get k d); [reflexivity|].
    now rewrite lookup_insert_ne by congruence.
Qed.

Lemma combined_flat_lookup context params k :
  NoDup (List.map fst context) -> flat context ->
  NoDup (List.map fst params) -> flat params ->
  (_flatten_dict params ∪ _flatten_dict context) !! k = merged_get context params k.
Proof.
  intros Hc1 Hc2 Hp1 Hp2. unfold _flatten_dict, merged_get.
  rewrite lookup_union, !flatten_flat_lookup by assumption.
  rewrite !lookup_empty.
  destruct (dict_get k params), (dict_get k context); reflexivity.
Qed.

(** X2: On dictionaries without nesting the guard is exactly its two rules,
    read on the context overlaid with the parameters: no forbidden key is
    present, and every constrained key that is present holds [True] or
    ["enforced"] (or a number equal to [True]).  A parameter replaces a
    context entry of the same key. *)
Theorem flat_guard_is_its_two_rules (context params : dict) :
  NoDup (List.map fst context) -> flat context ->
  NoDup (List.map fst params) -> flat params ->
  admissible context params = true <->
  (forall k, In k FORBIDDEN_KEYS -> merged_get context params k = None)
  /\ (forall k v, In k CONSTRAINT_ONLY -> merged_get context params k = Some v ->
                  affirmed v = true).
Proof.
  intros Hc1 Hc2 Hp1 Hp2.
  pose proof (fun k => combined_flat_lookup context params k Hc1 Hc2 Hp1 Hp2) as Hlook.
  unfold admissible. split.
  - intros Hadm.
    destruct (existsb _ FORBIDDEN_KEYS) eqn:Ef; [discriminate|].
    destruct (existsb _ CONSTRAINT_ONLY) eqn:Ec; [discriminate|].
    split.
    + intros k Hk. rewrite <- Hlook.
      destruct (_ !! k) as [v|] eqn:E; [|reflexivity].
      assert (existsb (fun k => has_key k (_flatten_dict params ∪ _flatten_dict context))
                FORBIDDEN_KEYS = true); [|congruence].
      apply existsb_exists. exists k. split; [exact Hk|]. unfold has_key. now rewrite E.
    + intros k v Hk Hv. rewrite <- Hlook in Hv.
      destruct (affirmed v) eqn:Ea; [reflexivity|].
      assert (existsb (violates (_flatten_dict params ∪ _flatten_dict context))
                CONSTRAINT_ONLY = true); [|congruence].
      apply existsb_exists. exists k. split; [exact Hk|].
      unfold violates. now rewrite Hv, Ea.
  - intros [Hf Hc].
    destruct (existsb _ FORBIDDEN_KEYS) eqn:Ef.
    { apply existsb_exists in Ef. destruct Ef as (k & Hk & Hhas).
      unfold has_key in Hhas. rewrite Hlook, (Hf k Hk) in Hhas. discriminate. }
    destruct (existsb _ CONSTRAINT_ONLY) eqn:Ec; [|reflexivity].
    apply existsb_exists in Ec. destruct Ec as (k & Hk & Hv).
    unfold violates in Hv. rewrite Hlook in Hv.
    destruct (merged_get context params k) as [v|] eqn:E; [|discriminate].
    rewrite (Hc k v Hk E) in Hv. discriminate.
Qed.

Lemma flat_guard_is_its_two_rules_witness :
  admissible [("no_image", VBool false); ("topic", VStr "x")] valid_params = true.
Proof.
  apply flat_guard_is_its_two_rules.
  - TokenFacts.nodup_keys.
  - intros k v [[= <- <-]|[[= <- <-]|[]]]; exact I.
  - TokenFacts.nodup_keys.
  - intros k v [[= <- <-]|[[= <- <-]|[[= <- <-]|[]]]]; exact I.
  - split.
    + intros k Hk. cbn in Hk.
      repeat (destruct Hk as [<-|Hk]; [reflexivity|]). destruct Hk.
    + intros k v Hk. cbn in Hk.
      repeat (destruct Hk as [<-|Hk]; [cbn; intros [= <-]; reflexivity|]).
      destruct Hk.
Defined.

Lemma top_level_forbidden_key_is_rejected_witness :
  admissible [("final_owner", VInt 7)] valid_params = false.
Proof.
  apply (top_level_forbidden_key_is_rejected _ _ "final_owner" (VInt 7)).
  - cbn. tauto.
  - exact I.
  - right. now left.
Defined.

(** ** The detailed check *)

Lemma existsb_perm {A : Type} (f : A -> bool) l l' :
  Permutation l l' -> existsb f l = existsb f l'.
Proof.
  induction 1 as [|x l l' _ IH|x y l|l l' l'' _ IH1 _ IH2]; cbn.
  - reflexivity.
  - now rewrite IH.
  - destruct (f x), (f y); reflexivity.
  - now rewrite IH1.
Qed.

Lemma filter_nil_existsb {A : Type} (f : A -> bool) l :
  List.filter f l = [] <-> existsb f l = false.
Proof.
  induction l as [|x l IH]; cbn; [tauto|].
  destruct (f x); cbn; [split; discriminate|exact IH].
Qed.

(** X4: [check_detailed] gives the verdict of [admissible], in whatever order
    the key sets are walked, and warning markers never change it: when the
    verdict is [True] the messages are the warnings and nothing else. *)
Theorem detailed_verdict_is_the_guards
    (forbidden_order constraint_order warn_order : list string)
    (context params : dict) :
  Permutation forbidden_order FORBIDDEN_KEYS ->
  Permutation constraint_order CONSTRAINT_ONLY ->
  fst (check_detailed forbidden_order constraint_order warn_order context params)
  = admissible context params
  /\ (admissible context params = true ->
      snd (check_detailed forbidden_order constraint_order warn_order context params)
      = List.map (fun k => ("warning:" ++ k)%string)
          (List.filter
             (fun k => has_key k (_flatten_dict params ∪ _flatten_dict context))
             warn_order)).
Proof.
  intros Hf Hc. unfold check_detailed, admissible. cbn [fst snd].
  rewrite <- (existsb_perm _ _ _ Hf), <- (existsb_perm _ _ _ Hc).
  destruct (existsb _ forbidden_order) eqn:Ef.
  - split; [|discriminate].
    destruct (List.filter _ forbidden_order) as [|k l] eqn:El; [|reflexivity].
    apply filter_nil_existsb in El. congruence.
  - apply filter_nil_existsb in Ef. rewrite Ef. cbn [List.map app].
    destruct (existsb _ constraint_order) eqn:Ec.
    + split; [|discriminate].
      destruct (List.filter _ constraint_order) as [|k l] eqn:El; [|reflexivity].
      apply filter_nil_existsb in El. congruence.
    + apply filter_nil_existsb in Ec. rewrite Ec. split; reflexivity.
Qed.

Lemma detailed_verdict_is_the_guards_witness :
  check_detailed (rev FORBIDDEN_KEYS) (rev CONSTRAINT_ONLY) WARN_MARKERS
    [] [("meta_closure", VBool true); ("no_image", VStr "enforced")]
  = (true, ["warning:meta_closure"]).
Proof.
  destruct (detailed_verdict_is_the_guards (rev FORBIDDEN_KEYS)
              (rev CONSTRAINT_ONLY) WARN_MARKERS
              [] [("meta_closure", VBool true); ("no_image", VStr "enforced")])
    as [Hfst Hsnd].
  - symmetry. apply Permutation_rev.
  - symmetry. apply Permutation_rev.
  - destruct (check_detailed _ _ _ _ _) as [verdict messages]. cbn [fst snd] in *.
    rewrite Hfst, Hsnd by (vm_compute; reflexivity). vm_compute. reflexivity.
Defined.

End GuardExtra.

(* ================================================================== *)
(** * More on consent tickets *)
(* ================================================================== *)

Module ConsentExtra.
Import ConsentChecker ConsentFacts.

(** ** The scope lattice *)

Lemma level_of_known s : is_Some (level_of scope_levels s) <-> In s SCOPES.
Proof.
  unfold SCOPES, scope_levels. cbn.
  repeat match goal with
  | |- context [String.eqb s ?k] =>
      destruct (String.eqb_spec s k) as [->|?]; [split; intros; eauto 10|]
  end.
  split; [intros [x Hx]; discriminate|].
  intros H. repeat (destruct H as [<-|H]; [congruence|]). destruct H.
Qed.

Lemma level_of_inj a b n :
  level_of scope_levels a = Some n -> level_of scope_levels b = Some n -> a = b.
Proof.
  unfold scope_levels. cbn.
  repeat match goal with
  | |- context [String.eqb a ?k] =>
      destruct (String.eqb_spec a k) as [->|?];
      [intros [= <-];
       repeat match goal with
       | |- context [String.eqb b ?k'] =>
           destruct (String.eqb_spec b k') as [->|?];
           [intros Hb; first [reflexivity|discriminate Hb]|]
       end; intros Hb; discriminate Hb|]
  end.
  discriminate.
Qed.

Lemma can_escalate_trans a b c :
  can_escalate a b = true -> can_escalate b c = true -> can_escalate a c = true.
Proof.
  intros Hab Hbc. apply can_escalate_spec in Hab, Hbc.
  destruct Hab as (x & y & Ha & Hb & Hxy), Hbc as (y' & z & Hb' & Hc & Hyz).
  rewrite Hb in Hb'. injection Hb' as <-.
  apply can_escalate_spec. exists x, z. repeat split; auto. lia.
Qed.

(** X5: [can_escalate] orders the five scopes in a chain, self below dyad below
    group below org below public, and holds of nothing else: it is
    reflexive on the known scopes, transitive, antisymmetric and total on
    them, and false as soon as either scope is unknown.  So a ticket covers
    its own scope and the narrower ones, never a wider one. *)
Theorem can_escalate_is_a_chain :
  (forall a b, can_escalate a b = true -> In a SCOPES /\ In b SCOPES)
  /\ (forall a, In a SCOPES -> can_escalate a a = true)
  /\ (forall a b c, can_escalate a b = true -> can_escalate b c = true ->
                    can_escalate a c = true)
  /\ (forall a b, can_escalate a b = true -> can_escalate b a = true -> a = b)
  /\ (forall a b, In a SCOPES -> In b SCOPES ->
                  can_escalate a b = true \/ can_escalate b a = true)
  /\ (forall a, In a SCOPES ->
                can_escalate "public" a = true /\ can_escalate a "self" = true).
Proof.
  split; [|split; [|split; [|split; [|split]]]].
  - intros a b H. apply can_escalate_spec in H.
    destruct H as (x & y & Ha & Hb & _).
    split; apply level_of_known; eauto.
  - intros a Ha. apply level_of_known in Ha. destruct Ha as [x Hx].
    apply can_escalate_spec. exists x, x. repeat split; auto. lia.
  - exact can_escalate_trans.
  - intros a b Hab Hba. apply can_escalate_spec in Hab, Hba.
    destruct Hab as (x & y & Ha & Hb & Hxy), Hba as (y' & x' & Hb' & Ha' & Hyx).
    rewrite Hb in Hb'. rewrite Ha in Ha'. injection Hb' as <-. injection Ha' as <-.
    assert (x = y) by lia. subst y. eapply level_of_inj; eassumption.
  - intros a b Ha Hb. apply level_of_known in Ha, Hb.
    destruct Ha as [x Hx], Hb as [y Hy].
    destruct (Z.le_ge_cases x y); [right|left]; apply can_escalate_spec;
      eexists _, _; repeat split; eauto; lia.
  - intros a Ha. cbn in Ha.
    repeat (destruct Ha as [<-|Ha]; [split; reflexivity|]). destruct Ha.
Qed.

(** ** Tickets over time *)

Lemma use_unchanged_when_full now t :
  (max_invocations t <= invocations t)%Z ->
  snd (use now t) = t /\ fst (use now t) <> Ok true.
Proof.
  intros Hfull. unfold use.
  destruct (is_valid now t) as [[|]|e] eqn:E; cbn; try (split; [reflexivity|discriminate]).
  apply is_valid_true_room in E. lia.
Qed.

(** X6: A ticket whose invocations have reached [max_invocations] is spent for
    good: every later [use()], at any time, fails and leaves it as it
    is. *)
Theorem spent_ticket_stays_spent (t : ConsentTicket) (nows : list float) :
  (max_invocations t <= invocations t)%Z ->
  use_all nows t = t /\ forall now, In now nows -> fst (use now t) <> Ok true.
Proof.
  intros Hfull. split.
  - unfold use_all. induction nows as [|now nows IH]; cbn; [reflexivity|].
    destruct (use_unchanged_when_full now t Hfull) as [-> _]. exact IH.
  - intros now _. now apply use_unchanged_when_full.
Qed.

Lemma spent_ticket_stays_spent_witness :
  use_all [1001; 1002; 9000]%float (bump (bump ticket1)) = bump (bump ticket1).
Proof.
  apply (spent_ticket_stays_spent (bump (bump ticket1))). cbn. lia.
Defined.

(** X7: An expired ticket stays expired as the clock moves on: once a reading
    is past [issued_at + ttl_seconds], every later reading finds the ticket
    invalid, and [use()] fails without touching it. *)
Theorem expired_ticket_stays_expired (t : ConsentTicket) (ttl now later : float) :
  float_of_int (ttl_seconds t) = Ok ttl ->
  fgt now (issued_at t + ttl)%float = true ->
  fle now later = true ->
  is_valid later t = Ok false /\ use later t = (Ok false, t).
Proof.
  intros Httl Hexp Hlater.
  assert (Hv : is_valid later t = Ok false).
  { apply (is_valid_false_iff later t ttl Httl). left.
    rewrite fgt_flt in *. eapply flt_fle_trans; eassumption. }
  split; [exact Hv|]. unfold use. now rewrite Hv.
Qed.

Lemma expired_ticket_stays_expired_witness :
  is_valid 5000%float ticket1 = Ok false
  /\ use 5000%float ticket1 = (Ok false, ticket1).
Proof.
  apply (expired_ticket_stays_expired ticket1 10%float 1011%float 5000%float);
    vm_compute; reflexivity.
Defined.

Lemma bump_within t ttl now : within_lifetime t ttl now -> within_lifetime (bump t) ttl now.
Proof. exact (fun H => H). Qed.

(** X8: Within its lifetime a ticket is good for exactly as many uses as it has
    invocations left.  After [n] calls of [use()], on any ticket, the count
    is [max(invocations, min(invocations + n, max_invocations))]: a count
    that starts at or below the cap ends at
    [min(invocations + n, max_invocations)], and a count that starts above
    the cap does not move. *)
Theorem uses_are_counted_up_to_the_cap (ttl : float) (nows : list float) :
  forall t : ConsentTicket,
  float_of_int (ttl_seconds t) = Ok ttl ->
  (forall now, In now nows -> within_lifetime t ttl now) ->
  invocations (use_all nows t)
  = Z.max (invocations t)
          (Z.min (invocations t + Z.of_nat (length nows)) (max_invocations t))
  /\ ((invocations t <= max_invocations t)%Z ->
      invocations (use_all nows t)
      = Z.min (invocations t + Z.of_nat (length nows)) (max_invocations t))
  /\ ((max_invocations t < invocations t)%Z ->
      invocations (use_all nows t) = invocations t).
Proof.
  assert (Hcount : forall t : ConsentTicket,
            float_of_int (ttl_seconds t) = Ok ttl ->
            (forall now, In now nows -> within_lifetime t ttl now) ->
            invocations (use_all nows t)
            = Z.max (invocations t)
                (Z.min (invocations t + Z.of_nat (length nows))
                       (max_invocations t))).
  { unfold use_all. induction nows as [|now nows IH]; intros t Httl Hin.
    - cbn. lia.
    - cbn [fold_left length].
      assert (Hnow : within_lifetime t ttl now) by (apply Hin; now left).
      assert (Hv : is_valid now t
                   = Ok (negb (Z.geb (invocations t) (max_invocations t)))).
      { rewrite (is_valid_spec now t ttl Httl). unfold within_lifetime in Hnow.
        now rewrite Hnow. }
      unfold use at 2. rewrite Hv.
      destruct (Z.geb_spec (invocations t) (max_invocations t)) as [Hfull|Hroom];
        cbn [negb snd].
      + rewrite IH; [lia|exact Httl|intros n Hn; apply Hin; now right].
      + rewrite IH.
        * cbn. lia.
        * exact Httl.
        * intros n Hn. apply bump_within, Hin. now right. }
  intros t Httl Hin. rewrite (Hcount t Httl Hin).
  split; [reflexivity|]. split; intros Hstart; lia.
Qed.

(** The ticket for two invocations, used three times within its ten
    seconds: the count stops at 2. *)
Lemma uses_are_counted_up_to_the_cap_witness :
  invocations (use_all [1001; 1002; 1003]%float ticket1) = 2%Z.
Proof.
  destruct (uses_are_counted_up_to_the_cap 10%float [1001; 1002; 1003]%float
              ticket1) as (_ & Hcap & _).
  - vm_compute. reflexivity.
  - intros now [<-|[<-|[<-|[]]]]; vm_compute; reflexivity.
  - rewrite Hcap; [reflexivity|cbn; lia].
Defined.

(** ** Checking a context *)

Lemma any_valid_complete now p tickets :
  (forall t, In t tickets -> exists v, is_valid now t = Ok v) ->
  (exists t, In t tickets /\ is_valid now t = Ok true /\ p t = true) ->
  any_valid now p tickets = Ok true.
Proof.
  induction tickets as [|t0 rest IH]; intros Hok (t & Hin & Hv & Hp); [destruct Hin|].
  cbn. destruct (Hok t0 (or_introl eq_refl)) as [v0 Hv0]. rewrite Hv0. cbn.
  destruct (v0 && p t0)%bool eqn:E; [reflexivity|].
  apply IH; [intros t' Ht'; apply Hok; now right|].
  destruct Hin as [->|Hin]; [|eauto].
  rewrite Hv in Hv0. injection Hv0 as <-. rewrite Hp in E. discriminate.
Qed.

Lemma any_valid_weaken now (p q : ConsentTicket -> bool) tickets :
  (forall t, p t = true -> q t = true) ->
  any_valid now p tickets = Ok true -> any_valid now q tickets = Ok true.
Proof.
  intros Hpq. induction tickets as [|t0 rest IH]; cbn; [discriminate|].
  destruct (is_valid now t0) as [v|e]; cbn; [|discriminate].
  destruct v; cbn; [|exact IH].
  destruct (p t0) eqn:Ep; [now rewrite (Hpq t0 Ep)|].
  intros H. destruct (q t0); [reflexivity|now apply IH].
Qed.

(** X9: When no ticket's lifetime fails to convert, [check_context] passes for
    a target scope exactly when some ticket is valid and covers the target,
    and without a target exactly when some ticket is valid. *)
Theorem check_context_passes_iff (now : float) (tickets : list ConsentTicket)
    (target : string) :
  (forall t, In t tickets -> exists v, is_valid now t = Ok v) ->
  (check_context now tickets (Some target) = Ok true <->
   exists t, In t tickets /\ is_valid now t = Ok true
             /\ can_escalate (scope t) target = true)
  /\ (check_context now tickets None = Ok true <->
      exists t, In t tickets /\ is_valid now t = Ok true).
Proof.
  intros Hok. split; split.
  - intros H. destruct (check_context_sound now tickets target H)
      as (t & Hin & Hv & _ & Hc). eauto.
  - intros (t & Hin & Hv & Hc). unfold check_context.
    destruct tickets as [|t0 rest]; [destruct Hin|].
    apply any_valid_complete; eauto.
  - unfold check_context. destruct tickets as [|t0 rest]; [discriminate|].
    intros H. apply any_valid_sound in H. destruct H as (t & Hin & Hv & _). eauto.
  - intros (t & Hin & Hv). unfold check_context.
    destruct tickets as [|t0 rest]; [destruct Hin|].
    apply any_valid_complete; eauto.
Qed.

Lemma check_context_passes_iff_witness :
  check_context 1005%float [bump (bump ticket1); ticket1] (Some "dyad") = Ok true.
Proof.
  apply (check_context_passes_iff 1005%float [bump (bump ticket1); ticket1] "dyad").
  - intros t [<-|[<-|[]]]; eexists; vm_compute; reflexivity.
  - exists ticket1. split; [right; now left|]. split; vm_compute; reflexivity.
Defined.

(** X10: Consent de-escalates: a context that passes for a target scope passes
    for every scope that target covers, and passes when no target is
    asked for. *)
Theorem consent_carries_down (now : float) (tickets : list ConsentTicket)
    (target narrower : string) :
  check_context now tickets (Some target) = Ok true ->
  (can_escalate target narrower = true ->
   check_context now tickets (Some narrower) = Ok true)
  /\ check_context now tickets None = Ok true.
Proof.
  unfold check_context. destruct tickets as [|t0 rest]; [discriminate|].
  intros H. split.
  - intros Hdown. revert H. apply any_valid_weaken. intros t Ht.
    now apply (can_escalate_trans (scope t) target narrower).
  - revert H. now apply any_valid_weaken.
Qed.

(** A group ticket asked for the dyad scope also covers the self scope and
    the request without a target. *)
Lemma consent_carries_down_witness :
  check_context 1005%float [ticket1] (Some "self") = Ok true
  /\ check_context 1005%float [ticket1] None = Ok true.
Proof.
  destruct (consent_carries_down 1005%float [ticket1] "dyad" "self") as [Hdown Hnone].
  - vm_compute. reflexivity.
  - split; [apply Hdown; vm_compute; reflexivity|exact Hnone].
Defined.

End ConsentExtra.

(* ================================================================== *)
(** * More on the counter-draft *)
(* ================================================================== *)

Module TwinExtra.
Import ProofCarryingAdvice ShadowTwin ShadowTwinFacts.

Lemma dict_set_same k v d : dict_get k d = Some v -> dict_set k v d = d.
Proof.
  induction d as [|[k' v'] d IH]; simpl; [discriminate|].
  destruct (String.eqb_spec k k') as [->|Hne].
  - now intros [= ->].
  - intros H. now rewrite IH.
Qed.

Lemma dict_setdefault_present k v v0 d :
  dict_get k d = Some v0 -> dict_setdefault k v d = d.
Proof.
  intros H. unfold dict_setdefault. now rewrite dict_contains_get, H.
Qed.

Lemma append_assoc (a b c : string) : ((a ++ b) ++ c = a ++ b ++ c)%string.
Proof.
  induction a as [|x a IH]; [reflexivity|].
  change (String x ((a ++ b) ++ c) = String x (a ++ b ++ c))%string.
  now rewrite IH.
Qed.

Lemma py_max_idem a b : py_max a (py_max a b) = py_max a b.
Proof.
  unfold py_max. destruct (fgt b a) eqn:E; [now rewrite E|].
  rewrite fgt_flt. now rewrite flt_irrefl.
Qed.

(** Every counter of the table is itself in upper case and not empty, and
    all operators but TRANSCENSION are sent back by their counter. *)
Lemma invert_will_back w w' :
  invert_will w = Some w' ->
  upper w' = w' /\ w' <> ""
  /\ (w <> "TRANSCENSION" -> invert_will w' = Some w).
Proof.
  unfold invert_will, WILL_INVERT. cbn [lookup_will].
  repeat match goal with
  | |- context [String.eqb w ?k] =>
      destruct (String.eqb_spec w k) as [->|?];
      [intros [= <-]; split; [reflexivity|]; split; [discriminate|];
       intros Hne; first [reflexivity | now contradiction Hne]|]
  end.
  discriminate.
Qed.

Section InvertMore.

Variable float_of_str : string -> option float.

Local Abbreviation py_float := (py_float float_of_str).
Local Abbreviation harden_line := (harden_line float_of_str).
Local Abbreviation harden_lines := (harden_lines float_of_str).
Local Abbreviation _invert := (_invert float_of_str).

(** [_invert], with the two dictionary look-ups resolved. *)
Lemma invert_eq draft :
  _invert draft =
  (w ← str_upper (will_word draft);
   lines ← lines_of draft;
   lines' ← harden_lines BUDGET_KEYS lines;
   Ok {| id := (id draft ++ ":counter")%string; query := query draft;
         plan := dict_setdefault "rollback_recipe" (VStr DEFAULT_ROLLBACK)
                   (dict_set "budget_lines" (VDict lines')
                      (dict_setdefault "budget_lines" (VDict []) (plan draft)));
         params := match invert_will w with
                   | Some w' => dict_set "will" (VStr w') (params draft)
                   | None => params draft
                   end;
         context := context draft |}).
Proof.
  unfold ShadowTwin._invert, will_word, lines_of.
  destruct (str_upper _) as [w|e]; [|reflexivity].
  cbn -[ShadowTwin.harden_lines BUDGET_KEYS dict_setdefault dict_set dict_get
        invert_will].
  rewrite dict_get_setdefault_same.
  destruct (dict_get "budget_lines" (plan draft)) as [[]|]; reflexivity.
Qed.

Lemma will_word_text draft :
  (exists w, str_upper (will_word draft) = Ok w) <-> will_is_text draft.
Proof.
  unfold will_word, will_is_text, dict_get_default.
  destruct (dict_get "will" (params draft)) as [v|].
  - destruct (truthy v) eqn:Ev.
    + split.
      * intros [w Hw] v' [= <-] _. destruct v; try discriminate. now eexists.
      * intros H. destruct (H v eq_refl Ev) as [s ->]. now eexists.
    + split; [|intros _; now eexists].
      intros _ v' [= <-] Hv. congruence.
  - split; [|intros _; now eexists]. intros _ v' [=].
Qed.

Lemma will_word_not_text draft :
  ~ will_is_text draft -> str_upper (will_word draft) = Raise AttributeError.
Proof.
  intros H. destruct (str_upper (will_word draft)) as [w|e] eqn:E.
  - exfalso. apply H, will_word_text. now exists w.
  - unfold str_upper in E. destruct (will_word draft); congruence.
Qed.

Lemma harden_line_exact lines k lines' :
  harden_line lines k = Ok lines' ->
  exists f, py_float (dict_get_default k (VFloat 0%float) lines) = Ok f
            /\ lines' = dict_set k (VFloat (py_max FLOOR f)) lines.
Proof.
  unfold ShadowTwin.harden_line.
  destruct (py_float _) as [f|e]; cbn; [|discriminate].
  intros [= <-]. now exists f.
Qed.

Lemma harden_lines_exact keys : forall lines lines',
  List.NoDup keys ->
  harden_lines keys lines = Ok lines' ->
  (forall k, In k keys ->
     exists f, py_float (dict_get_default k (VFloat 0%float) lines) = Ok f
               /\ dict_get k lines' = Some (VFloat (py_max FLOOR f)))
  /\ (forall k, ~ In k keys -> dict_get k lines' = dict_get k lines).
Proof.
  induction keys as [|k0 keys IH]; intros lines lines' Hnd Hrun.
  - cbn in Hrun. injection Hrun as <-. split; [intros k []|reflexivity].
  - cbn [ShadowTwin.harden_lines] in Hrun.
    destruct (harden_line lines k0) as [l1|e] eqn:E1; cbn in Hrun; [|discriminate].
    destruct (harden_line_exact _ _ _ E1) as (f0 & Hf0 & ->).
    inversion Hnd as [|? ? Hk0 Hnd']; subst.
    destruct (IH _ _ Hnd' Hrun) as [Hin Hout]. split.
    + intros k [<-|Hk].
      * exists f0. split; [exact Hf0|].
        rewrite (Hout k0 Hk0). apply dict_get_set_same.
      * destruct (Hin k Hk) as (f & Hf & Hget). exists f. split; [|exact Hget].
        unfold dict_get_default in *.
        rewrite dict_get_set_other in Hf; [exact Hf|].
        intros ->. contradiction.
    + intros k Hk. rewrite Hout by (intros H; apply Hk; now right).
      apply dict_get_set_other. intros ->. apply Hk. now left.
Qed.

Lemma harden_lines_fixed keys : forall lines,
  (forall k, In k keys ->
     exists f, dict_get k lines = Some (VFloat (py_max FLOOR f))) ->
  harden_lines keys lines = Ok lines.
Proof.
  induction keys as [|k0 keys IH]; intros lines H; [reflexivity|].
  cbn [ShadowTwin.harden_lines]. unfold ShadowTwin.harden_line, dict_get_default.
  destruct (H k0 (or_introl eq_refl)) as [f Hf]. rewrite Hf. cbn.
  rewrite py_max_idem, (dict_set_same _ _ _ Hf).
  apply IH. intros k Hk. apply H. now right.
Qed.

Lemma budget_keys_nodup : List.NoDup BUDGET_KEYS.
Proof.
  unfold BUDGET_KEYS.
  repeat (constructor; [cbn; intuition discriminate|]). constructor.
Qed.

Lemma lines_of_declared draft lines :
  lines_of draft = Ok lines -> declared_lines draft = lines.
Proof.
  unfold lines_of, declared_lines.
  destruct (dict_get "budget_lines" (plan draft)) as [[]|]; congruence.
Qed.

(** X12: [_invert] returns exactly for the drafts whose [will] is a string (or
    falsy, or missing) and whose budget lines, when the plan has the entry,
    are a dictionary whose values under the six hardened names convert to
    float.  A truthy [will] that is not a string, and a budget-lines entry
    that is not a dictionary, both end the call with AttributeError. *)
Theorem invert_returns_iff (draft : AdviceDraft) :
  ((exists cd, _invert draft = Ok cd) <->
   will_is_text draft /\ lines_are_numeric float_of_str draft)
  /\ (~ will_is_text draft -> _invert draft = Raise AttributeError)
  /\ (will_is_text draft ->
      (exists v, dict_get "budget_lines" (plan draft) = Some v
                 /\ forall lines, v <> VDict lines) ->
      _invert draft = Raise AttributeError).
Proof.
  split; [split|split].
  - intros [cd Hcd]. rewrite invert_eq in Hcd.
    destruct (str_upper (will_word draft)) as [w|e] eqn:Ew; [|discriminate].
    cbn [mbind result_bind] in Hcd.
    destruct (lines_of draft) as [lines|e] eqn:El; [|discriminate].
    cbn [mbind result_bind] in Hcd.
    destruct (harden_lines BUDGET_KEYS lines) as [lines'|e] eqn:Eh; [|discriminate].
    split; [apply will_word_text; now exists w|].
    intros v Hv. unfold lines_of in El. rewrite Hv in El.
    destruct v; try discriminate. injection El as ->.
    exists lines. split; [reflexivity|]. intros k x Hk Hx.
    destruct (harden_lines_exact _ _ _ budget_keys_nodup Eh) as [Hin _].
    destruct (Hin k Hk) as (f & Hf & _).
    unfold dict_get_default in Hf. rewrite Hx in Hf. now exists f.
  - intros [Hw Hl]. apply will_word_text in Hw. destruct Hw as [w Hw].
    rewrite invert_eq, Hw. cbn [mbind result_bind].
    assert (El : lines_of draft = Ok (declared_lines draft)).
    { unfold lines_of, declared_lines.
      destruct (dict_get "budget_lines" (plan draft)) as [v|] eqn:E; [|reflexivity].
      destruct (Hl v E) as (l & -> & _). reflexivity. }
    rewrite El. cbn [mbind result_bind].
    destruct (harden_lines_spec float_of_str BUDGET_KEYS (declared_lines draft))
      as (lines' & Hrun & _).
    { intros k x Hk Hx. unfold declared_lines in Hx.
      destruct (dict_get "budget_lines" (plan draft)) as [v|] eqn:E; [|discriminate].
      destruct (Hl v E) as (l & -> & Hnum). eauto. }
    rewrite Hrun. cbn [mbind result_bind]. now eexists.
  - intros Hw. rewrite invert_eq, (will_word_not_text _ Hw). reflexivity.
  - intros Hw (v & Hv & Hnot). apply will_word_text in Hw. destruct Hw as [w Hw].
    rewrite invert_eq, Hw. cbn [mbind result_bind]. unfold lines_of. rewrite Hv.
    destruct v; try reflexivity. now contradiction (Hnot d).
Qed.

(** X13: Each of the six hardened lines of the counter-draft is exactly the
    larger of the floor and the declared value converted to float (0.0 for
    a line the draft does not declare): a declared line above 0.9 keeps its
    value, and a line at or below 0.9, or one that is not a number, becomes
    0.9. *)
Theorem hardened_line_is_floor_or_declared (draft cd : AdviceDraft) :
  _invert draft = Ok cd ->
  exists lines',
    dict_get "budget_lines" (plan cd) = Some (VDict lines')
    /\ forall k, In k BUDGET_KEYS ->
         exists f,
           py_float (dict_get_default k (VFloat 0%float) (declared_lines draft)) = Ok f
           /\ dict_get k lines' = Some (VFloat (py_max FLOOR f))
           /\ (fgt f FLOOR = true -> py_max FLOOR f = f)
           /\ (fgt f FLOOR = false -> py_max FLOOR f = FLOOR).
Proof.
  intros Hcd. rewrite invert_eq in Hcd.
  destruct (str_upper (will_word draft)) as [w|e]; [|discriminate]. cbn [mbind result_bind] in Hcd.
  destruct (lines_of draft) as [lines|e] eqn:El; [|discriminate]. cbn [mbind result_bind] in Hcd.
  destruct (harden_lines BUDGET_KEYS lines) as [lines'|e] eqn:Eh; [|discriminate].
  cbn [mbind result_bind] in Hcd. injection Hcd as <-. exists lines'. cbn [plan]. split.
  - rewrite dict_get_setdefault_other by discriminate. apply dict_get_set_same.
  - intros k Hk. rewrite (lines_of_declared _ _ El).
    destruct (harden_lines_exact _ _ _ budget_keys_nodup Eh) as [Hin _].
    destruct (Hin k Hk) as (f & Hf & Hget). exists f.
    split; [exact Hf|]. split; [exact Hget|].
    unfold py_max. split; intros ->; reflexivity.
Qed.

(** X14: Inverting a counter-draft again succeeds and leaves the plan, the
    query and the context as the first inversion made them: the budget
    lines are already hardened and the rollback recipe already present.
    Only the identifier grows by a second suffix and [will] is inverted
    again, which restores the upper-case form of the draft's operator
    unless that operator is TRANSCENSION. *)
Theorem invert_twice (draft cd : AdviceDraft) :
  _invert draft = Ok cd ->
  exists cd2,
    _invert cd = Ok cd2
    /\ plan cd2 = plan cd
    /\ query cd2 = query draft
    /\ context cd2 = context draft
    /\ id cd2 = (id draft ++ ":counter" ++ ":counter")%string
    /\ (forall k, k <> "will" -> dict_get k (params cd2) = dict_get k (params draft))
    /\ (forall s w', dict_get "will" (params draft) = Some (VStr s) ->
          invert_will (upper s) = Some w' ->
          upper s <> "TRANSCENSION" ->
          dict_get "will" (params cd2) = Some (VStr (upper s))).
Proof.
  intros Hcd. rewrite invert_eq in Hcd.
  destruct (str_upper (will_word draft)) as [w|e] eqn:Ew; [|discriminate].
  cbn [mbind result_bind] in Hcd.
  destruct (lines_of draft) as [lines|e] eqn:El; [|discriminate]. cbn [mbind result_bind] in Hcd.
  destruct (harden_lines BUDGET_KEYS lines) as [lines'|e] eqn:Eh; [|discriminate].
  cbn [mbind result_bind] in Hcd. injection Hcd as <-.
  set (plan1 := dict_setdefault "rollback_recipe" (VStr DEFAULT_ROLLBACK)
                  (dict_set "budget_lines" (VDict lines')
                     (dict_setdefault "budget_lines" (VDict []) (plan draft)))).
  set (params1 := match invert_will w with
                  | Some w' => dict_set "will" (VStr w') (params draft)
                  | None => params draft
                  end).
  assert (Hb : dict_get "budget_lines" plan1 = Some (VDict lines')).
  { unfold plan1. rewrite dict_get_setdefault_other by discriminate.
    apply dict_get_set_same. }
  assert (Hr : exists r, dict_get "rollback_recipe" plan1 = Some r).
  { unfold plan1. rewrite dict_get_setdefault_same. now eexists. }
  destruct Hr as [r Hr].
  assert (Hfix : harden_lines BUDGET_KEYS lines' = Ok lines').
  { apply harden_lines_fixed. intros k Hk.
    destruct (harden_lines_exact _ _ _ budget_keys_nodup Eh) as [Hin _].
    destruct (Hin k Hk) as (f & _ & Hget). now exists f. }
  (* the word the second call upper-cases *)
  assert (Hw2 : exists w2,
            str_upper (will_word {| id := (id draft ++ ":counter")%string;
                                    query := query draft; plan := plan1;
                                    params := params1;
                                    context := context draft |}) = Ok w2
            /\ (forall w', invert_will w = Some w' -> w2 = w')
            /\ (invert_will w = None -> w2 = w)).
  { unfold will_word, dict_get_default, params1. cbn [params].
    destruct (invert_will w) as [w'|] eqn:Ei.
    - destruct (invert_will_back _ _ Ei) as (Hup & Hne & _).
      rewrite dict_get_set_same. cbn [truthy].
      destruct (String.eqb_spec w' ""); [contradiction|]. cbn.
      exists (upper w'). split; [reflexivity|]. split; [|discriminate].
      now intros ? [= <-].
    - unfold will_word, dict_get_default in Ew. exists w.
      split; [exact Ew|]. split; [discriminate|reflexivity]. }
  destruct Hw2 as (w2 & Hw2 & Hsome & Hnone).
  eexists. split.
  { rewrite invert_eq, Hw2. cbn [mbind result_bind].
    unfold lines_of. cbn [plan]. rewrite Hb. cbn [mbind result_bind].
    rewrite Hfix. cbn [mbind result_bind]. reflexivity. }
  cbn [plan query context id params].
  split.
  { rewrite (dict_setdefault_present _ _ _ _ Hb), (dict_set_same _ _ _ Hb).
    apply (dict_setdefault_present _ _ _ _ Hr). }
  split; [reflexivity|]. split; [reflexivity|].
  split; [apply append_assoc|].
  split.
  - intros k Hk. unfold params1.
    destruct (invert_will w2); destruct (invert_will w);
      rewrite ?dict_get_set_other by exact Hk; reflexivity.
  - intros s w' Hs Hinv Hnt.
    assert (w = upper s) as ->.
    { unfold will_word, dict_get_default in Ew. rewrite Hs in Ew.
      cbn [truthy] in Ew. destruct (String.eqb s "") eqn:Es; cbn in Ew.
      - apply String.eqb_eq in Es. rewrite Es. cbn. congruence.
      - congruence. }
    rewrite (Hsome _ Hinv).
    destruct (invert_will_back _ _ Hinv) as (_ & _ & Hback).
    rewrite (Hback Hnt). apply dict_get_set_same.
Qed.

End InvertMore.

Lemma invert_returns_iff_witness :
  exists cd, ShadowTwin._invert (fun _ => None) example_draft = Ok cd.
Proof.
  apply (invert_returns_iff (fun _ => None) example_draft). split.
  - intros v [= <-] _. now exists "Expansion".
  - intros v [= <-]. eexists. split; [reflexivity|].
    intros k x Hk. cbn in Hk.
    destruct Hk as [<-|[<-|[<-|[<-|[<-|[<-|[]]]]]]]; intros [= <-];
      eexists; reflexivity.
Defined.

(** The draft of [examples.py]: privacy 0.9 and safety 0.8 both come out
    as 0.9. *)
Lemma hardened_line_is_floor_or_declared_witness :
  exists cd lines',
    ShadowTwin._invert (fun _ => None) example_draft = Ok cd
    /\ dict_get "budget_lines" (plan cd) = Some (VDict lines')
    /\ dict_get "safety" lines' = Some (VFloat FLOOR).
Proof.
  destruct (ShadowTwin._invert (fun _ => None) example_draft) as [cd|e] eqn:E;
    [|vm_compute in E; discriminate].
  destruct (hardened_line_is_floor_or_declared (fun _ => None) example_draft cd E)
    as (lines' & Hl & Hk).
  exists cd, lines'. split; [reflexivity|]. split; [exact Hl|].
  destruct (Hk "safety") as (f & Hf & Hget & _ & Hlow).
  - cbn. tauto.
  - vm_compute in Hf. injection Hf as <-. rewrite Hget, Hlow; [reflexivity|].
    vm_compute. reflexivity.
Defined.

Lemma invert_twice_witness :
  exists cd cd2,
    ShadowTwin._invert (fun _ => None) example_draft = Ok cd
    /\ ShadowTwin._invert (fun _ => None) cd = Ok cd2
    /\ plan cd2 = plan cd
    /\ dict_get "will" (params cd2) = Some (VStr "EXPANSION").
Proof.
  destruct (ShadowTwin._invert (fun _ => None) example_draft) as [cd|e] eqn:E;
    [|vm_compute in E; discriminate].
  destruct (invert_twice (fun _ => None) example_draft cd E)
    as (cd2 & H2 & Hp & _ & _ & _ & _ & Hw).
  exists cd, cd2. split; [reflexivity|]. split; [exact H2|]. split; [exact Hp|].
  apply (Hw "Expansion" "POSSESSION"); [reflexivity|reflexivity|discriminate].
Defined.

End TwinExtra.

(* ================================================================== *)
(** * More on the rails and the solver *)
(* ================================================================== *)

Module SolverExtra.
Import DecisionCore DecisionFacts.

Section RailsMore.

Variable _MIN_DELTA_E : float.
Variable _MIN_GRACE : float.
Variable repair_max_days : float.
Variable ledger_required : bool.
Variable energy_E : State -> Action -> result float.
Variable grace_G : State -> Action -> result float.
Variable kernel_weight : State -> Action -> result float.
Variable price_externalities : State -> Action -> result dict.
Variable antimemory_countercontext : State -> Action -> result dict.
Variable attach_pca : string -> ProofBundle -> result string.

Local Abbreviation score_all := (score_all energy_E grace_G kernel_weight).
Local Abbreviation scores_of := (scores_of energy_E grace_G kernel_weight).
Local Abbreviation enforce_thresholds :=
  (enforce_thresholds _MIN_DELTA_E _MIN_GRACE).
Local Abbreviation minimal_clean_move :=
  (minimal_clean_move _MIN_DELTA_E _MIN_GRACE energy_E grace_G kernel_weight).
Local Abbreviation decide_from_rails :=
  (decide_from_rails _MIN_DELTA_E _MIN_GRACE repair_max_days ledger_required
     energy_E grace_G kernel_weight price_externalities
     antimemory_countercontext attach_pca).
Local Abbreviation decide :=
  (decide _MIN_DELTA_E _MIN_GRACE repair_max_days ledger_required
     energy_E grace_G kernel_weight price_externalities
     antimemory_countercontext attach_pca).

(** ** The consent rail *)

Lemma all_valid_complete now tickets :
  (forall t, In t tickets -> is_valid now t = Ok true) ->
  all_valid now tickets = Ok true.
Proof.
  induction tickets as [|t0 rest IH]; intros H; [reflexivity|].
  cbn [all_valid]. rewrite (H t0 (or_introl eq_refl)). cbn.
  apply IH. intros t Ht. apply H. now right.
Qed.

Lemma is_valid_true_iff now t :
  is_valid now t = Ok true <->
  exists ttl, float_of_int (ttl_seconds t) = Ok ttl
              /\ fle now (issued_at t + ttl)%float = true.
Proof.
  unfold is_valid. destruct (float_of_int (ttl_seconds t)) as [ttl|e]; cbn.
  - split.
    + intros [= H]. now exists ttl.
    + intros (ttl' & [= <-] & H). now rewrite H.
  - split; [discriminate|]. intros (ttl' & H & _). discriminate.
Qed.

(** X15: The consent rail of [decision_core] passes exactly when every ticket
    of the state is within its lifetime at the clock reading; the action
    it is given plays no part.  The tickets are tested in order and the
    first one past its lifetime settles the answer: the tickets after it
    are not looked at, not even one whose lifetime does not convert to a
    float. *)
Theorem consent_rail_passes_iff (now : float) (state : State)
    (action : option Action) :
  ((exists info, check_consent now state action = Ok (true, info)) <->
   (forall t, In t (consent_tickets state) ->
      exists ttl, float_of_int (ttl_seconds t) = Ok ttl
                  /\ fle now (issued_at t + ttl)%float = true))
  /\ (forall before expired after,
        consent_tickets state = before ++ expired :: after ->
        (forall t, In t before -> is_valid now t = Ok true) ->
        is_valid now expired = Ok false ->
        exists info, check_consent now state action = Ok (false, info)).
Proof.
  unfold check_consent. split; [split|].
  - intros [info H].
    destruct (all_valid now (consent_tickets state)) as [[|]|e] eqn:E;
      cbn in H; try discriminate.
    intros t Ht. apply is_valid_true_iff. revert t Ht. now apply all_valid_spec.
  - intros H. rewrite all_valid_complete; [cbn; now eexists|].
    intros t Ht. apply is_valid_true_iff. now apply H.
  - intros before expired after -> Hbefore Hexp.
    assert (Hall : all_valid now (before ++ expired :: after) = Ok false).
    { clear action. induction before as [|t0 before IH]; cbn [app all_valid].
      - rewrite Hexp. reflexivity.
      - rewrite (Hbefore t0 (or_introl eq_refl)). cbn.
        apply IH. intros t Ht. apply Hbefore. now right. }
    rewrite Hall. cbn. now eexists.
Qed.

(** ** The orchestrator *)

(** X16: [decide] returns for no state and no list of candidates.  Once the
    consent rail has answered, whatever its answer, the apophatic rail is
    called with [None] for the action and raises AttributeError; when the
    consent rail itself raises, that exception is the outcome. *)
Theorem decide_always_raises (now : float) (state : State)
    (candidates : list Action) :
  decide now state candidates =
  match all_valid now (consent_tickets state) with
  | Ok _ => Raise AttributeError
  | Raise e => Raise e
  end
  /\ forall r, decide now state candidates <> Ok r.
Proof.
  assert (H : decide now state candidates =
              match all_valid now (consent_tickets state) with
              | Ok _ => Raise AttributeError
              | Raise e => Raise e
              end).
  { unfold DecisionCore.decide, check_consent.
    destruct (all_valid now (consent_tickets state)) as [v|e]; reflexivity. }
  split; [exact H|]. intros r. rewrite H.
  destruct (all_valid now (consent_tickets state)); discriminate.
Qed.

(** ** The solver *)

Lemma score_all_returns_inv state cands : forall l,
  score_all state cands = Ok l ->
  forall a, In a cands ->
    (exists E, energy_E state a = Ok E)
    /\ (exists K, kernel_weight state a = Ok K)
    /\ (exists G, grace_G state a = Ok G).
Proof.
  induction cands as [|a0 cands IH]; intros l Hl a Ha; [destruct Ha|].
  cbn in Hl.
  destruct (energy_E state a0) as [E|e] eqn:HE; cbn in Hl; [|discriminate].
  destruct (kernel_weight state a0) as [K|e] eqn:HK; cbn in Hl; [|discriminate].
  destruct (grace_G state a0) as [G|e] eqn:HG; cbn in Hl; [|discriminate].
  destruct (DecisionCore.score_all energy_E grace_G kernel_weight state cands)
    as [tail|e] eqn:Et; cbn in Hl; [|discriminate].
  destruct Ha as [<-|Ha].
  - rewrite HE, HK, HG. repeat split; now eexists.
  - now apply (IH tail).
Qed.

Lemma scored_candidate state cands l t :
  Forall2 (scores_of state) cands l -> In t l ->
  In (s_action t) cands
  /\ energy_E state (s_action t) = Ok (s_E t)
  /\ grace_G state (s_action t) = Ok (s_G t).
Proof.
  intros Hl Hin.
  destruct (Forall2_In_right _ _ _ Hl t Hin) as (a & Ha & Hact & HE & HG & _).
  rewrite Hact. auto.
Qed.

(** What the solver returns is nothing at all or a candidate with its two
    scores, both as the seams gave them. *)
Lemma solver_sound state cands r :
  minimal_clean_move state cands = Ok r ->
  r = no_move
  \/ exists a E G,
       r = (Some a, Some E, Some G)
       /\ In a cands
       /\ energy_E state a = Ok E
       /\ grace_G state a = Ok G
       /\ fge E _MIN_DELTA_E = false
       /\ flt G _MIN_GRACE = false.
Proof.
  intros Hr. destruct (solver_spec _ _ _ _ _ _ _ _ Hr) as (l & _ & Hscores & ->).
  destruct (enforce_cases _MIN_DELTA_E _MIN_GRACE l) as [Hnone Hsome].
  destruct (b_action (select_best l)) as [a|] eqn:Ea; [|left; now apply Hnone].
  destruct (Hsome a eq_refl) as (Hidle & Hpick & Hretry).
  destruct (select_best_pick l a Ea) as (t & Hin & Ht & ->).
  destruct (scored_candidate _ _ _ _ Hscores Hin) as (Hc & HE & HG).
  destruct (fge (b_E (select_best l)) _MIN_DELTA_E) eqn:Eidle;
    [left; now apply Hidle|].
  destruct (flt (b_G (select_best l)) _MIN_GRACE) eqn:Elow.
  - destruct (Hretry eq_refl eq_refl) as [Hno|(t2 & Hin2 & HE2 & HG2 & Hr2)];
      [now left|].
    destruct (scored_candidate _ _ _ _ Hscores Hin2) as (Hc2 & HE2' & HG2').
    right. exists (s_action t2), (s_E t2), (s_G t2).
    repeat (split; [assumption|]). split.
    + rewrite fge_fle. now apply flt_not_fle.
    + apply fle_not_flt. now rewrite <- fge_fle.
  - right. exists (s_action t), (s_E t), (s_G t).
    rewrite (Hpick eq_refl eq_refl), Ht in *. cbn in Eidle, Elow |- *.
    repeat (split; [assumption || reflexivity|]). exact Elow.
Qed.

(** X17: The solver returns exactly when the three seams answer for every
    candidate.  What it returns is all or nothing: no action with no
    scores, or one of the candidates with the raw cost and the coherence
    the seams gave for it, the raw cost not at or above the move threshold
    and the coherence not below the floor. *)
Theorem solver_returns_a_scored_candidate_or_nothing (state : State)
    (cands : list Action) :
  ((exists r, minimal_clean_move state cands = Ok r) <->
   (forall a, In a cands ->
      (exists E, energy_E state a = Ok E)
      /\ (exists K, kernel_weight state a = Ok K)
      /\ (exists G, grace_G state a = Ok G)))
  /\ (forall r, minimal_clean_move state cands = Ok r ->
        r = no_move
        \/ exists a E G,
             r = (Some a, Some E, Some G)
             /\ In a cands
             /\ energy_E state a = Ok E
             /\ grace_G state a = Ok G
             /\ fge E _MIN_DELTA_E = false
             /\ flt G _MIN_GRACE = false).
Proof.
  split; [split|].
  - intros [r Hr]. destruct (solver_spec _ _ _ _ _ _ _ _ Hr) as (l & Hl & _).
    now apply (score_all_returns_inv state cands l).
  - apply minimal_clean_move_returns.
  - intros r. apply solver_sound.
Qed.

(** ** The paradox gate *)

(** X19: With an action the gate answers from the truth value alone: T and B
    give Answer, N gives Stand and F gives Refuse, whatever the state (its
    paradox flag included), the action and the proofs.  Without an action
    it refuses exactly when the consent proof holds a falsy [ok] or the
    logic proof a falsy [apophatic_ok], and stands otherwise; an absent
    entry counts as passed. *)
Theorem gate_verdict_table (state : State) (proofs : ProofBundle)
    (truth : TruthVal) :
  (forall a,
     pgl_decide state (Some a) proofs truth =
     match truth with T | B => Answer | N => Stand | F => Refuse end)
  /\ (forall truth',
        pgl_decide state None proofs truth' = Refuse
        <-> (exists v, dict_get "ok" (consent proofs) = Some v /\ truthy v = false)
            \/ (exists v, dict_get "apophatic_ok" (logic proofs) = Some v
                          /\ truthy v = false))
  /\ (forall truth', pgl_decide state None proofs truth' <> Answer).
Proof.
  split; [|split].
  - intros a. unfold pgl_decide. destruct truth, (paradox_nearby state); reflexivity.
  - intros truth'. unfold pgl_decide, dict_get_default.
    destruct (dict_get "ok" (consent proofs)) as [c|];
      destruct (dict_get "apophatic_ok" (logic proofs)) as [l|];
      cbn [truthy negb orb];
      repeat match goal with
             | |- context [truthy ?v] => destruct (truthy v) eqn:?
             end;
      cbn [negb orb];
      (split;
       [ first [discriminate | intros _; eauto 7]
       | first [intros _; reflexivity
               | intros [(v & Hv & H)|(v & Hv & H)]; congruence] ]).
  - intros truth'. unfold pgl_decide.
    destruct (_ || _)%bool; discriminate.
Qed.

(** ** After the rails *)

(** X20: The part of [decide] after the two rails, on rail results as the rails
    shape them.  A failed rail gives Refuse with no action.  Otherwise the
    verdict follows the solver: no action gives Stand, and a chosen action,
    which is one of the candidates, gives Answer when its predicted truth
    is T or B, Stand when it is N and Refuse when it is F; the reported
    truth is that of the action, N when there is none. *)
Theorem verdict_after_rails (now : float) (state : State)
    (cands : list Action) (consent_ok apoph_ok : bool) (tickets : value)
    (r : DecisionResult) :
  decide_from_rails now state cands consent_ok [("tickets", tickets)]
                    apoph_ok [("apophatic_ok", VBool apoph_ok)] = Ok r ->
  (consent_ok && apoph_ok = false ->
   decision r = Refuse /\ chosen_action r = None /\ truth r = None
   /\ ledger_id r = None)
  /\ (consent_ok && apoph_ok = true ->
      match chosen_action r with
      | None => decision r = Stand /\ truth r = Some N
                /\ delta_E r = None /\ grace r = None
      | Some a =>
          In a cands
          /\ truth r = Some (predicted_truth a)
          /\ decision r =
             match predicted_truth a with
             | T | B => Answer | N => Stand | F => Refuse
             end
          /\ exists E G, delta_E r = Some E /\ grace r = Some G
                         /\ energy_E state a = Ok E /\ grace_G state a = Ok G
      end).
Proof.
  unfold DecisionCore.decide_from_rails.
  destruct consent_ok, apoph_ok; cbn [negb orb andb];
    try (intros [= <-]; split; [intros _; repeat split|discriminate]).
  destruct (if (_ || _)%bool then _ else _) as [ethics_info|e];
    cbn [mbind result_bind]; [|discriminate].
  destruct (DecisionCore.minimal_clean_move _ _ _ _ _ state cands)
    as [move|e] eqn:Emove; cbn [mbind result_bind]; [|discriminate].
  destruct (solver_sound _ _ _ Emove)
    as [->|(a & E & G & -> & Hin & HE & HG & _)].
  - cbn. destruct ledger_required; cbn.
    + destruct (attach_pca _ _) as [lid|e]; cbn; [|discriminate].
      intros [= <-]. split; [discriminate|]. intros _. cbn. repeat split.
    + intros [= <-]. split; [discriminate|]. intros _. cbn. repeat split.
  - cbn [mbind result_bind].
    destruct ledger_required; cbn [mbind result_bind].
    + destruct (attach_pca _ _) as [lid|e]; cbn [mbind result_bind]; [|discriminate].
      intros [= <-]. split; [discriminate|]. intros _. cbn -[pgl_decide].
      split; [exact Hin|]. split; [reflexivity|].
      split; [destruct (predicted_truth a), (paradox_nearby state); reflexivity|].
      exists E, G. auto.
    + intros [= <-]. split; [discriminate|]. intros _. cbn -[pgl_decide].
      split; [exact Hin|]. split; [reflexivity|].
      split; [destruct (predicted_truth a), (paradox_nearby state); reflexivity|].
      exists E, G. auto.
Qed.

End RailsMore.

(** The state with the hour ticket: the rail passes at 2000. *)
Lemma verdict_after_rails_witness :
  exists r,
    decide_from_rails (-0.05)%float 0.5%float 30%float false
      demo_energy demo_grace demo_kernel (fun _ _ => Ok []) (fun _ _ => Ok [])
      (fun _ _ => Ok "ledger:1") 2000%float ticket_state [plain; graceful]
      true [("tickets", VList [ticket_dict hour_ticket])]
      true [("apophatic_ok", VBool true)] = Ok r
    /\ chosen_action r = Some graceful
    /\ decision r = Answer.
Proof.
  eexists. split; [vm_compute; reflexivity|].
  match goal with
  | |- chosen_action ?r = _ /\ _ =>
      pose proof (verdict_after_rails (-0.05)%float 0.5%float 30%float false
                    demo_energy demo_grace demo_kernel (fun _ _ => Ok [])
                    (fun _ _ => Ok []) (fun _ _ => Ok "ledger:1") 2000%float
                    ticket_state [plain; graceful] true true
                    (VList [ticket_dict hour_ticket]) r) as H
  end.
  destruct H as [_ H]; [vm_compute; reflexivity|].
  specialize (H eq_refl). cbn [chosen_action] in H.
  destruct H as (_ & _ & Hd & _). split; [reflexivity|exact Hd].
Defined.

End SolverExtra.

(* ================================================================== *)
(** * More on proof-carrying advice *)
(* ================================================================== *)

Module AdviceExtra.
Import ApophaticGuard ProofCarryingAdvice ShadowTwin ShadowTwinFacts.

(** ** The local apophatic check *)

Lemma dict_get_none_iff k (d : dict) : dict_get k d = None <-> ~ In k (List.map fst d).
Proof.
  induction d as [|[k0 v0] d IH]; cbn; [tauto|].
  destruct (String.eqb_spec k k0) as [->|Hne].
  - split; [discriminate|]. intros H. exfalso. apply H. now left.
  - rewrite IH. split; [intros H [Heq|Hin]; [congruence|contradiction]|tauto].
Qed.

Lemma reasons_nil_iff {A : Type} (l1 l2 : list A) :
  match l1 ++ l2 with [] => true | _ => false end = true <-> l1 = [] /\ l2 = [].
Proof.
  destruct l1, l2; cbn; split; try discriminate; try tauto;
    intros [H1 H2]; discriminate.
Qed.

Lemma map_nil_iff {A B : Type} (f : A -> B) l : List.map f l = [] <-> l = [].
Proof. destruct l; cbn; split; congruence. Qed.

Lemma local_check_spec constraint_order params :
  fst (apophatic_ok constraint_order params) = true <->
  (forall k, In k FORBID_KEYS -> dict_get k params = None)
  /\ (forall k v, In k constraint_order -> dict_get k params = Some v ->
                  affirmed v = true).
Proof.
  unfold apophatic_ok. cbn [fst].
  rewrite reasons_nil_iff, !map_nil_iff, !GuardExtra.filter_nil_existsb.
  split.
  - intros [Hf Hc]. split.
    + intros k Hk. apply dict_get_none_iff. intros Hin.
      assert (existsb forbidden (List.map fst params) = true); [|congruence].
      apply existsb_exists. exists k. split; [exact Hin|].
      unfold forbidden. apply existsb_exists. exists k.
      split; [exact Hk|apply String.eqb_refl].
    + intros k v Hk Hv. destruct (affirmed v) eqn:Ea; [reflexivity|].
      assert (existsb (unaffirmed params) constraint_order = true); [|congruence].
      apply existsb_exists. exists k. split; [exact Hk|].
      unfold unaffirmed. now rewrite Hv, Ea.
  - intros [Hf Hc]. split.
    + destruct (existsb forbidden _) eqn:Ef; [|reflexivity].
      apply existsb_exists in Ef. destruct Ef as (k & Hin & Hk).
      unfold forbidden in Hk. apply existsb_exists in Hk.
      destruct Hk as (k' & Hk' & Heq). apply String.eqb_eq in Heq. subst k'.
      apply dict_get_none_iff in Hin; [destruct Hin|]. now apply Hf.
    + destruct (existsb (unaffirmed params) _) eqn:Ec; [|reflexivity].
      apply existsb_exists in Ec. destruct Ec as (k & Hk & Hv).
      unfold unaffirmed in Hv.
      destruct (dict_get k params) as [v|] eqn:E; [|discriminate].
      rewrite (Hc k v Hk E) in Hv. discriminate.
Qed.

(** X22: The local check of [proof_carrying_advice] passes exactly when none of
    its four forbidden keys is a key of the parameters and each of its four
    constrained keys that is present is affirmed, in whatever order the set
    of constrained keys is walked.  On parameters without nesting it is
    the guard of [apophatic_guard] short of that guard's three additional
    keys: the guard admits the parameters (under an empty context) exactly
    when the local check passes, neither [ground_truth] nor [completion] is
    a key and [no_possession], when present, is affirmed. *)
Theorem local_check_is_the_guard_on_fewer_keys (constraint_order : list string)
    (params : dict) :
  Permutation constraint_order ProofCarryingAdvice.CONSTRAINT_ONLY ->
  (fst (apophatic_ok constraint_order params) = true <->
   (forall k, In k FORBID_KEYS -> dict_get k params = None)
   /\ (forall k v, In k ProofCarryingAdvice.CONSTRAINT_ONLY ->
         dict_get k params = Some v -> affirmed v = true))
  /\ (NoDup (List.map fst params) -> flat params ->
      (admissible [] params = true <->
       fst (apophatic_ok constraint_order params) = true
       /\ dict_get "ground_truth" params = None
       /\ dict_get "completion" params = None
       /\ (forall v, dict_get "no_possession" params = Some v ->
                     affirmed v = true))).
Proof.
  intros Hperm.
  assert (Hlocal :
    fst (apophatic_ok constraint_order params) = true <->
    (forall k, In k FORBID_KEYS -> dict_get k params = None)
    /\ (forall k v, In k ProofCarryingAdvice.CONSTRAINT_ONLY ->
          dict_get k params = Some v -> affirmed v = true)).
  { rewrite local_check_spec. split; intros [Hf Hc]; (split; [exact Hf|]);
      intros k v Hk; apply Hc.
    - apply (Permutation_in _ (Permutation_sym Hperm)), Hk.
    - apply (Permutation_in _ Hperm), Hk. }
  split; [exact Hlocal|].
  intros Hnd Hflat. rewrite Hlocal.
  assert (Hlook : forall k,
            (_flatten_dict params ∪ _flatten_dict []) !! k = dict_get k params).
  { intros k. rewrite (GuardExtra.combined_flat_lookup [] params k);
      [|constructor|intros ? ? []|exact Hnd|exact Hflat].
    unfold merged_get. now destruct (dict_get k params). }
  unfold admissible. split.
  - intros Hadm.
    destruct (existsb _ FORBIDDEN_KEYS) eqn:Ef; [discriminate|].
    destruct (existsb _ ApophaticGuard.CONSTRAINT_ONLY) eqn:Ec; [discriminate|].
    assert (Hforb : forall k, In k FORBIDDEN_KEYS -> dict_get k params = None).
    { intros k Hk. rewrite <- Hlook.
      destruct (_ !! k) as [v|] eqn:E; [|reflexivity].
      assert (existsb (fun k => has_key k (_flatten_dict params ∪ _flatten_dict []))
                FORBIDDEN_KEYS = true); [|congruence].
      apply existsb_exists. exists k. split; [exact Hk|].
      unfold has_key. now rewrite E. }
    assert (Hcons : forall k v, In k ApophaticGuard.CONSTRAINT_ONLY ->
                      dict_get k params = Some v -> affirmed v = true).
    { intros k v Hk Hv. rewrite <- Hlook in Hv.
      destruct (affirmed v) eqn:Ea; [reflexivity|].
      assert (existsb (violates (_flatten_dict params ∪ _flatten_dict []))
                ApophaticGuard.CONSTRAINT_ONLY = true); [|congruence].
      apply existsb_exists. exists k. split; [exact Hk|].
      unfold violates. now rewrite Hv, Ea. }
    split; [split|split; [|split]].
    + intros k Hk. apply Hforb. cbn in Hk |- *. tauto.
    + intros k v Hk. apply (Hcons k v). cbn in Hk |- *. tauto.
    + apply Hforb. cbn. tauto.
    + apply Hforb. cbn. tauto.
    + intros v. apply (Hcons "no_possession" v). cbn. tauto.
  - intros ([Hf Hc] & Hgt & Hcomp & Hposs).
    destruct (existsb _ FORBIDDEN_KEYS) eqn:Ef.
    { apply existsb_exists in Ef. destruct Ef as (k & Hk & Hhas).
      unfold has_key in Hhas. rewrite Hlook in Hhas.
      cbn in Hk.
      destruct Hk as [<-|[<-|[<-|[<-|[<-|[<-|[]]]]]]];
        first [rewrite Hgt in Hhas | rewrite Hcomp in Hhas
              | rewrite Hf in Hhas by (cbn; tauto)]; discriminate. }
    destruct (existsb _ ApophaticGuard.CONSTRAINT_ONLY) eqn:Ec; [|reflexivity].
    apply existsb_exists in Ec. destruct Ec as (k & Hk & Hv).
    unfold violates in Hv. rewrite Hlook in Hv.
    destruct (dict_get k params) as [v|] eqn:E; [|discriminate].
    assert (affirmed v = true); [|destruct (affirmed v); discriminate].
    cbn in Hk.
    destruct Hk as [<-|[<-|[<-|[<-|[<-|[]]]]]];
      first [now apply Hposs | eapply Hc; [|exact E]; cbn; tauto].
Qed.

Lemma local_check_is_the_guard_on_fewer_keys_witness :
  fst (apophatic_ok (rev ProofCarryingAdvice.CONSTRAINT_ONLY) valid_params) = true.
Proof.
  destruct (local_check_is_the_guard_on_fewer_keys
              (rev ProofCarryingAdvice.CONSTRAINT_ONLY) valid_params) as [_ H].
  - symmetry. apply Permutation_rev.
  - assert (Hnd : NoDup (List.map fst valid_params)) by TokenFacts.nodup_keys.
    assert (Hflat : flat valid_params).
    { intros k v [[= <- <-]|[[= <- <-]|[[= <- <-]|[]]]]; exact I. }
    assert (Ha : admissible [] valid_params = true) by (vm_compute; reflexivity).
    destruct (H Hnd Hflat) as [Hto _]. exact (proj1 (Hto Ha)).
Defined.

(** ** The placeholder consent check *)

(** X23: The placeholder consent check validates exactly the contexts whose
    consent entry is a dictionary holding the Boolean True under [valid]
    and one of the five scopes under [scope]; a context without a consent
    entry is refused, an entry that is not a dictionary raises
    AttributeError, and whenever the check returns, the scope [build] reads
    next for the proof's details is read without error. *)
Theorem placeholder_consent_check (ctx : dict) :
  (consent_ok ctx = Ok (true, "consent:validated") <->
   exists c s, dict_get "consent" ctx = Some (VDict c)
               /\ dict_get "valid" c = Some (VBool true)
               /\ dict_get "scope" c = Some (VStr s)
               /\ In s CONSENT_SCOPES)
  /\ (forall r, consent_ok ctx = Ok r ->
        r = (true, "consent:validated") \/ r = (false, "consent:missing_or_invalid"))
  /\ (dict_get "consent" ctx = None ->
      consent_ok ctx = Ok (false, "consent:missing_or_invalid"))
  /\ (forall v, dict_get "consent" ctx = Some v -> (forall c, v <> VDict c) ->
        consent_ok ctx = Raise AttributeError)
  /\ (forall r, consent_ok ctx = Ok r -> exists scope, context_scope ctx = Ok scope).
Proof.
  unfold consent_ok, context_scope, dict_get_default.
  split; [|split; [|split; [|split]]].
  - split.
    + destruct (dict_get "consent" ctx) as [v|] eqn:Ec; [|cbn; discriminate].
      destruct v as [| | | | | |d]; try discriminate.
      destruct (dict_get "valid" d) as [vv|] eqn:Ev; [|discriminate].
      destruct vv as [|[|]| | | | |]; try discriminate.
      destruct (dict_get "scope" d) as [vs|] eqn:Esc; [|discriminate].
      destruct vs as [| | | |s| |]; try discriminate.
      destruct (existsb (String.eqb s) CONSENT_SCOPES) eqn:Es; [|discriminate].
      intros _. exists d, s. repeat (split; [reflexivity || assumption|]).
      apply existsb_exists in Es. destruct Es as (s' & Hin & Heq).
      apply String.eqb_eq in Heq. now subst.
    + intros (c & s & -> & -> & -> & Hs).
      assert (existsb (String.eqb s) CONSENT_SCOPES = true) as ->; [|reflexivity].
      apply existsb_exists. exists s. split; [exact Hs|apply String.eqb_refl].
  - intros r.
    destruct (dict_get "consent" ctx) as [[]|]; try discriminate.
    + destruct (dict_get "valid" d) as [[|[]| | | | |]|];
        try (intros [= <-]; now right).
      destruct (dict_get "scope" d) as [[]|]; try discriminate;
        try (intros [= <-]; now right).
      destruct (existsb _ _); intros [= <-]; [now left|now right].
    + cbn. intros [= <-]. now right.
  - intros ->. reflexivity.
  - intros v -> Hnot. destruct v; try reflexivity. now contradiction (Hnot d).
  - intros r. destruct (dict_get "consent" ctx) as [[]|]; try discriminate;
      intros _; now eexists.
Qed.

(** ** What [build] assembles *)

Lemma hard_ok_five (p1 p2 p3 p4 p5 : Proof) i a r d t :
  name p1 = "consent" -> name p2 = "apophatic" -> name p3 = "externalities" ->
  name p4 = "harms_ledger" -> name p5 = "remembrance" ->
  let awp := {| awp_id := i; answer := a; risk := r;
                proofs := [p1; p2; p3; p4; p5]; assessment := d;
                decided_at := t |} in
  _hard_ok awp = (ok p1 && ok p2 && ok p3)%bool
  /\ Energy._proof_ok awp "consent" = ok p1
  /\ Energy._proof_ok awp "apophatic" = ok p2
  /\ Energy._proof_ok awp "externalities" = ok p3
  /\ Grace.rails_ok awp = (ok p1 && ok p2 && ok p3)%bool.
Proof.
  intros H1 H2 H3 H4 H5 awp. subst awp.
  unfold _hard_ok, by_name, Energy._proof_ok, Grace.rails_ok, Grace.is_rail.
  cbn [proofs fold_left Energy.first_ok List.filter existsb].
  rewrite H1, H2, H3, H4, H5. cbn [String.eqb Ascii.eqb Bool.eqb orb forallb].
  split; [|split; [|split; [|split]]]; try reflexivity.
  generalize (ok p1), (ok p2), (ok p3), (ok p4), (ok p5).
  intros b1 b2 b3 b4 b5. vm_compute. destruct b1, b2, b3; reflexivity.
Qed.

Section BuildFacts.

Variable float_repr : float -> string.
Variable json_string : string -> string.
Variable blake2b_hex : string -> string.
Variable constraint_order : list string.
Variable coverage_threshold : float.
Variable assess : dict -> result Assessment.
Variable compute_index : result HarmIndex.
Variable penalties : HarmIndex -> result Penalties.
Variable compute_rri : result float.
Variable float_sum : list float -> float.

Local Abbreviation build :=
  (build float_repr json_string blake2b_hex constraint_order coverage_threshold
         assess compute_index penalties compute_rri float_sum).
Local Abbreviation mk := (_mk_proof float_repr json_string blake2b_hex).

(** [build], with the five calls that can raise resolved. *)
Lemma build_inv now draft answer awp :
  build now draft answer = Ok awp ->
  exists c scope assess_ hidx pen rri p3 p4 p5,
    consent_ok (context draft) = Ok c
    /\ context_scope (context draft) = Ok scope
    /\ assess (assessed_plan draft) = Ok assess_
    /\ compute_index = Ok hidx
    /\ penalties hidx = Ok pen
    /\ compute_rri = Ok rri
    /\ proofs awp =
       [mk "consent" (fst c) [("msg", VStr (snd c)); ("context_scope", scope)];
        mk "apophatic" (fst (apophatic_ok constraint_order (params draft)))
           [("reasons",
             VList (List.map VStr
                      (snd (apophatic_ok constraint_order (params draft)))))];
        p3; p4; p5]
    /\ name p3 = "externalities" /\ name p4 = "harms_ledger"
    /\ name p5 = "remembrance"
    /\ ok p3 = (fge (coverage assess_) coverage_threshold
                && rollback_ready assess_)%bool
    /\ ok p4 = fle (energy_penalty pen + grace_penalty pen)%float 0.75%float
    /\ ok p5 = fge rri 0.70%float
    /\ p3 = mk (name p3) (ok p3) (details p3)
    /\ p4 = mk (name p4) (ok p4) (details p4)
    /\ p5 = mk (name p5) (ok p5) (details p5)
    /\ awp_id awp = id draft /\ ProofCarryingAdvice.answer awp = answer
    /\ decided_at awp = now
    /\ exists blend, risk awp = py_min 1%float blend.
Proof.
  unfold ProofCarryingAdvice.build.
  destruct (consent_ok (context draft)) as [c|e]; cbn [mbind result_bind];
    [|discriminate].
  destruct (context_scope (context draft)) as [scope|e]; cbn [mbind result_bind];
    [|discriminate].
  destruct (assess (assessed_plan draft)) as [assess_|e]; cbn [mbind result_bind];
    [|discriminate].
  destruct compute_index as [hidx|e]; cbn [mbind result_bind]; [|discriminate].
  destruct (penalties hidx) as [pen|e] eqn:Hpen; cbn [mbind result_bind];
    [|discriminate].
  destruct compute_rri as [rri|e]; cbn [mbind result_bind]; [|discriminate].
  intros [= <-]. exists c, scope, assess_, hidx, pen, rri.
  do 3 eexists.
  repeat (split; [reflexivity || exact Hpen|]). cbn [risk]. now eexists.
Qed.

(** X24: Whatever [build] returns carries exactly five proofs, named consent,
    apophatic, externalities, harms_ledger and remembrance in this order,
    each with the token of its own content; its identifier is the draft's
    and its risk is at most 1, also when the blend of costs is not a
    number.  On such an advice the three readings of the hard rails agree:
    the twin's [_hard_ok] (the last proof of a name), the energy metric's
    [_proof_ok] (the first one) and the grace metric's test of all rail
    proofs.  The rails hold exactly when the consent check validated, the
    local apophatic check passed, and the assessed coverage reaches the
    threshold with a rollback ready. *)
Theorem build_assembles_five_proofs (now : float) (draft : AdviceDraft)
    (answer : string) (awp : AdviceWithProof) :
  build now draft answer = Ok awp ->
  List.map name (proofs awp) =
    ["consent"; "apophatic"; "externalities"; "harms_ledger"; "remembrance"]
  /\ (forall p, In p (proofs awp) -> p = mk (name p) (ok p) (details p))
  /\ awp_id awp = id draft
  /\ fle (risk awp) 1%float = true
  /\ _hard_ok awp
     = (Energy._proof_ok awp "consent" && Energy._proof_ok awp "apophatic"
        && Energy._proof_ok awp "externalities")%bool
  /\ Grace.rails_ok awp = _hard_ok awp
  /\ exists c assess_,
       consent_ok (context draft) = Ok c
       /\ assess (assessed_plan draft) = Ok assess_
       /\ _hard_ok awp
          = (fst c && fst (apophatic_ok constraint_order (params draft))
             && (fge (coverage assess_) coverage_threshold
                 && rollback_ready assess_))%bool.
Proof.
  intros Hb.
  destruct (build_inv _ _ _ _ Hb)
    as (c & scope & assess_ & hidx & pen & rri & p3 & p4 & p5 & Hc & _ & Ha & _
        & _ & _ & Hps & Hn3 & Hn4 & Hn5 & Ho3 & _ & _ & Hm3 & Hm4 & Hm5 & Hid
        & _ & _ & blend & Hrisk).
  destruct awp as [i a r ps d t]. cbn [proofs awp_id risk] in *. subst ps.
  match goal with
  | |- context [mk "consent" ?o ?d] => set (p1 := mk "consent" o d)
  end.
  match goal with
  | |- context [mk "apophatic" ?o ?d] => set (p2 := mk "apophatic" o d)
  end.
  destruct (hard_ok_five p1 p2 p3 p4 p5 i a r d t eq_refl eq_refl Hn3 Hn4 Hn5)
    as (Hhard & He1 & He2 & He3 & Hrails).
  split; [cbn; now rewrite Hn3, Hn4, Hn5|].
  split.
  { intros p [<-|[<-|[<-|[<-|[<-|[]]]]]]; try reflexivity; assumption. }
  split; [exact Hid|].
  split; [rewrite Hrisk; apply py_min_upper; vm_compute; reflexivity|].
  split; [now rewrite Hhard, He1, He2, He3|].
  split; [now rewrite Hrails, Hhard|].
  exists c, assess_. split; [exact Hc|]. split; [exact Ha|].
  rewrite Hhard, Ho3. reflexivity.
Qed.

End BuildFacts.

(** ** The twin's two candidates *)

Lemma filter_keys_set (f : string -> bool) k v (d : dict) :
  f k = false ->
  List.filter f (List.map fst (dict_set k v d)) = List.filter f (List.map fst d).
Proof.
  intros Hk. induction d as [|[k0 v0] d IH]; cbn.
  - now rewrite Hk.
  - destruct (String.eqb_spec k k0) as [->|Hne]; cbn; [reflexivity|].
    now rewrite IH.
Qed.

Lemma local_check_ignores_will constraint_order v params :
  ~ In "will" constraint_order ->
  apophatic_ok constraint_order (dict_set "will" v params)
  = apophatic_ok constraint_order params.
Proof.
  intros Hw. unfold apophatic_ok.
  rewrite filter_keys_set by reflexivity.
  assert (Hf : List.filter (unaffirmed (dict_set "will" v params)) constraint_order
               = List.filter (unaffirmed params) constraint_order).
  { apply filter_ext_in. intros k Hk. unfold unaffirmed.
    rewrite dict_get_set_other; [reflexivity|]. intros ->. contradiction. }
  now rewrite Hf.
Qed.

(** X25: In a contemplation the primary advice and the counter-advice always
    carry the same consent proof and the same apophatic proof, token
    included: the inversion leaves the context alone and changes no
    parameter but [will], which the local apophatic check does not read.
    The two builds may see different answers from the pricer, the ledger
    and the clock.  So whenever the twin selects by the hard gates, the
    externalities proof alone decided it. *)
Theorem twin_candidates_differ_in_externalities_only
    (float_of_str : string -> option float)
    (float_repr : float -> string) (json_string blake2b_hex : string -> string)
    (constraint_order : list string) (coverage_threshold : float)
    (assess1 assess2 : dict -> result Assessment)
    (compute_index1 compute_index2 : result HarmIndex)
    (penalties1 penalties2 : HarmIndex -> result Penalties)
    (compute_rri1 compute_rri2 : result float)
    (float_sum : list float -> float)
    (now1 now2 : float) (draft cd : AdviceDraft) (answer : string)
    (p c : AdviceWithProof) :
  Permutation constraint_order ProofCarryingAdvice.CONSTRAINT_ONLY ->
  build float_repr json_string blake2b_hex constraint_order coverage_threshold
        assess1 compute_index1 penalties1 compute_rri1 float_sum
        now1 draft answer = Ok p ->
  _invert float_of_str draft = Ok cd ->
  build float_repr json_string blake2b_hex constraint_order coverage_threshold
        assess2 compute_index2 penalties2 compute_rri2 float_sum
        now2 cd (_counter_answer answer) = Ok c ->
  exists pc pa e1 e2 rest1 rest2,
    proofs p = pc :: pa :: e1 :: rest1
    /\ proofs c = pc :: pa :: e2 :: rest2
    /\ name pc = "consent" /\ name pa = "apophatic"
    /\ name e1 = "externalities" /\ name e2 = "externalities"
    /\ _hard_ok p = (ok pc && ok pa && ok e1)%bool
    /\ _hard_ok c = (ok pc && ok pa && ok e2)%bool
    /\ (_hard_ok p <> _hard_ok c -> ok e1 <> ok e2).
Proof.
  intros Hperm Hp Hcd Hc.
  assert (Hw : ~ In "will" constraint_order).
  { intros Hin. apply (Permutation_in _ Hperm) in Hin. cbn in Hin.
    intuition discriminate. }
  assert (Hctx : context cd = context draft
                 /\ apophatic_ok constraint_order (params cd)
                    = apophatic_ok constraint_order (params draft)).
  { rewrite TwinExtra.invert_eq in Hcd.
    destruct (str_upper _) as [w|e]; cbn [mbind result_bind] in Hcd;
      [|discriminate].
    destruct (lines_of draft) as [lines|e]; cbn [mbind result_bind] in Hcd;
      [|discriminate].
    destruct (harden_lines _ _ _) as [lines'|e]; cbn [mbind result_bind] in Hcd;
      [|discriminate].
    injection Hcd as <-. cbn [context params]. split; [reflexivity|].
    destruct (invert_will w); [|reflexivity].
    now apply local_check_ignores_will. }
  destruct Hctx as [Hctx Hapo].
  destruct (build_inv _ _ _ _ _ _ _ _ _ _ _ _ _ _ Hp)
    as (c1 & s1 & _ & _ & _ & _ & e1 & h1 & r1 & Hc1 & Hs1 & _ & _ & _ & _
        & Hps1 & Hn1 & Hh1 & Hr1 & _).
  destruct (build_inv _ _ _ _ _ _ _ _ _ _ _ _ _ _ Hc)
    as (c2 & s2 & _ & _ & _ & _ & e2 & h2 & r2 & Hc2 & Hs2 & _ & _ & _ & _
        & Hps2 & Hn2 & Hh2 & Hr2 & _).
  rewrite Hctx in Hc2, Hs2. rewrite Hapo in Hps2.
  assert (c2 = c1) as -> by congruence.
  assert (s2 = s1) as -> by congruence.
  destruct p as [i1 a1 k1 ps1 d1 t1], c as [i2 a2 k2 ps2 d2 t2].
  cbn [proofs] in *. subst ps1 ps2.
  match goal with
  | |- context [_mk_proof _ _ _ "consent" ?o ?d] =>
      set (pc := _mk_proof float_repr json_string blake2b_hex "consent" o d)
  end.
  match goal with
  | |- context [_mk_proof _ _ _ "apophatic" ?o ?d] =>
      set (pa := _mk_proof float_repr json_string blake2b_hex "apophatic" o d)
  end.
  destruct (hard_ok_five pc pa e1 h1 r1 i1 a1 k1 d1 t1 eq_refl eq_refl Hn1 Hh1 Hr1)
    as (Hhard1 & _).
  destruct (hard_ok_five pc pa e2 h2 r2 i2 a2 k2 d2 t2 eq_refl eq_refl Hn2 Hh2 Hr2)
    as (Hhard2 & _).
  exists pc, pa, e1, e2, [h1; r1], [h2; r2].
  repeat (split; [reflexivity || assumption|]).
  rewrite Hhard1, Hhard2. intros Hne Heq. apply Hne. now rewrite Heq.
Qed.

(** Stand-ins for the collaborators, to run the model on the example
    draft: full coverage, no harm, and remembrance at 0.9. *)
Lemma build_assembles_five_proofs_witness :
  exists awp,
    demo_pca 5%float example_draft "yes" = Ok awp
    /\ List.map name (proofs awp) =
       ["consent"; "apophatic"; "externalities"; "harms_ledger"; "remembrance"]
    /\ fle (risk awp) 1%float = true
    /\ Grace.rails_ok awp = _hard_ok awp.
Proof.
  destruct (demo_pca 5%float example_draft "yes") as [awp|e] eqn:Hb;
    [|vm_compute in Hb; discriminate].
  destruct (build_assembles_five_proofs _ _ _ _ _ _ _ _ _ _ _ _ _ _ Hb)
    as (Hn & _ & _ & Hr & _ & Hg & _).
  exists awp. auto.
Defined.

Lemma twin_candidates_differ_in_externalities_only_witness :
  exists p c pc pa,
    demo_pca 5%float example_draft "yes" = Ok p
    /\ (exists cd, _invert (fun _ => None) example_draft = Ok cd
                   /\ demo_pca 6%float cd (_counter_answer "yes") = Ok c)
    /\ nth_error (proofs p) 0 = Some pc /\ nth_error (proofs c) 0 = Some pc
    /\ nth_error (proofs p) 1 = Some pa /\ nth_error (proofs c) 1 = Some pa.
Proof.
  destruct (demo_pca 5%float example_draft "yes") as [p|e] eqn:Hp;
    [|vm_compute in Hp; discriminate].
  destruct (_invert (fun _ => None) example_draft) as [cd|e] eqn:Hcd;
    [|vm_compute in Hcd; discriminate].
  destruct (demo_pca 6%float cd (_counter_answer "yes")) as [c|e] eqn:Hc.
  2:{ vm_compute in Hcd. injection Hcd as <-. vm_compute in Hc. discriminate. }
  destruct (twin_candidates_differ_in_externalities_only
              (fun _ => None) demo_repr demo_quote demo_digest
              (rev ProofCarryingAdvice.CONSTRAINT_ONLY) 0.95%float
              demo_assess demo_assess demo_index demo_index
              demo_penalties demo_penalties demo_rri demo_rri demo_sum
              5%float 6%float example_draft cd "yes" p c)
    as (pc & pa & e1 & e2 & rest1 & rest2 & H1 & H2 & _).
  - symmetry. apply Permutation_rev.
  - exact Hp.
  - exact Hcd.
  - exact Hc.
  - exists p, c, pc, pa. split; [reflexivity|].
    split; [exists cd; split; [reflexivity|exact Hc]|].
    rewrite H1, H2. repeat split.
Defined.

End AdviceExtra.

(* ================================================================== *)
(** * More on the metrics *)
(* ================================================================== *)

Module MetricsExtra.
Import ProofCarryingAdvice ShadowTwin ShadowTwinFacts.

Lemma zero_le_one : fle 0%float 1%float = true.
Proof. vm_compute. reflexivity. Qed.

Lemma unit_clamp x :
  fle 0%float (py_max 0 (py_min 1 x)) = true
  /\ fle (py_max 0 (py_min 1 x)) 1%float = true.
Proof. apply py_max_py_min_bounds, zero_le_one. Qed.

(** ** Energy *)

(** X28: The energy of an advice is a number between 0 and 1, whatever the
    penalties and the risk are, a penalty or a risk that is not a number
    included; the call returns whenever the ledger answers. *)
Theorem energy_is_a_unit_score (round4 : float -> float)
    (compute_index : result HarmIndex) (penalties : HarmIndex -> result Penalties)
    (awp : AdviceWithProof) (hidx : option HarmIndex) :
  (forall h, match hidx with Some h' => Ok h' | None => compute_index end = Ok h ->
             exists pen, penalties h = Ok pen) ->
  (exists h, match hidx with Some h' => Ok h' | None => compute_index end = Ok h) ->
  exists s,
    Energy.from_proofs round4 compute_index penalties awp hidx = Ok s
    /\ fle 0%float (Energy.E s) = true
    /\ fle (Energy.E s) 1%float = true.
Proof.
  intros Hpen [h Hh]. unfold Energy.from_proofs. rewrite Hh.
  cbn [mbind result_bind].
  destruct (Hpen h Hh) as [pen ->]. cbn [mbind result_bind].
  eexists. split; [reflexivity|]. cbn [Energy.E]. apply unit_clamp.
Qed.

(** ** Grace *)

(** X29: The grace of an advice is a number between 0 and 1, whatever the
    coverage, the coverage target, the penalties and the risk. *)
Theorem grace_is_a_unit_score (round4 : float -> float)
    (compute_index : result HarmIndex) (penalties : HarmIndex -> result Penalties)
    (coverage_target : float)
    (awp : AdviceWithProof) (assess : Assessment) (hidx : option HarmIndex)
    (s : Grace.GraceSnapshot) :
  Grace.from_assessment round4 compute_index penalties coverage_target
    awp assess hidx = Ok s ->
  fle 0%float (Grace.G s) = true /\ fle (Grace.G s) 1%float = true.
Proof.
  unfold Grace.from_assessment.
  destruct (match hidx with Some h => Ok h | None => compute_index end)
    as [h|e]; cbn [mbind result_bind]; [|discriminate].
  destruct (penalties h) as [pen|e]; cbn [mbind result_bind]; [|discriminate].
  intros [= <-]. cbn [Grace.G]. apply unit_clamp.
Qed.

(** ** Stand and Throne-Fiber *)

Lemma by_name_last ps n :
  (exists p, In p ps /\ name p = n) ->
  exists p, In p ps /\ name p = n /\ by_name ps !! n = Some (ok p).
Proof.
  induction ps as [|q ps IH] using rev_ind; intros (p & Hin & Hn); [destruct Hin|].
  rewrite by_name_snoc. destruct (decide (name q = n)) as [Hq|Hq].
  - exists q. split; [apply in_or_app; right; now left|].
    split; [exact Hq|]. rewrite <- Hq. apply lookup_insert_eq.
  - apply in_app_or in Hin. destruct Hin as [Hin|[->|[]]]; [|contradiction].
    destruct IH as (p' & Hin' & Hn' & Hl); [eauto|].
    exists p'. split; [apply in_or_app; now left|]. split; [exact Hn'|].
    now rewrite lookup_insert_ne.
Qed.

Lemma rails_ok_all awp p :
  Grace.rails_ok awp = true -> In p (proofs awp) ->
  In (name p) ["consent"; "apophatic"; "externalities"] -> ok p = true.
Proof.
  unfold Grace.rails_ok. rewrite forallb_forall. intros Hall Hin Hn.
  apply Hall, filter_In. split; [exact Hin|].
  unfold Grace.is_rail. apply existsb_exists. exists (name p).
  split; [exact Hn|apply String.eqb_refl].
Qed.

Lemma at_least_not_below (x lo hi : float) :
  flt lo hi = true -> fge x hi = true -> flt x lo = false.
Proof.
  intros Hlo Hx. rewrite fge_fle in Hx.
  destruct (flt x lo) eqn:Hbelow; [|reflexivity].
  pose proof (flt_trans _ _ _ Hbelow Hlo) as Hc.
  rewrite (fle_not_flt _ _ Hx) in Hc. discriminate.
Qed.

(** X30: An advice that carries a proof for each of the three hard rails is
    never both recommended for Stand and counted as Throne-Fiber.  Without
    that the two flags can hold together: on an advice with no proofs at
    all Stand is always recommended, while Throne-Fiber depends on the four
    scores alone. *)
Theorem throne_fiber_excludes_stand (E : Energy.EnergySnapshot)
    (G : Grace.GraceSnapshot) (K : Trackers.KenosisSnapshot) (RRI : float)
    (awp : AdviceWithProof) :
  ((forall n, In n ["consent"; "apophatic"; "externalities"] ->
      exists p, In p (proofs awp) /\ name p = n) ->
   Trackers._throne_fiber E G K RRI awp = true ->
   Trackers._stand E G RRI awp = false)
  /\ (proofs awp = [] ->
      Trackers._stand E G RRI awp = true
      /\ Trackers._throne_fiber E G K RRI awp
         = (fge (Energy.E E) 0.70%float && fge (Grace.G G) 0.70%float
            && fge (Trackers.K K) 0.70%float && fge RRI 0.70%float)%bool).
Proof.
  split.
  - intros Hnames. unfold Trackers._throne_fiber, Trackers._stand.
    rewrite !andb_true_iff. intros [[[[Hrails HE] HG] HK] HR].
    assert (Hl : forall n, In n ["consent"; "apophatic"; "externalities"] ->
                   by_name (proofs awp) !! n = Some true).
    { intros n Hn. destruct (by_name_last _ n (Hnames n Hn)) as (p & Hin & Hp & ->).
      f_equal. apply (rails_ok_all awp p Hrails Hin). now rewrite Hp. }
    rewrite !Hl by (cbn; tauto). cbn [default negb andb orb].
    rewrite (at_least_not_below (Energy.E E) 0.55%float 0.70%float)
      by (assumption || (vm_compute; reflexivity)).
    cbn [andb orb]. apply fle_not_flt. now rewrite <- fge_fle.
  - intros Hps. unfold Trackers._throne_fiber, Trackers._stand, Grace.rails_ok.
    rewrite Hps. split; reflexivity.
Qed.

(** An advice as [build] returns it on the example draft, with scores of
    0.8: Throne-Fiber holds and Stand is not recommended. *)
Lemma throne_fiber_excludes_stand_witness :
  Trackers._stand (Energy.mkEnergy 0.8 [] "") (Grace.mkGrace 0.8 [] "") 0.8%float
    demo_advice = false.
Proof.
  destruct (throne_fiber_excludes_stand
              (Energy.mkEnergy 0.8 [] "") (Grace.mkGrace 0.8 [] "")
              (Trackers.mkKenosis 0.8 [] "") 0.8%float demo_advice) as [H _].
  apply H.
  - intros n [<-|[<-|[<-|[]]]].
    + exists (mkProof "consent" true [] "c"). split; [cbn; tauto|reflexivity].
    + exists (mkProof "apophatic" true [] "a"). split; [cbn; tauto|reflexivity].
    + exists (mkProof "externalities" true [] "e"). split; [cbn; tauto|reflexivity].
  - vm_compute. reflexivity.
Defined.

Lemma energy_is_a_unit_score_witness :
  exists s,
    Energy.from_proofs (fun x => x) demo_index demo_penalties demo_advice None = Ok s
    /\ fle 0%float (Energy.E s) = true
    /\ fle (Energy.E s) 1%float = true.
Proof.
  apply energy_is_a_unit_score.
  - intros h _. now eexists.
  - now eexists.
Defined.

Lemma grace_is_a_unit_score_witness :
  exists s,
    Grace.from_assessment (fun x => x) demo_index demo_penalties 0.95%float
      demo_advice (mkAssessment 1 true []) None = Ok s
    /\ fle 0%float (Grace.G s) = true /\ fle (Grace.G s) 1%float = true.
Proof.
  eexists. split; [reflexivity|].
  apply (grace_is_a_unit_score (fun x => x) demo_index demo_penalties 0.95%float
           demo_advice (mkAssessment 1 true []) None).
  reflexivity.
Defined.

End MetricsExtra.

(* ================================================================== *)
(** * More on the will kernels *)
(* ================================================================== *)

Module KernelExtra.
Import DecisionCore Kernels.

Section KernelFacts.

Variable _K_MIN : float.
Variable _K_MAX : float.
Variable operators : dict.
Variable float_of_str : string -> option float.

Local Abbreviation _clamp := (_clamp _K_MIN _K_MAX).
Local Abbreviation _FUNCS := (_FUNCS _K_MIN _K_MAX float_of_str).
Local Abbreviation kernel_of := (kernel_of _K_MIN _K_MAX operators float_of_str).
Local Abbreviation weight_for := (weight_for _K_MIN _K_MAX operators float_of_str).

Lemma clamp_idempotent x : _clamp (_clamp x) = _clamp x.
Proof.
  unfold Kernels._clamp, py_max, py_min. rewrite !fgt_flt.
  destruct (flt x _K_MAX) eqn:Hx; destruct (flt _K_MIN x) eqn:Hl;
    destruct (flt _K_MIN _K_MAX) eqn:Hb;
    repeat first [progress cbv iota | rewrite Hx | rewrite Hl | rewrite Hb
                 | rewrite flt_irrefl];
    reflexivity.
Qed.

Ltac run_kernel H :=
  repeat match type of H with
         | context [mbind _ ?m] =>
             destruct m; cbn [mbind result_bind] in H; [|discriminate H]
         end;
  injection H as <-; eexists; reflexivity.

(** Each of the nine kernels returns a clamped value. *)
Lemma kernel_returns_clamped n fn state action k :
  lookup_kernel _FUNCS n = Some fn ->
  fn state action = Ok k ->
  exists base, k = _clamp base.
Proof.
  unfold Kernels._FUNCS. cbn [lookup_kernel].
  repeat match goal with
  | |- context [String.eqb n ?s] =>
      destruct (String.eqb n s);
      [intros [= <-]; intros H;
       first [ unfold inverted_tetrahedron in H; run_kernel H
             | unfold spiral_sphere in H; run_kernel H
             | unfold dual_torus in H; run_kernel H
             | unfold golden_gnomon in H; run_kernel H
             | unfold nested_dodecahedron in H; run_kernel H
             | unfold mobius_intersect in H; run_kernel H
             | unfold spiral_pyramid in H; run_kernel H
             | unfold vanishing_ellipse in H; run_kernel H
             | unfold folded_voidstar in H; run_kernel H ]|]
  end.
  discriminate.
Qed.

Lemma kernel_of_known op fn :
  kernel_of op = Ok fn -> exists n, lookup_kernel _FUNCS n = Some fn.
Proof.
  unfold Kernels.kernel_of.
  destruct (dict_get op operators) as [[]|]; try discriminate.
  destruct (dict_get "kernel" d) as [[]|]; try discriminate.
  destruct (lookup_kernel _FUNCS s) as [fn'|] eqn:Hs; [|discriminate].
  intros [= <-]. now exists s.
Qed.

(** X21: The weight a will operator gives an action is the value of the kernel
    the operator table names for it, unchanged by the dispatcher's own
    clamp; an operator that is not in the table raises KeyError whatever
    the action is.  A value that is not a number is clamped to the larger
    of the two bounds, and when the lower clamp bound does not exceed the
    upper one every weight lies between the two (so it is a number). *)
Theorem weight_is_the_clamped_kernel (will_operator : string) (state : State)
    (obj : action_obj) :
  weight_for will_operator state obj
  = (fn ← kernel_of will_operator; fn state (params_of obj))
  /\ (dict_get will_operator operators = None ->
      weight_for will_operator state obj = Raise KeyError)
  /\ (forall x, feq x x = false -> _clamp x = py_max _K_MIN _K_MAX)
  /\ (fle _K_MIN _K_MAX = true ->
      forall k, weight_for will_operator state obj = Ok k ->
        fle _K_MIN k = true /\ fle k _K_MAX = true).
Proof.
  assert (Heq : weight_for will_operator state obj
                = (fn ← kernel_of will_operator; fn state (params_of obj))).
  { unfold Kernels.weight_for. fold (params_of obj).
    destruct (kernel_of will_operator) as [fn|e] eqn:Hfn;
      cbn [mbind result_bind]; [|reflexivity].
    destruct (fn state (params_of obj)) as [k|e] eqn:Hk;
      cbn [mbind result_bind]; [|reflexivity].
    destruct (kernel_of_known _ _ Hfn) as [n Hn].
    destruct (kernel_returns_clamped _ _ _ _ _ Hn Hk) as [base ->].
    now rewrite clamp_idempotent. }
  split; [exact Heq|]. split; [|split].
  - intros Hop. unfold Kernels.weight_for, Kernels.kernel_of. now rewrite Hop.
  - intros x Hx. unfold Kernels._clamp, py_min.
    assert (flt x _K_MAX = false) as ->; [|reflexivity].
    destruct (flt x _K_MAX) eqn:Hlt; [|reflexivity].
    apply flt_fle, fle_number in Hlt. destruct Hlt. congruence.
  - intros Hb k. unfold Kernels.weight_for.
    destruct (kernel_of will_operator) as [fn|e]; cbn [mbind result_bind];
      [|discriminate].
    destruct (fn state _) as [k'|e]; cbn [mbind result_bind]; [|discriminate].
    intros [= <-]. now apply py_max_py_min_bounds.
Qed.

End KernelFacts.

(** The clamp of the shipped defaults, 0.25 to 4: the negation kernel on a
    plain action weighs 1.1. *)
Lemma weight_is_the_clamped_kernel_witness :
  exists k,
    weight_for 0.25 4 demo_operators (fun _ => None) "NEG" ticket_state
      (ObjAction plain) = Ok k
    /\ fle 0.25 k = true /\ fle k 4 = true.
Proof.
  destruct (weight_for 0.25 4 demo_operators (fun _ => None) "NEG" ticket_state
              (ObjAction plain)) as [k|e] eqn:Hk; [|vm_compute in Hk; discriminate].
  destruct (weight_is_the_clamped_kernel 0.25 4 demo_operators (fun _ => None)
              "NEG" ticket_state (ObjAction plain)) as (_ & _ & _ & Hb).
  exists k. split; [reflexivity|].
  apply Hb; [vm_compute; reflexivity|exact Hk].
Defined.

End KernelExtra.

(* ================================================================== *)
(** * More on the retry of the solver *)
(* ================================================================== *)

Module RetryExtra.
Import DecisionCore DecisionFacts.

(** ** Negation and the order *)

Lemma SFcompare_opp x y : SFcompare (SFopp x) (SFopp y) = SFcompare y x.
Proof.
  destruct x as [sx|sx| |sx mx ex], y as [sy|sy| |sy my ey];
    try destruct sx; try destruct sy; cbn [SFcompare SFopp negb];
    try reflexivity;
    rewrite (Z.compare_antisym ey ex);
    change (PosDef.Pos.compare_cont Eq) with Pos.compare;
    rewrite (Pos.compare_antisym my mx);
    destruct (Z.compare ey ex), (Pos.compare my mx); reflexivity.
Qed.

Lemma flt_opp a b : flt (- a) (- b) = flt b a.
Proof.
  unfold flt. rewrite !FloatAxioms.ltb_spec, !FloatAxioms.opp_spec.
  unfold SFltb. now rewrite SFcompare_opp.
Qed.

Lemma feq_opp a b : feq (- a) (- b) = feq b a.
Proof.
  unfold feq. rewrite !FloatAxioms.eqb_spec, !FloatAxioms.opp_spec.
  unfold SFeqb. now rewrite SFcompare_opp.
Qed.

Lemma feq_comm a b : feq a b = feq b a.
Proof.
  destruct (feq a b) eqn:H1, (feq b a) eqn:H2; try reflexivity.
  - apply feq_sym in H1. congruence.
  - apply feq_sym in H2. congruence.
Qed.

(** The sort key [(-G, E)] orders by grace, highest first, then by raw
    cost, lowest first. *)
Lemma key_lt_outranks t1 t2 :
  key_lt (sort_key t1) (sort_key t2) = outranks t1 t2.
Proof.
  unfold key_lt, sort_key, outranks. cbn [fst snd].
  rewrite feq_opp, flt_opp, fgt_flt, (feq_comm (s_G t2) (s_G t1)).
  destruct (feq (s_G t1) (s_G t2)) eqn:Hg.
  - rewrite (flt_not_feq_false (s_G t2) (s_G t1)) by now apply feq_sym.
    cbn [orb andb].
    destruct (feq (s_E t1) (s_E t2)) eqn:He; [|reflexivity].
    symmetry. now apply flt_not_feq_false.
  - cbn [andb]. now rewrite orb_false_r.
Qed.

Lemma outranks_irrefl t : outranks t t = false.
Proof.
  unfold outranks. rewrite fgt_flt, !flt_irrefl. cbn. apply andb_false_r.
Qed.

Lemma outranks_asym t1 t2 : outranks t1 t2 = true -> outranks t2 t1 = false.
Proof.
  unfold outranks. rewrite !fgt_flt, !orb_true_iff, !andb_true_iff.
  intros [Hg|[Hg He]].
  - rewrite (flt_asym _ _ Hg), (flt_not_feq _ _ Hg). reflexivity.
  - rewrite (flt_not_feq_false _ _ Hg), (flt_asym _ _ He). cbn.
    apply andb_false_r.
Qed.

Lemma outranks_neg_trans t h x :
  numeric h ->
  outranks t x = true -> outranks t h = true \/ outranks h x = true.
Proof.
  intros [HGh HEh]. unfold outranks.
  rewrite !fgt_flt, !orb_true_iff, !andb_true_iff.
  intros [Hg|[Hg He]].
  - destruct (fle_number _ _ (flt_fle _ _ Hg)) as [_ HGt].
    destruct (flt_total (s_G h) (s_G t) HGh HGt) as [H|[H|H]].
    + left. now left.
    + right. left. eapply flt_feq_trans; [exact Hg|now apply feq_sym].
    + right. left. eapply flt_trans; eassumption.
  - destruct (fle_number _ _ (feq_fle _ _ Hg)) as [HGt _].
    destruct (fle_number _ _ (flt_fle _ _ He)) as [HEt _].
    destruct (flt_total (s_G h) (s_G t) HGh HGt) as [H|[H|H]].
    + left. now left.
    + destruct (flt_total (s_E h) (s_E t) HEh HEt) as [H'|[H'|H']].
      * right. right. split; [eapply feq_trans; eassumption|].
        eapply flt_trans; eassumption.
      * right. right. split; [eapply feq_trans; eassumption|].
        eapply feq_flt_trans; eassumption.
      * left. right. split; [now apply feq_sym|exact H'].
    + right. left. eapply feq_flt_trans; [apply feq_sym|]; eassumption.
Qed.

(** ** The head of the sorted list *)

Lemma sort_head_is_unbeaten l : forall t2 rest,
  (forall t, In t l -> numeric t) ->
  sort_scored l = t2 :: rest ->
  In t2 l /\ forall t, In t l -> outranks t t2 = false.
Proof.
  induction l as [|x l IH]; intros t2 rest Hnum Hs; [discriminate|].
  cbn [sort_scored] in Hs.
  destruct (sort_scored l) as [|h tl] eqn:Hl.
  - assert (l = []) as ->.
    { destruct l as [|y l']; [reflexivity|].
      assert (In y (sort_scored (y :: l'))) by (apply sort_scored_In; now left).
      rewrite Hl in *. contradiction. }
    cbn in Hs. injection Hs as <- <-. split; [now left|].
    intros t [<-|[]]. apply outranks_irrefl.
  - destruct (IH h tl) as [Hin Hbest];
      [intros t Ht; apply Hnum; now right|reflexivity|].
    cbn [insert_scored] in Hs. rewrite key_lt_outranks in Hs.
    destruct (outranks h x) eqn:Hhx.
    + injection Hs as <- <-. split; [now right|].
      intros t [<-|Ht]; [now apply outranks_asym|now apply Hbest].
    + injection Hs as <- <-. split; [now left|].
      intros t [<-|Ht]; [apply outranks_irrefl|].
      destruct (outranks t x) eqn:Htx; [|reflexivity].
      destruct (outranks_neg_trans t h x) as [H|H];
        [apply Hnum; now right|exact Htx| |congruence].
      rewrite (Hbest t Ht) in H. discriminate.
Qed.

Section Retry.

Variable _MIN_DELTA_E : float.
Variable _MIN_GRACE : float.
Variable energy_E : State -> Action -> result float.
Variable grace_G : State -> Action -> result float.
Variable kernel_weight : State -> Action -> result float.

Local Abbreviation score_all := (score_all energy_E grace_G kernel_weight).
Local Abbreviation minimal_clean_move :=
  (minimal_clean_move _MIN_DELTA_E _MIN_GRACE energy_E grace_G kernel_weight).

(** X18: When the top pick is a net improvement whose coherence misses the
    floor, the solver looks again among the candidates whose raw cost is
    below the move threshold.  Provided their coherence scores are numbers,
    it returns the one among them of highest coherence, of lowest raw cost
    among those of that coherence, if that one meets the floor; it returns
    no move only if none of them meets the floor. *)
Theorem retry_takes_the_most_graceful (state : State) (cands : list Action)
    (l : list scored) (r : option Action * option float * option float) :
  score_all state cands = Ok l ->
  minimal_clean_move state cands = Ok r ->
  (exists a, b_action (select_best l) = Some a) ->
  fge (b_E (select_best l)) _MIN_DELTA_E = false ->
  flt (b_G (select_best l)) _MIN_GRACE = true ->
  (forall t, In t l -> flt (s_E t) _MIN_DELTA_E = true ->
             feq (s_G t) (s_G t) = true) ->
  (r = no_move
   /\ forall t, In t l -> flt (s_E t) _MIN_DELTA_E = true ->
                fge (s_G t) _MIN_GRACE = false)
  \/ (exists t2,
        In t2 l
        /\ r = (Some (s_action t2), Some (s_E t2), Some (s_G t2))
        /\ flt (s_E t2) _MIN_DELTA_E = true
        /\ fge (s_G t2) _MIN_GRACE = true
        /\ forall t, In t l -> flt (s_E t) _MIN_DELTA_E = true ->
             fgt (s_G t) (s_G t2) = false
             /\ (feq (s_G t) (s_G t2) = true -> flt (s_E t) (s_E t2) = false)).
Proof.
  intros Hl Hr [a Ha] Hidle Hlow Hnum.
  unfold DecisionCore.minimal_clean_move in Hr. rewrite Hl in Hr.
  cbn [mbind result_bind] in Hr. injection Hr as <-.
  unfold enforce_thresholds. rewrite Ha, Hidle, Hlow.
  set (viable := List.filter (fun t => flt (s_E t) _MIN_DELTA_E) l).
  assert (Hv : forall t, In t viable <-> In t l /\ flt (s_E t) _MIN_DELTA_E = true).
  { intros t. apply filter_In. }
  assert (Hvnum : forall t, In t viable -> numeric t).
  { intros t Ht. apply Hv in Ht. destruct Ht as [Hin HE]. split.
    - now apply Hnum.
    - now destruct (fle_number _ _ (flt_fle _ _ HE)). }
  destruct (sort_scored viable) as [|t2 rest] eqn:Hs.
  - left. split; [reflexivity|]. intros t Hin HE.
    assert (In t (sort_scored viable)) by (apply sort_scored_In, Hv; auto).
    rewrite Hs in *. contradiction.
  - destruct (sort_head_is_unbeaten viable t2 rest Hvnum Hs) as [Hin2 Hbest].
    assert (Hun : forall t, In t l -> flt (s_E t) _MIN_DELTA_E = true ->
                    fgt (s_G t) (s_G t2) = false
                    /\ (feq (s_G t) (s_G t2) = true ->
                        flt (s_E t) (s_E t2) = false)).
    { intros t Hin HE. specialize (Hbest t (proj2 (Hv t) (conj Hin HE))).
      unfold outranks in Hbest. apply orb_false_iff in Hbest.
      destruct Hbest as [Hg Hge]. split; [exact Hg|].
      intros Heq. now rewrite Heq in Hge. }
    apply Hv in Hin2. destruct Hin2 as [Hin2 HE2].
    destruct (fge (s_G t2) _MIN_GRACE) eqn:Hfloor.
    + right. exists t2. auto.
    + left. split; [reflexivity|]. intros t Hin HE.
      destruct (fge (s_G t) _MIN_GRACE) eqn:Ht; [|reflexivity].
      exfalso. rewrite fge_fle in Ht, Hfloor.
      destruct (Hun t Hin HE) as [Hg _]. rewrite fgt_flt in Hg.
      assert (Hle : fle (s_G t) (s_G t2) = true).
      { apply not_flt_fle; [|now apply Hnum|exact Hg].
        apply (Hvnum t2). apply Hv. auto. }
      rewrite (fle_trans _ _ _ Ht Hle) in Hfloor. discriminate.
Qed.

End Retry.

(** The candidates [cheap] and [graceful]: the top pick [cheap] misses the
    floor and the retry returns [graceful]. *)
Lemma retry_takes_the_most_graceful_witness :
  exists t2,
    demo_solver ticket_state [cheap; graceful]
    = Ok (Some (s_action t2), Some (s_E t2), Some (s_G t2))
    /\ fge (s_G t2) 0.5%float = true.
Proof.
  destruct (retry_takes_the_most_graceful (-0.05)%float 0.5%float
              demo_energy demo_grace demo_kernel ticket_state [cheap; graceful]
              [(cheap, (-2)%float, (-1)%float, 0.1%float);
               (graceful, (-1)%float, (-1)%float, 0.8%float)]
              (Some graceful, Some (-1)%float, Some 0.8%float))
    as [[Hno _]|(t2 & _ & Hr & _ & Hfloor & _)].
  - vm_compute. reflexivity.
  - vm_compute. reflexivity.
  - exists cheap. vm_compute. reflexivity.
  - vm_compute. reflexivity.
  - vm_compute. reflexivity.
  - intros t [<-|[<-|[]]] _; vm_compute; reflexivity.
  - discriminate Hno.
  - exists t2. split; [|exact Hfloor].
    change (demo_solver ticket_state [cheap; graceful])
      with (minimal_clean_move (-0.05)%float 0.5%float demo_energy demo_grace
              demo_kernel ticket_state [cheap; graceful]).
    rewrite <- Hr. vm_compute. reflexivity.
Defined.

End RetryExtra.

(* ================================================================== *)
(** * More on the scorer and the ledger adapter *)
(* ================================================================== *)

Module StoreExtra.
Import ProofCarryingAdvice ShadowTwin DecisionCore.

(** ** The scorer's own checks *)

(** X26: The candidate scorer's two quick checks are the checks of
    [proof_carrying_advice] without the evidence: the consent check gives
    the same verdict and raises the same exceptions, and the apophatic
    check, which stops at the first offending key, gives the verdict of the
    check that collects all reasons, in whatever orders the two walk the
    set of constrained keys. *)
Theorem scorer_checks_are_the_advice_checks (ctx params : dict)
    (order order' : list string) :
  Permutation order ProofCarryingAdvice.CONSTRAINT_ONLY ->
  Permutation order' ProofCarryingAdvice.CONSTRAINT_ONLY ->
  CandidateScorer._consent_check ctx = (r ← consent_ok ctx; Ok (fst r))
  /\ CandidateScorer._apophatic_check order params
     = fst (apophatic_ok order' params).
Proof.
  intros Hp Hp'. split.
  - unfold CandidateScorer._consent_check, consent_ok.
    destruct (dict_get_default "consent" (VDict []) ctx); try reflexivity.
    destruct (dict_get "valid" d) as [[|[]| | | | |]|]; try reflexivity.
    destruct (dict_get_default "scope" VNone d); try reflexivity.
    destruct (existsb _ _); reflexivity.
  - unfold CandidateScorer._apophatic_check, apophatic_ok. cbn [fst].
    rewrite (GuardExtra.existsb_perm _ _ _ Hp),
            <- (GuardExtra.existsb_perm _ _ _ Hp').
    destruct (existsb forbidden _) eqn:Hf.
    + destruct (List.filter forbidden _) as [|k l] eqn:El; [|reflexivity].
      apply GuardExtra.filter_nil_existsb in El. congruence.
    + apply GuardExtra.filter_nil_existsb in Hf. rewrite Hf. cbn [List.map app].
      destruct (existsb (unaffirmed params) order') eqn:Hc.
      * destruct (List.filter _ order') as [|k l] eqn:El; [|reflexivity].
        apply GuardExtra.filter_nil_existsb in El. congruence.
      * apply GuardExtra.filter_nil_existsb in Hc. now rewrite Hc.
Qed.

Lemma scorer_checks_are_the_advice_checks_witness :
  CandidateScorer._consent_check (ProofCarryingAdvice.context example_draft) = Ok true
  /\ CandidateScorer._apophatic_check ProofCarryingAdvice.CONSTRAINT_ONLY
       (ProofCarryingAdvice.params example_draft) = true.
Proof.
  destruct (scorer_checks_are_the_advice_checks
              (ProofCarryingAdvice.context example_draft) (ProofCarryingAdvice.params example_draft)
              ProofCarryingAdvice.CONSTRAINT_ONLY
              (rev ProofCarryingAdvice.CONSTRAINT_ONLY)) as [Hc Ha].
  - reflexivity.
  - symmetry. apply Permutation_rev.
  - rewrite Hc, Ha. split; vm_compute; reflexivity.
Defined.

(** ** What reaches the ledger *)

Section Ledger.

Variable _MIN_DELTA_E : float.
Variable _MIN_GRACE : float.
Variable repair_max_days : float.
Variable ledger_required : bool.
Variable energy_E : State -> Action -> result float.
Variable grace_G : State -> Action -> result float.
Variable kernel_weight : State -> Action -> result float.
Variable price_externalities : State -> Action -> result dict.
Variable antimemory_countercontext : State -> Action -> result dict.
Variable attach_pca : string -> ProofBundle -> result string.

Variable float_repr : float -> string.
Variable json_string : string -> string.
Variable blake2b_hex : string -> string.
Variable constraint_order : list string.
Variable coverage_threshold : float.
Variable assess : dict -> result Assessment.
Variable compute_index : result HarmIndex.
Variable penalties : HarmIndex -> result Penalties.
Variable compute_rri : result float.
Variable float_sum : list float -> float.
Variable commit : AdviceWithProof -> result Z.
Variable millis : float -> string.

Local Abbreviation decide_from_rails :=
  (decide_from_rails _MIN_DELTA_E _MIN_GRACE repair_max_days ledger_required
     energy_E grace_G kernel_weight price_externalities
     antimemory_countercontext attach_pca).
Local Abbreviation build :=
  (build float_repr json_string blake2b_hex constraint_order coverage_threshold
         assess compute_index penalties compute_rri float_sum).
Local Abbreviation store :=
  (PcaStore.store float_repr json_string blake2b_hex constraint_order
     coverage_threshold assess compute_index penalties compute_rri float_sum
     commit millis).

(** The consent proof of a decision holds the rail's verdict and the
    tickets, and no other entry. *)
Lemma decided_consent now state cands consent_ok tickets apoph_ok r :
  decide_from_rails now state cands consent_ok [("tickets", tickets)]
                    apoph_ok [("apophatic_ok", VBool apoph_ok)] = Ok r ->
  consent (DecisionCore.proofs r)
  = [("ok", VBool consent_ok); ("tickets", tickets)].
Proof.
  unfold DecisionCore.decide_from_rails.
  destruct (negb consent_ok || negb apoph_ok)%bool; [now intros [= <-]|].
  destruct (if (_ || _)%bool then _ else _) as [ethics_info|e];
    cbn [mbind result_bind]; [|discriminate].
  destruct (minimal_clean_move _ _ _ _ _ state cands) as [[[action dE] G]|e];
    cbn [mbind result_bind]; [|discriminate].
  destruct ledger_required; cbn [mbind result_bind].
  - destruct (attach_pca _ _) as [lid|e]; cbn [mbind result_bind]; [|discriminate].
    now intros [= <-].
  - now intros [= <-].
Qed.

Lemma store_inv now later answer bundle lid :
  store now later answer bundle = Ok lid ->
  exists plan awp z,
    build later (PcaStore.draft_of millis now bundle plan) answer = Ok awp
    /\ commit awp = Ok z /\ lid = json_int z.
Proof.
  unfold PcaStore.store.
  destruct (dict_get_default "plan" (VDict []) (ethics bundle)) as [| | | | | |plan].
  1-6: (destruct (consent_ok _) as [c|e]; cbn [mbind result_bind];
        [|discriminate];
        destruct (context_scope _) as [sc|e]; cbn [mbind result_bind];
        discriminate).
  destruct (ProofCarryingAdvice.build _ _ _ _ _ _ _ _ _ _ _ _ _) as [awp|e] eqn:Hb;
    cbn [mbind result_bind]; [|discriminate].
  destruct (commit awp) as [z|e] eqn:Hz; cbn [mbind result_bind]; [|discriminate].
  intros [= <-]. now exists plan, awp, z.
Qed.

(** X27: Whatever [store] commits to the ledger for a decision of [decide]
    fails the hard gates.  The draft it builds carries the decision's
    consent proof as its consent entry; that proof holds the rail's verdict
    under [ok] and has no [valid] entry, which is what the advice engine's
    consent check looks for.  The advice committed has a failed consent
    proof, however the consent rail answered, and a passed apophatic
    proof. *)
Theorem ledger_advice_fails_the_consent_gate (now : float) (state : State)
    (cands : list Action) (consent_ok apoph_ok : bool) (tickets : value)
    (r : DecisionResult) (stamped later : float) (answer lid : string) :
  Permutation constraint_order ProofCarryingAdvice.CONSTRAINT_ONLY ->
  decide_from_rails now state cands consent_ok [("tickets", tickets)]
                    apoph_ok [("apophatic_ok", VBool apoph_ok)] = Ok r ->
  store stamped later answer (DecisionCore.proofs r) = Ok lid ->
  exists awp z,
    commit awp = Ok z /\ lid = json_int z
    /\ Energy._proof_ok awp "consent" = false
    /\ Energy._proof_ok awp "apophatic" = true
    /\ _hard_ok awp = false.
Proof.
  intros Hperm Hr Hs.
  pose proof (decided_consent _ _ _ _ _ _ _ Hr) as Hcons.
  destruct (store_inv _ _ _ _ _ Hs) as (plan & awp & z & Hb & Hz & ->).
  exists awp, z. split; [exact Hz|]. split; [reflexivity|].
  destruct (AdviceExtra.build_inv _ _ _ _ _ _ _ _ _ _ _ _ _ _ Hb)
    as (c & scope & _ & _ & _ & _ & p3 & p4 & p5 & Hc & _ & _ & _ & _ & _
        & Hps & Hn3 & Hn4 & Hn5 & _).
  cbn [PcaStore.draft_of ProofCarryingAdvice.context ProofCarryingAdvice.params]
    in Hc, Hps.
  rewrite Hcons in Hc. cbn in Hc. injection Hc as <-.
  assert (Ha : fst (apophatic_ok constraint_order
                      (ProofCarryingAdvice.params
                         (PcaStore.draft_of millis stamped (DecisionCore.proofs r) plan)))
               = true).
  { apply AdviceExtra.local_check_spec. split.
    - intros k Hk. cbn in Hk.
      destruct Hk as [<-|[<-|[<-|[<-|[]]]]]; reflexivity.
    - intros k v Hk. apply (Permutation_in _ Hperm) in Hk. cbn in Hk.
      destruct Hk as [<-|[<-|[<-|[<-|[]]]]]; discriminate. }
  cbn [PcaStore.draft_of ProofCarryingAdvice.params] in Ha.
  destruct awp as [i a k ps d t]. cbn [ProofCarryingAdvice.proofs] in Hps.
  subst ps.
  match goal with
  | |- context [_mk_proof _ _ _ "consent" ?o ?d] =>
      set (p1 := _mk_proof float_repr json_string blake2b_hex "consent" o d)
  end.
  match goal with
  | |- context [_mk_proof _ _ _ "apophatic" ?o ?d] =>
      set (p2 := _mk_proof float_repr json_string blake2b_hex "apophatic" o d)
  end.
  destruct (AdviceExtra.hard_ok_five p1 p2 p3 p4 p5 i a k d t
              eq_refl eq_refl Hn3 Hn4 Hn5) as (Hhard & He1 & He2 & _).
  rewrite Hhard, He1, He2. subst p1 p2. cbn [ok _mk_proof fst].
  rewrite Ha. repeat split.
Qed.

End Ledger.

(** The decision on [plain] and [graceful] at a valid ticket, stored with
    the stand-in collaborators: the rail passed, the advice committed has a
    failed consent proof. *)
Lemma ledger_advice_fails_the_consent_gate_witness :
  exists r awp,
    decide_from_rails (-0.05)%float 0.5%float 30%float false
      demo_energy demo_grace demo_kernel (fun _ _ => Ok []) (fun _ _ => Ok [])
      (fun _ _ => Ok "ledger:1") 2000%float ticket_state [plain; graceful]
      true [("tickets", VList [ticket_dict hour_ticket])]
      true [("apophatic_ok", VBool true)] = Ok r
    /\ decision r = Answer
    /\ Energy._proof_ok awp "consent" = false
    /\ _hard_ok awp = false.
Proof.
  destruct (decide_from_rails (-0.05)%float 0.5%float 30%float false
      demo_energy demo_grace demo_kernel (fun _ _ => Ok []) (fun _ _ => Ok [])
      (fun _ _ => Ok "ledger:1") 2000%float ticket_state [plain; graceful]
      true [("tickets", VList [ticket_dict hour_ticket])]
      true [("apophatic_ok", VBool true)]) as [r|e] eqn:Hr;
    [|vm_compute in Hr; discriminate].
  destruct (ledger_advice_fails_the_consent_gate
              (-0.05)%float 0.5%float 30%float false
              demo_energy demo_grace demo_kernel (fun _ _ => Ok [])
              (fun _ _ => Ok []) (fun _ _ => Ok "ledger:1")
              demo_repr demo_quote demo_digest
              (rev ProofCarryingAdvice.CONSTRAINT_ONLY) 0.95%float
              demo_assess demo_index demo_penalties demo_rri demo_sum
              (fun _ => Ok 1%Z) (fun _ => "0")
              2000%float ticket_state [plain; graceful] true true
              (VList [ticket_dict hour_ticket]) r 2001%float 2002%float
              "graceful" "1")
    as (awp & z & _ & _ & Hc & _ & Hh).
  - symmetry. apply Permutation_rev.
  - exact Hr.
  - vm_compute in Hr. injection Hr as <-. vm_compute. reflexivity.
  - exists r, awp. split; [reflexivity|].
    split; [vm_compute in Hr; injection Hr as <-; reflexivity|].
    split; [exact Hc|exact Hh].
Defined.

End StoreExtra.

(* ================================================================== *)
(** * The two ticket classes *)
(* ================================================================== *)

Module TicketExtra.

Lemma nan_compares_false a b :
  feq a a = false -> flt a b = false /\ flt b a = false /\ fle a b = false.
Proof.
  intros Ha. repeat split.
  - destruct (flt a b) eqn:H; [|reflexivity].
    apply flt_fle, fle_number in H. destruct H. congruence.
  - destruct (flt b a) eqn:H; [|reflexivity].
    apply flt_fle, fle_number in H. destruct H. congruence.
  - destruct (fle a b) eqn:H; [|reflexivity].
    apply fle_number in H. destruct H. congruence.
Qed.

(** X11: The ticket of [consent_checker] and the ticket of [decision_core] test
    the lifetime with different comparisons: the first is expired when
    [now > issued_at + ttl], the second valid when
    [now <= issued_at + ttl].  For tickets of the same issue time and
    lifetime: a ticket the planner holds valid is valid for the checker
    while it has invocations left; a ticket valid for the checker is valid
    for the planner when the clock and the expiry time are numbers; and at
    a clock reading that is not a number the checker's ticket with
    invocations left is valid while the planner's is not. *)
Theorem ticket_lifetime_tests_agree_on_numbers (now : float)
    (t : ConsentChecker.ConsentTicket) (t' : DecisionCore.ConsentTicket)
    (ttl : float) :
  ConsentChecker.issued_at t = DecisionCore.issued_at t' ->
  ConsentChecker.ttl_seconds t = DecisionCore.ttl_seconds t' ->
  float_of_int (ConsentChecker.ttl_seconds t) = Ok ttl ->
  (Z.lt (ConsentChecker.invocations t) (ConsentChecker.max_invocations t) ->
   DecisionCore.is_valid now t' = Ok true ->
   ConsentChecker.is_valid now t = Ok true)
  /\ (feq now now = true ->
      feq (ConsentChecker.issued_at t + ttl)%float
          (ConsentChecker.issued_at t + ttl)%float = true ->
      ConsentChecker.is_valid now t = Ok true ->
      DecisionCore.is_valid now t' = Ok true)
  /\ (feq now now = false ->
      Z.lt (ConsentChecker.invocations t) (ConsentChecker.max_invocations t) ->
      ConsentChecker.is_valid now t = Ok true
      /\ DecisionCore.is_valid now t' = Ok false).
Proof.
  intros Hi Ht Httl.
  unfold ConsentChecker.is_valid, DecisionCore.is_valid.
  rewrite <- Ht, <- Hi, Httl. cbn [mbind result_bind]. rewrite fgt_flt.
  assert (Hroom : Z.lt (ConsentChecker.invocations t)
                       (ConsentChecker.max_invocations t) ->
                  Z.geb (ConsentChecker.invocations t)
                        (ConsentChecker.max_invocations t) = false).
  { intros Hlt. rewrite Z.geb_leb. apply Z.leb_gt. exact Hlt. }
  split; [|split].
  - intros Hlt [= Hle]. rewrite (fle_not_flt _ _ Hle), (Hroom Hlt). reflexivity.
  - intros Hnow Hexp.
    destruct (flt (ConsentChecker.issued_at t + ttl) now) eqn:Hlate;
      [discriminate|].
    intros _. f_equal. now apply not_flt_fle.
  - intros Hnan Hlt. destruct (nan_compares_false now
                                 (ConsentChecker.issued_at t + ttl)%float Hnan)
      as (_ & Hgt & Hle).
    rewrite Hgt, Hle, (Hroom Hlt). split; reflexivity.
Qed.

(** The checker's ticket for two invocations and a planner's ticket of the
    same issue time and lifetime, read at 1005. *)
Lemma ticket_lifetime_tests_agree_on_numbers_witness :
  ConsentChecker.is_valid 1005%float ConsentChecker.ticket1 = Ok true.
Proof.
  destruct (ticket_lifetime_tests_agree_on_numbers 1005%float
              ConsentChecker.ticket1
              (DecisionCore.mkTicket "user" "org" 10 1000%float []) 10%float)
    as [H _].
  - reflexivity.
  - reflexivity.
  - vm_compute. reflexivity.
  - apply H; [reflexivity|vm_compute; reflexivity].
Defined.

End TicketExtra.
